(** * CodePrompt: the prompt builder, optimizer, analyzer and variation generator

    A shallow embedding of the prompt pipeline of CodePrompt:
    - [Node.buildPrompt]: utils/promptBuilder.js (the command line side);
    - [Web.buildPrompt]: web/prompt-builder.js (the browser side);
    - [optimizePrompt], [analyzeTokenEfficiency], [generatePromptVariations]:
      utils/promptOptimizer.js, repeated word for word in the browser file.
    - [App.updatePrompt], [App.sanitizeInput], [App.escapeHtml],
      [App.shareConfiguration], [App.handleUrlParams]: web/app.js (the page
      script), over the built-in functions of [Dom];
    - [Cli.main] and the flags: bin/codeprompt.js.

    Strings are sequences of code units below 256 ([string]); the text that
    shareConfiguration hands to btoa, where a wider code unit matters, is the
    list of its code units.  Option sets and project contexts are JavaScript
    objects, kept as association lists in key creation order. *)

From Stdlib Require Import String Ascii List Bool Arith Lia ZArith NArith QArith Qround ZifyNat.
Import ListNotations.
Open Scope list_scope.
Open Scope string_scope.

(** ** JavaScript values and objects *)

Module Js.

(** The three ways a call can end.  [TypeError] is the exception thrown by a
    method call on a value that has no such method.  [Beyond] marks the inputs
    this model does not follow: a key that is not a plain option name (the
    browser side compiles keys into regular expressions, and keys that look
    like array indices are enumerated out of creation order), or a table read
    that lands on a member inherited from Object.prototype. *)
Inductive result (A : Type) : Type :=
| Ok (a : A)
| TypeError
| Beyond.
Arguments Ok {A} a.
Arguments TypeError {A}.
Arguments Beyond {A}.

Definition bind {A B : Type} (r : result A) (k : A -> result B) : result B :=
  match r with
  | Ok a => k a
  | TypeError => TypeError
  | Beyond => Beyond
  end.

Notation "x <- r ;; k" := (bind r (fun x => k))
  (at level 61, r at next level, right associativity).

(** Option values: strings, booleans (confirm questions) and arrays of
    strings (checkbox questions). *)
Inductive value : Type :=
| VStr (s : string)
| VBool (b : bool)
| VArr (l : list string).

(** An object with its own enumerable properties in creation order. *)
Definition object : Type := list (string * value).

(** [o[k]] for an own key; [None] is [undefined]. *)
Fixpoint get (o : object) (k : string) : option value :=
  match o with
  | [] => None
  | (k', v) :: o' => if String.eqb k k' then Some v else get o' k
  end.

(** [o[k] = v]: an existing key keeps its place, a new key goes last. *)
Fixpoint set (o : object) (k : string) (v : value) : object :=
  match o with
  | [] => [(k, v)]
  | (k', v') :: o' =>
      if String.eqb k k' then (k', v) :: o' else (k', v') :: set o' k v
  end.

(** [Object.keys(o)]. *)
Definition keys (o : object) : list string := map fst o.

(** [{ ...a, ...b }]. *)
Definition spread (a b : object) : object :=
  fold_left (fun acc kv => set acc (fst kv) (snd kv)) b a.

(** ToString. *)
Definition to_string (v : value) : string :=
  match v with
  | VStr s => s
  | VBool true => "true"
  | VBool false => "false"
  | VArr l => String.concat "," l
  end.

(** ToBoolean of a property read. *)
Definition truthy (v : option value) : bool :=
  match v with
  | None => false
  | Some (VStr s) => negb (String.eqb s EmptyString)
  | Some (VBool b) => b
  | Some (VArr _) => true
  end.

(** [v === 'lit']. *)
Definition is_str (v : option value) (lit : string) : bool :=
  match v with
  | Some (VStr s) => String.eqb s lit
  | _ => false
  end.

(** [v === true || v === 'true']. *)
Definition is_true (v : option value) : bool :=
  match v with
  | Some (VBool true) => true
  | Some (VStr s) => String.eqb s "true"
  | _ => false
  end.

(** [a || b] where [b] is never undefined. *)
Definition or_else (a : option value) (b : value) : value :=
  match a with
  | Some v => if truthy a then v else b
  | None => b
  end.

(** [a || b] where [b] may be undefined. *)
Definition or_opt (a b : option value) : option value :=
  if truthy a then a else b.

(** *** String.prototype *)

(** [strip p s] is the rest of [s] after its prefix [p]. *)
Fixpoint strip (p s : string) : option string :=
  match p, s with
  | EmptyString, _ => Some s
  | String a p', String b s' => if Ascii.eqb a b then strip p' s' else None
  | String _ _, EmptyString => None
  end.

(** The leftmost occurrence of [p] in [s]: the text before and after it. *)
Fixpoint find (p s : string) : option (string * string) :=
  match strip p s with
  | Some rest => Some (EmptyString, rest)
  | None =>
      match s with
      | EmptyString => None
      | String c t =>
          match find p t with
          | Some (a, b) => Some (String c a, b)
          | None => None
          end
      end
  end.

(** [s.includes(p)]. *)
Definition includes (s p : string) : bool :=
  match find p s with Some _ => true | None => false end.

(** [s.endsWith(p)]. *)
Fixpoint ends_with (s p : string) : bool :=
  String.eqb s p ||
  match s with
  | EmptyString => false
  | String _ t => ends_with t p
  end.

(** GetSubstitution for a pattern without capture groups: in the replacement
    text [$$] is a dollar sign, [$&] the match, [$`] the text before the
    match and [$'] the text after it; any other [$] stands for itself. *)
Fixpoint GetSubstitution (matched before after replacement : string) : string :=
  match replacement with
  | EmptyString => EmptyString
  | String c r =>
      if Ascii.eqb c "$" then
        match r with
        | String d r' =>
            if Ascii.eqb d "$" then String "$" (GetSubstitution matched before after r')
            else if Ascii.eqb d "&" then matched ++ GetSubstitution matched before after r'
            else if Ascii.eqb d "`" then before ++ GetSubstitution matched before after r'
            else if Ascii.eqb d "'" then after ++ GetSubstitution matched before after r'
            else String c (GetSubstitution matched before after r)
        | EmptyString => String c EmptyString
        end
      else String c (GetSubstitution matched before after r)
  end.

(** [s.replace(p, r)] with a string pattern: the first occurrence only. *)
Definition replace (s p r : string) : string :=
  match find p s with
  | Some (a, b) => a ++ GetSubstitution p a b r ++ b
  | None => s
  end.

(** [s.replace(new RegExp(p, 'g'), r)] for a pattern [p] that matches its own
    text: every occurrence, left to right, without overlap; the text before
    and after a match is taken in the whole of [s]. *)
Fixpoint replace_all_from (fuel : nat) (before s p r : string) : string :=
  match fuel with
  | O => s
  | S fuel' =>
      match find p s with
      | Some (a, b) =>
          a ++ GetSubstitution p (before ++ a) b r
            ++ replace_all_from fuel' (before ++ a ++ p) b p r
      | None => s
      end
  end.

Definition replace_all (s p r : string) : string :=
  replace_all_from (String.length s) EmptyString s p r.

(** [\w]. *)
Definition is_word (c : ascii) : bool :=
  let n := nat_of_ascii c in
  (((48 <=? n) && (n <=? 57)) || ((65 <=? n) && (n <=? 90))
   || ((97 <=? n) && (n <=? 122)) || (n =? 95))%nat.

Definition is_digit (c : ascii) : bool :=
  let n := nat_of_ascii c in ((48 <=? n) && (n <=? 57))%nat.

(** The longest run of word characters at the head of [s], and the rest. *)
Fixpoint span_word (s : string) : string * string :=
  match s with
  | EmptyString => (EmptyString, EmptyString)
  | String c t =>
      if is_word c then let (w, r) := span_word t in (String c w, r)
      else (EmptyString, s)
  end.

(** A match of [/\{\{\w+\}\}/] at the head of [s]: the text after it.  The run
    of word characters is taken whole, a shorter run would be followed by a
    word character and not by a closing brace. *)
Definition match_placeholder (s : string) : option string :=
  match strip "{{" s with
  | Some s1 =>
      match span_word s1 with
      | (EmptyString, _) => None
      | (String _ _, s2) => strip "}}" s2
      end
  | None => None
  end.

(** The leftmost match of [/\{\{\w+\}\}/]. *)
Fixpoint find_placeholder (s : string) : option (string * string) :=
  match match_placeholder s with
  | Some rest => Some (EmptyString, rest)
  | None =>
      match s with
      | EmptyString => None
      | String c t =>
          match find_placeholder t with
          | Some (a, b) => Some (String c a, b)
          | None => None
          end
      end
  end.

(** [s.replace(/\{\{\w+\}\}/g, r)] for a replacement text [r] without [$]. *)
Fixpoint replace_placeholders_from (fuel : nat) (s r : string) : string :=
  match fuel with
  | O => s
  | S fuel' =>
      match find_placeholder s with
      | Some (a, b) => a ++ r ++ replace_placeholders_from fuel' b r
      | None => s
      end
  end.

Definition replace_placeholders (s r : string) : string :=
  replace_placeholders_from (String.length s) s r.

(** White space and line terminators below 256. *)
Definition is_space (c : ascii) : bool :=
  let n := nat_of_ascii c in
  (((9 <=? n) && (n <=? 13)) || (n =? 32) || (n =? 160))%nat.

(** [s.trim() === '']. *)
Fixpoint blank (s : string) : bool :=
  match s with
  | EmptyString => true
  | String c t => is_space c && blank t
  end.

(** [s.toLowerCase()] below 256. *)
Definition lower (c : ascii) : ascii :=
  let n := nat_of_ascii c in
  if (((65 <=? n) && (n <=? 90))
      || ((192 <=? n) && (n <=? 222) && negb (n =? 215)))%nat
  then ascii_of_nat (n + 32) else c.

Fixpoint toLowerCase (s : string) : string :=
  match s with
  | EmptyString => EmptyString
  | String c t => String (lower c) (toLowerCase t)
  end.

(** [s.split(sep)[0]] for a one character separator. *)
Fixpoint before_first (sep : ascii) (s : string) : string :=
  match s with
  | EmptyString => EmptyString
  | String c t => if Ascii.eqb c sep then EmptyString else String c (before_first sep t)
  end.

(** [s.split(sep).length] for a one character separator. *)
Fixpoint split_length (sep : ascii) (s : string) : nat :=
  match s with
  | EmptyString => 1%nat
  | String c t => if Ascii.eqb c sep then S (split_length sep t) else split_length sep t
  end.

(** [Math.ceil(n / 4)] for a length [n]: the division is exact in rationals
    (and in doubles, a division by a power of two). *)
Definition ceil_quarter (n : nat) : Z :=
  Qceiling (inject_Z (Z.of_nat n) / inject_Z 4).

(** *** Lookup tables *)

(** The members every object literal inherits from Object.prototype. *)
Definition Object_prototype : list string :=
  [ "constructor"; "hasOwnProperty"; "isPrototypeOf"; "propertyIsEnumerable";
    "toLocaleString"; "toString"; "valueOf"; "__proto__";
    "__defineGetter__"; "__defineSetter__"; "__lookupGetter__"; "__lookupSetter__" ].

Definition inherited (k : string) : bool :=
  existsb (String.eqb k) Object_prototype.

(** A read [table[k]] of an object literal. *)
Inductive lookup (A : Type) : Type :=
| Own (a : A)
| Inherited
| Missing.
Arguments Own {A} a.
Arguments Inherited {A}.
Arguments Missing {A}.

Fixpoint assoc {A : Type} (t : list (string * A)) (k : string) : option A :=
  match t with
  | [] => None
  | (k', a) :: t' => if String.eqb k k' then Some a else assoc t' k
  end.

Definition read {A : Type} (t : list (string * A)) (k : string) : lookup A :=
  match assoc t k with
  | Some a => Own a
  | None => if inherited k then Inherited else Missing
  end.

(** A phrase dictionary. *)
Definition dict : Type := list (string * string).

(** [constraints.push(c)]. *)
Definition push (constraints : list string) (c : string) : list string :=
  (constraints ++ [c])%list.

(** [if (v && d[v]) constraints.push(pre + d[v])]. *)
Definition push_phrase (constraints : list string) (pre : string)
    (v : option value) (d : dict) : result (list string) :=
  if truthy v then
    match v with
    | Some x =>
        match read d (to_string x) with
        | Own phrase => Ok (push constraints (pre ++ phrase))
        | Inherited => Beyond
        | Missing => Ok constraints
        end
    | None => Ok constraints
    end
  else Ok constraints.

(** A plain option name: word characters, no leading digit, not a member of
    Object.prototype. *)
Fixpoint all_word (s : string) : bool :=
  match s with
  | EmptyString => true
  | String c t => is_word c && all_word t
  end.

Definition option_name (k : string) : bool :=
  match k with
  | EmptyString => false
  | String c _ => negb (is_digit c) && all_word k && negb (inherited k)
  end.

(** A template of PROMPT_TEMPLATES: its phrases and its dictionaries by
    member name. *)
Record template : Type := {
  base : string;
  withProjectName : option string;
  tables : list (string * dict) }.

(** [template.member]; [None] is [undefined]. *)
Definition member (t : template) (name : string) : option dict :=
  assoc (tables t) name.

(** [if (v && template.member[v]) constraints.push(pre + template.member[v])]:
    the member is read only when [v] is truthy. *)
Definition push_member (constraints : list string) (pre : string)
    (v : option value) (d : option dict) : result (list string) :=
  if truthy v then
    match d with
    | Some d => push_phrase constraints pre v d
    | None => TypeError
    end
  else Ok constraints.

(** [if (v && template.member && template.member[v]) constraints.push(...)]. *)
Definition push_guarded (constraints : list string) (pre : string)
    (v : option value) (d : option dict) : result (list string) :=
  match d with
  | Some d => push_phrase constraints pre v d
  | None => Ok constraints
  end.

(** [if (v) constraints.push(pre + v + post)]. *)
Definition push_text (constraints : list string) (pre : string)
    (v : option value) (post : string) : list string :=
  match v with
  | Some x => if truthy v then push constraints (pre ++ to_string x ++ post) else constraints
  | None => constraints
  end.

(** [if (flag && (flag === true || flag === 'true')) constraints.push(c)]. *)
Definition push_flag (constraints : list string) (flag : option value)
    (c : string) : list string :=
  if truthy flag && is_true flag then push constraints c else constraints.

(** [if (v && template.member[v]) prompt = subst(prompt, hole, template.member[v])],
    for [subst] one of [replace] and [replace_all]. *)
Definition replace_phrase (subst : string -> string -> string -> string)
    (prompt hole : string) (v : option value) (d : option dict) : result string :=
  if truthy v then
    match v, d with
    | Some x, Some d =>
        match read d (to_string x) with
        | Own phrase => Ok (subst prompt hole phrase)
        | Inherited => Beyond
        | Missing => Ok prompt
        end
    | _, None => TypeError
    | None, _ => Ok prompt
    end
  else Ok prompt.

(** The package manager clause of init. *)
Definition push_packageManager (constraints : list string)
    (v : option value) : list string :=
  if truthy v then
    if is_str v "none"
    then push constraints "No package manager needed - pure static files"
    else push_text constraints "Use " v " with latest best practices"
  else constraints.

(** The library clause of testing: [library], or [customLibrary] when the
    library is 'Other'. *)
Definition push_library (constraints : list string)
    (library customLibrary : option value) (libraries : option dict)
    : result (list string) :=
  let testingLibrary :=
    if is_str library "Other" && truthy customLibrary then customLibrary else library in
  if truthy testingLibrary then
    match libraries, testingLibrary with
    | Some d, Some (VStr s) =>
        match read d (toLowerCase s) with
        | Own phrase => Ok (push constraints phrase)
        | Inherited => Beyond
        | Missing => Ok (push constraints ("Using " ++ s))
        end
    | Some _, _ => TypeError
    | None, _ => Ok (push_text constraints "Using " testingLibrary EmptyString)
    end
  else Ok constraints.

Definition formatSpecs : dict :=
  [ ("markdown", "Markdown format with proper headers and syntax");
    ("text", "Plain text format, well-structured");
    ("html", "HTML format with semantic markup");
    ("json", "JSON format for API specifications");
    ("yaml", "YAML format for structured configuration");
    ("rst", "reStructuredText format with proper directives") ].

Definition detailLevels : dict :=
  [ ("minimal", "Minimal documentation - key points and essential info only");
    ("standard", "Standard documentation - comprehensive coverage");
    ("detailed", "Detailed documentation with in-depth explanations and examples");
    ("tutorial", "Tutorial-style documentation with step-by-step guidance") ].

Definition diagramTypeNames : dict :=
  [ ("flowchart", "flow charts");
    ("architecture", "architecture diagrams");
    ("database", "database schemas");
    ("sequence", "sequence diagrams");
    ("class", "class diagrams");
    ("network", "network diagrams");
    ("gantt", "gantt charts");
    ("mindmap", "mindmaps") ].

(** [diagramTypes.map(type => diagramTypeNames[type] || type)]. *)
Fixpoint diagram_names (diagramTypes : list value) : result (list string) :=
  match diagramTypes with
  | [] => Ok []
  | t :: rest =>
      match read diagramTypeNames (to_string t) with
      | Own name => names <- diagram_names rest ;; Ok (name :: names)
      | Inherited => Beyond
      | Missing => names <- diagram_names rest ;; Ok (to_string t :: names)
      end
  end.

(** The diagram clause of docs, given the list of diagram types. *)
Definition push_diagrams (constraints : list string)
    (diagramTool customDiagramTool : option value) (diagramTypes : list value)
    : result (list string) :=
  let tool := or_else diagramTool (VStr "mermaid") in
  let tool :=
    if is_str diagramTool "other" && truthy customDiagramTool
    then or_else customDiagramTool tool else tool in
  names <- diagram_names diagramTypes ;;
  Ok (push constraints
        ("Include " ++ String.concat ", " names ++ " using " ++ to_string tool ++ " syntax")).

(** The last two steps of both builders: the constraints segment, when a
    clause was collected, and the clarification request. *)
Definition finish (prompt : string) (constraints : list string) : string :=
  let prompt :=
    match constraints with
    | [] => prompt
    | _ :: _ => prompt ++ ". Constraints: " ++ String.concat ", " constraints ++ "."
    end in
  prompt ++ " Ask user to clarify if necessary.".

(** The double quote. *)
Definition dquote : string := String (ascii_of_nat 34) EmptyString.

End Js.

Import Js.

(** ** utils/promptBuilder.js *)

Module Node.

Definition PROMPT_TEMPLATES : list (string * template) :=
  [ ("init",
     {| base := "Create {{projectType}} project with {{framework}}";
        withProjectName :=
          Some "Create {{projectType}} project called '{{projectName}}' with {{framework}}";
        tables :=
          [ ("constraints",
             [ ("minimal", "Bare minimum setup");
               ("standard", "Common dev tools included");
               ("full", "Complete dev environment") ]);
            ("structure",
             [ ("flat", "Single directory");
               ("layered", "Organized folders");
               ("modular", "Feature-based structure");
               ("monorepo", "Monorepo with multiple packages") ]);
            ("frameworks",
             [ ("react", "Follow React 18+ patterns, hooks, and modern practices");
               ("vue", "Use Vue 3 Composition API and TypeScript support");
               ("angular", "Follow Angular 15+ conventions with standalone components");
               ("svelte", "Use SvelteKit patterns and TypeScript configuration");
               ("next", "Configure Next.js 14+ with App Router");
               ("nuxt", "Set up Nuxt 3 with auto-imports and TypeScript");
               ("express", "Modern Express.js with middleware patterns");
               ("fastify", "High-performance Fastify server setup");
               ("nest", "NestJS with decorators and dependency injection");
               ("electron", "Electron with security best practices");
               ("tauri", "Tauri with Rust backend integration");
               ("astro", "Astro with island architecture");
               ("gatsby", "Gatsby with GraphQL data layer");
               ("vite", "Vite build configuration and plugins");
               ("webpack", "Modern webpack configuration");
               ("esbuild", "ESBuild bundler setup");
               ("rollup", "Rollup configuration for libraries") ]) ] |});
    ("feature",
     {| base := "Implement {{feature}} as {{pattern}}";
        withProjectName := None;
        tables :=
          [ ("patterns",
             [ ("function", "pure functions with TypeScript");
               ("class", "class-based module with encapsulation");
               ("hook", "React hook with proper dependencies");
               ("service", "service layer with dependency injection");
               ("component", "reusable component with props interface");
               ("utility", "utility function with comprehensive tests");
               ("middleware", "middleware with error handling");
               ("api", "RESTful API endpoint with validation") ]);
            ("scope",
             [ ("component", "single component with tests");
               ("module", "complete module with documentation");
               ("feature", "full feature set with integration tests");
               ("system", "system-wide implementation with monitoring") ]) ] |});
    ("architecture",
     {| base := "Design {{feature}} using {{pattern}} pattern";
        withProjectName := None;
        tables :=
          [ ("patterns",
             [ ("mvc", "MVC with clear separation of concerns");
               ("layered", "layered architecture with dependency inversion");
               ("hexagonal", "hexagonal/ports-adapters with clean boundaries");
               ("microservice", "microservice with proper communication patterns");
               ("eventdriven", "event-driven architecture with message queues");
               ("cqrs", "CQRS with command and query separation");
               ("ddd", "domain-driven design with bounded contexts") ]) ] |});
    ("testing",
     {| base := "Write {{testType}} tests for {{module}} using {{library}}";
        withProjectName := None;
        tables :=
          [ ("types",
             [ ("unit", "unit tests with mocking");
               ("integration", "integration tests with real dependencies");
               ("e2e", "end-to-end tests with user scenarios");
               ("performance", "performance tests with benchmarks");
               ("security", "security tests with vulnerability scanning") ]);
            ("libraries",
             [ ("jest", "Jest with TypeScript support");
               ("vitest", "Vitest with fast execution");
               ("cypress", "Cypress for E2E testing");
               ("playwright", "Playwright for cross-browser testing");
               ("rtl", "React Testing Library for component tests") ]) ] |});
    ("docs",
     {| base := "Generate {{docType}} documentation for {{projectName}}";
        withProjectName := None;
        tables :=
          [ ("types",
             [ ("api", "OpenAPI/Swagger API documentation");
               ("user", "comprehensive user guide with examples");
               ("dev", "developer setup with troubleshooting");
               ("arch", "architecture overview with diagrams");
               ("changelog", "structured changelog with versioning");
               ("contributing", "contribution guidelines with workflows");
               ("security", "security documentation with best practices");
               ("performance", "performance guide with optimization strategies") ]) ] |});
    ("fix",
     {| base := "Fix {{issue}} in {{component}} using {{approach}}";
        withProjectName := None;
        tables :=
          [ ("approaches",
             [ ("debug", "systematic debugging with logging");
               ("refactor", "code refactoring with backward compatibility");
               ("optimize", "performance optimization with benchmarks");
               ("patch", "minimal patch fix with regression tests");
               ("rewrite", "partial rewrite with migration strategy");
               ("security", "security fix with vulnerability assessment") ]);
            ("priorities",
             [ ("critical", "critical priority - immediate fix required");
               ("high", "high priority - fix within 24 hours");
               ("medium", "medium priority - address in next sprint");
               ("low", "low priority - backlog item") ]);
            ("categories",
             [ ("performance", "performance issue affecting user experience");
               ("security", "security vulnerability requiring immediate attention");
               ("functionality", "functionality bug breaking expected behavior");
               ("ui", "UI/UX issue affecting user interaction");
               ("integration", "integration issue with external services");
               ("compatibility", "compatibility issue across environments") ]) ] |}) ].

Definition OUTPUT_FORMATS : dict :=
  [ ("code", "Code only, no explanations");
    ("commented", "Code with inline comments");
    ("guided", "Code with brief setup steps");
    ("detailed", "Code with comprehensive explanation") ].

Definition COMPLEXITY_LEVELS : dict :=
  [ ("simple", "Basic implementation, <50 lines");
    ("medium", "Standard features, <200 lines");
    ("complex", "Full implementation, optimized") ].

Definition styles : dict :=
  [ ("functional", "Functional programming with immutability");
    ("oop", "Object-oriented with SOLID principles");
    ("minimal", "Minimal, clean code with clear naming") ].

Definition structures : dict :=
  [ ("single", "Single file solution with clear sections");
    ("split", "Separate files by concern with barrel exports");
    ("modular", "Modular file structure with index files") ].

Definition deps : dict :=
  [ ("none", "No external dependencies - pure implementation");
    ("minimal", "Minimal dependencies only - prefer built-ins");
    ("standard", "Common libraries allowed - focus on stability") ].

(** [if (options.framework === 'other' && options.customFramework)
       options.framework = options.customFramework]: a write to the caller's
    object. *)
Definition custom_framework (options : object) : object :=
  match get options "customFramework" with
  | Some custom =>
      if is_str (get options "framework") "other" && truthy (Some custom)
      then set options "framework" custom else options
  | None => options
  end.

(** [Object.keys(options).forEach(key =>
       prompt = prompt.replace(`{{${key}}}`, options[key] || 'default'))],
    for keys that are plain option names. *)
Definition substitute (prompt : string) (options : object) : result string :=
  if forallb option_name (keys options) then
    Ok (fold_left
          (fun prompt key =>
             replace prompt ("{{" ++ key ++ "}}")
               (to_string (or_else (get options key) (VStr "default"))))
          (keys options) prompt)
  else Beyond.

(** The diagram types of docs: a checkbox array, a single type, or the
    default pair. *)
Definition diagram_types (v : option value) : list value :=
  match v with
  | Some (VArr l) => map VStr l
  | Some x => if truthy v then [x] else [VStr "flowchart"; VStr "architecture"]
  | None => [VStr "flowchart"; VStr "architecture"]
  end.

(** The [switch (type)] of buildPrompt. *)
Definition enhance (template : template) (type : string) (options : object)
    (prompt : string) (constraints : list string) : result (string * list string) :=
  if String.eqb type "init" then
    prompt <-
      match get options "projectName" with
      | None => Ok prompt
      | Some (VStr userProjectName) =>
          if negb (blank userProjectName) then
            match withProjectName template with
            | Some named => substitute named options
            | None => TypeError
            end
          else Ok prompt
      | Some (VBool false) => Ok prompt
      | Some _ => TypeError
      end ;;
    let constraints := push_packageManager constraints (get options "packageManager") in
    constraints <-
      push_member constraints EmptyString (get options "structure") (member template "structure") ;;
    Ok (prompt, constraints)
  else if String.eqb type "feature" then
    prompt <-
      replace_phrase replace prompt "{{pattern}}" (get options "pattern") (member template "patterns") ;;
    constraints <-
      push_member constraints "Scope: " (get options "scope") (member template "scope") ;;
    Ok (prompt, constraints)
  else if String.eqb type "architecture" then
    prompt <-
      replace_phrase replace prompt "{{pattern}}" (get options "pattern") (member template "patterns") ;;
    Ok (prompt, constraints)
  else if String.eqb type "testing" then
    prompt <-
      replace_phrase replace prompt "{{testType}}" (get options "testType") (member template "types") ;;
    constraints <-
      push_library constraints (get options "library") (get options "customLibrary")
        (member template "libraries") ;;
    let constraints :=
      push_text constraints "Target " (get options "coverage") "% coverage with meaningful tests" in
    Ok (prompt, constraints)
  else if String.eqb type "docs" then
    prompt <-
      replace_phrase replace prompt "{{docType}}" (get options "docType") (member template "types") ;;
    constraints <- push_phrase constraints EmptyString (get options "format") formatSpecs ;;
    constraints <- push_phrase constraints EmptyString (get options "detailLevel") detailLevels ;;
    constraints <-
      (if truthy (get options "includeDiagrams") && is_true (get options "includeDiagrams") then
         push_diagrams constraints (get options "diagramTool") (get options "customDiagramTool")
           (diagram_types (get options "diagramTypes"))
       else Ok constraints) ;;
    let constraints :=
      push_flag constraints (get options "includeExamples")
        "Include practical code examples and snippets" in
    let constraints :=
      push_flag constraints (get options "includeToc")
        "Generate table of contents with proper navigation" in
    Ok (prompt, constraints)
  else if String.eqb type "fix" then
    prompt <-
      replace_phrase replace prompt "{{approach}}" (get options "approach") (member template "approaches") ;;
    constraints <-
      push_member constraints "Priority: " (get options "priority") (member template "priorities") ;;
    let constraints :=
      push_text constraints ("Error context: " ++ dquote) (get options "errorMessage") dquote in
    constraints <-
      push_guarded constraints "Issue type: " (get options "category") (member template "categories") ;;
    Ok (prompt, constraints)
  else Ok (prompt, constraints).

(** buildPrompt from the substitution to the end of the switch: the phrase
    and the collected constraints. *)
Definition parts (template : template) (type : string) (options : object)
    : result (string * list string) :=
  prompt <- substitute (base template) options ;;
  let constraints := [] in
  constraints <-
    (if String.eqb type "init"
     then push_guarded constraints EmptyString (get options "framework") (member template "frameworks")
     else Ok constraints) ;;
  constraints <- push_phrase constraints EmptyString (get options "outputFormat") OUTPUT_FORMATS ;;
  constraints <- push_phrase constraints EmptyString (get options "complexity") COMPLEXITY_LEVELS ;;
  constraints <- push_phrase constraints EmptyString (get options "codeStyle") styles ;;
  constraints <- push_phrase constraints EmptyString (get options "fileStructure") structures ;;
  constraints <- push_phrase constraints EmptyString (get options "dependencies") deps ;;
  enhance template type options prompt constraints.

(** [buildPrompt(type, options)]: the returned string, or the exception, and
    the caller's options object after the call.  A type that names a member
    of Object.prototype finds that member instead of a template: its [base]
    is undefined, so the first substitution throws, and without any key the
    text starts with 'undefined'. *)
Definition buildPrompt (type : string) (options : object) : result string * object :=
  match read PROMPT_TEMPLATES type with
  | Missing => (Ok "Unknown prompt type.", options)
  | Inherited =>
      let options := custom_framework options in
      (match keys options with
       | [] => Ok "undefined Ask user to clarify if necessary."
       | _ :: _ => TypeError
       end, options)
  | Own template =>
      let options := custom_framework options in
      (pc <- parts template type options ;; Ok (finish (fst pc) (snd pc)), options)
  end.

End Node.

(** ** web/prompt-builder.js *)

Module Web.

Definition PROMPT_TEMPLATES : list (string * template) :=
  [ ("init",
     {| base := "Create {{projectType}} project with {{framework}}";
        withProjectName :=
          Some "Create {{projectType}} project called '{{projectName}}' with {{framework}}";
        tables :=
          [ ("constraints",
             [ ("minimal", "Bare minimum setup");
               ("standard", "Common dev tools included");
               ("full", "Complete dev environment") ]);
            ("structure",
             [ ("flat", "Single directory");
               ("layered", "Organized folders");
               ("modular", "Feature-based structure");
               ("monorepo", "Monorepo with multiple packages") ]) ] |});
    ("feature",
     {| base := "Implement {{feature}} as {{pattern}}";
        withProjectName := None;
        tables :=
          [ ("patterns",
             [ ("function", "pure functions");
               ("class", "class-based module");
               ("hook", "React hook");
               ("service", "service layer") ]);
            ("scope",
             [ ("component", "single component");
               ("module", "complete module");
               ("feature", "full feature set") ]) ] |});
    ("architecture",
     {| base := "Design {{feature}} using {{pattern}} pattern";
        withProjectName := None;
        tables :=
          [ ("patterns",
             [ ("mvc", "MVC");
               ("layered", "layered architecture");
               ("hexagonal", "hexagonal/ports-adapters");
               ("microservice", "microservice") ]) ] |});
    ("testing",
     {| base := "Write {{testType}} tests for {{module}} using {{library}}";
        withProjectName := None;
        tables :=
          [ ("types",
             [ ("unit", "unit");
               ("integration", "integration");
               ("e2e", "end-to-end") ]) ] |});
    ("docs",
     {| base := "Generate {{docType}} documentation for {{projectName}}";
        withProjectName := None;
        tables :=
          [ ("types",
             [ ("api", "API documentation");
               ("user", "user guide");
               ("dev", "developer setup");
               ("arch", "architecture overview");
               ("changelog", "changelog");
               ("contributing", "contributing guidelines");
               ("security", "security documentation");
               ("performance", "performance guide") ]) ] |});
    ("fix",
     {| base := "Fix {{issue}} in {{component}} using {{approach}}";
        withProjectName := None;
        tables :=
          [ ("approaches",
             [ ("debug", "systematic debugging");
               ("refactor", "code refactoring");
               ("optimize", "performance optimization");
               ("patch", "minimal patch fix");
               ("rewrite", "partial rewrite") ]);
            ("priorities",
             [ ("critical", "critical priority");
               ("high", "high priority");
               ("medium", "medium priority");
               ("low", "low priority") ]) ] |}) ].

Definition OUTPUT_FORMATS : dict :=
  [ ("code", "Code only, no explanations, no markdown");
    ("commented", "Code with inline comments");
    ("guided", "Code with brief setup steps");
    ("detailed", "Code with comprehensive explanation") ].

Definition COMPLEXITY_LEVELS : dict :=
  [ ("simple", "Basic implementation, <50 lines");
    ("medium", "Standard features, <200 lines");
    ("complex", "Full implementation, optimized") ].

Definition fallbackValues : object :=
  [ ("projectType", VStr "node");
    ("framework", VStr "vanilla");
    ("feature", VStr "component");
    ("pattern", VStr "function");
    ("module", VStr "service");
    ("testType", VStr "unit");
    ("library", VStr "Jest");
    ("docType", VStr "api");
    ("projectName", VStr "project");
    ("issue", VStr "bug");
    ("component", VStr "component");
    ("approach", VStr "debug") ].

Definition styles : dict :=
  [ ("functional", "Functional programming style");
    ("oop", "Object-oriented approach");
    ("minimal", "Minimal, clean code") ].

Definition structures : dict :=
  [ ("single", "Single file solution");
    ("split", "Separate files by concern");
    ("modular", "Modular file structure") ].

Definition deps : dict :=
  [ ("none", "No external dependencies");
    ("minimal", "Minimal dependencies only");
    ("standard", "Common libraries allowed") ].

(** [if (completeOptions.framework === 'other' && completeOptions.customFramework)
       completeOptions.framework = completeOptions.customFramework]: a write
    to the merged copy. *)
Definition custom_framework (completeOptions : object) : object :=
  match get completeOptions "customFramework" with
  | Some custom =>
      if is_str (get completeOptions "framework") "other" && truthy (Some custom)
      then set completeOptions "framework" custom else completeOptions
  | None => completeOptions
  end.

(** [completeOptions[key] || fallbackValues[key] || 'default'], as a
    replacement text. *)
Definition replacement (completeOptions : object) (key : string) : string :=
  to_string
    (or_else (or_opt (get completeOptions key) (get fallbackValues key)) (VStr "default")).

(** [Object.keys(completeOptions).forEach(key => { if (skip) return;
       prompt = prompt.replace(new RegExp(`\\{\\{${key}\\}\\}`, 'g'), ...) })].
    For a plain option name the regular expression matches the text
    [{{key}}] and nothing else. *)
Definition substitute (skip : string -> bool) (prompt : string)
    (completeOptions : object) : result string :=
  if forallb option_name (keys completeOptions) then
    Ok (fold_left
          (fun prompt key =>
             if skip key then prompt
             else replace_all prompt ("{{" ++ key ++ "}}") (replacement completeOptions key))
          (keys completeOptions) prompt)
  else Beyond.

(** The keys the first substitution leaves to the switch. *)
Definition skipped (type key : string) : bool :=
  (String.eqb type "docs" && String.eqb key "docType")
  || (String.eqb type "init" && String.eqb key "projectName").

(** The diagram types of docs: the single select of the form, or the
    default. *)
Definition diagram_types (v : option value) : list value :=
  match v with
  | Some x => if truthy v then [x] else [VStr "flowchart"]
  | None => [VStr "flowchart"]
  end.

(** The [switch (type)] of buildPrompt; [options] is the caller's object and
    [completeOptions] the merged copy. *)
Definition enhance (template : template) (type : string)
    (options completeOptions : object)
    (prompt : string) (constraints : list string) : result (string * list string) :=
  if String.eqb type "init" then
    prompt <-
      match get options "projectName" with
      | None => Ok prompt
      | Some (VStr userProjectName) =>
          if negb (blank userProjectName) then
            match withProjectName template with
            | Some named => substitute (fun _ => false) named completeOptions
            | None => TypeError
            end
          else Ok prompt
      | Some (VBool false) => Ok prompt
      | Some _ => TypeError
      end ;;
    let constraints := push_packageManager constraints (get completeOptions "packageManager") in
    constraints <-
      push_member constraints EmptyString (get completeOptions "structure")
        (member template "structure") ;;
    Ok (prompt, constraints)
  else if String.eqb type "feature" then
    prompt <-
      replace_phrase replace_all prompt "{{pattern}}" (get completeOptions "pattern")
        (member template "patterns") ;;
    constraints <-
      push_member constraints "Scope: " (get completeOptions "scope") (member template "scope") ;;
    Ok (prompt, constraints)
  else if String.eqb type "architecture" then
    prompt <-
      replace_phrase replace_all prompt "{{pattern}}" (get completeOptions "pattern")
        (member template "patterns") ;;
    Ok (prompt, constraints)
  else if String.eqb type "testing" then
    prompt <-
      replace_phrase replace_all prompt "{{testType}}" (get completeOptions "testType")
        (member template "types") ;;
    constraints <-
      push_library constraints (get completeOptions "library")
        (get completeOptions "customLibrary") (member template "libraries") ;;
    let constraints :=
      push_text constraints "Target " (get completeOptions "coverage")
        "% coverage with meaningful tests" in
    Ok (prompt, constraints)
  else if String.eqb type "docs" then
    prompt <-
      replace_phrase replace_all prompt "{{docType}}" (get completeOptions "docType")
        (member template "types") ;;
    constraints <- push_phrase constraints EmptyString (get completeOptions "format") formatSpecs ;;
    constraints <-
      push_phrase constraints EmptyString (get completeOptions "detailLevel") detailLevels ;;
    constraints <-
      (if truthy (get completeOptions "includeDiagrams")
          && is_true (get completeOptions "includeDiagrams") then
         push_diagrams constraints (get completeOptions "diagramTool")
           (get completeOptions "customDiagramTool")
           (diagram_types (get completeOptions "diagramTypes"))
       else Ok constraints) ;;
    let constraints :=
      push_flag constraints (get completeOptions "includeExamples")
        "Include practical code examples and snippets" in
    let constraints :=
      push_flag constraints (get completeOptions "includeToc")
        "Generate table of contents with proper navigation" in
    Ok (prompt, constraints)
  else if String.eqb type "fix" then
    prompt <-
      replace_phrase replace_all prompt "{{approach}}" (get completeOptions "approach")
        (member template "approaches") ;;
    constraints <-
      push_member constraints "Priority: " (get completeOptions "priority")
        (member template "priorities") ;;
    let constraints :=
      push_text constraints ("Error: " ++ dquote) (get completeOptions "errorMessage") dquote in
    Ok (prompt, constraints)
  else Ok (prompt, constraints).

(** buildPrompt from the merge to the final cleanup: the phrase and the
    collected constraints. *)
Definition parts (template : template) (type : string) (options : object)
    : result (string * list string) :=
  let completeOptions := spread fallbackValues options in
  let prompt := base template in
  let completeOptions := custom_framework completeOptions in
  prompt <- substitute (skipped type) prompt completeOptions ;;
  let constraints := [] in
  constraints <-
    push_phrase constraints EmptyString (get completeOptions "outputFormat") OUTPUT_FORMATS ;;
  constraints <-
    push_phrase constraints EmptyString (get completeOptions "complexity") COMPLEXITY_LEVELS ;;
  constraints <- push_phrase constraints EmptyString (get completeOptions "codeStyle") styles ;;
  constraints <-
    push_phrase constraints EmptyString (get completeOptions "fileStructure") structures ;;
  constraints <- push_phrase constraints EmptyString (get completeOptions "dependencies") deps ;;
  pc <- enhance template type options completeOptions prompt constraints ;;
  Ok (replace_placeholders (fst pc) "component", snd pc).

(** [buildPrompt(type, options)].  The caller's object is only read.  A type
    that names a member of Object.prototype finds that member instead of a
    template: its [base] is undefined and the first substitution throws (the
    merged copy always has keys). *)
Definition buildPrompt (type : string) (options : object) : result string :=
  match read PROMPT_TEMPLATES type with
  | Missing => Ok "Unknown prompt type."
  | Inherited => TypeError
  | Own template =>
      pc <- parts template type options ;; Ok (finish (fst pc) (snd pc))
  end.

End Web.

(** ** utils/promptOptimizer.js *)

(** [optimizePrompt(basePrompt, options, context = {})]; a missing context
    argument is [None]. *)
Definition optimizePrompt (basePrompt : string) (options : object)
    (context : option object) : string :=
  let context := match context with Some c => c | None => [] end in
  let optimizedPrompt := basePrompt in
  let optimizations := [] in
  let optimizations :=
    if truthy (get context "hasTypeScript") && negb (includes basePrompt "TypeScript")
    then push optimizations "Use TypeScript" else optimizations in
  let optimizations :=
    if truthy (get context "hasReact") && negb (includes basePrompt "React")
    then push optimizations "Follow React patterns" else optimizations in
  let optimizations :=
    if truthy (get context "packageManager") && negb (is_str (get context "packageManager") "npm")
    then push_text optimizations "Use " (get context "packageManager") EmptyString
    else optimizations in
  let tokenSavers := [] in
  let tokenSavers :=
    if is_str (get options "outputFormat") "code"
    then push tokenSavers "Code only, no explanations, no markdown"
    else if is_str (get options "outputFormat") "commented"
    then push tokenSavers "Minimal inline comments only"
    else if is_str (get options "outputFormat") "guided"
    then push tokenSavers "Brief setup steps, no verbose explanations"
    else tokenSavers in
  let tokenSavers :=
    if is_str (get options "complexity") "simple"
    then push tokenSavers "Essential features only"
    else if is_str (get options "complexity") "medium"
    then push tokenSavers "Standard implementation, no edge case handling"
    else tokenSavers in
  let optimizedPrompt :=
    match optimizations with
    | [] => optimizedPrompt
    | _ :: _ => optimizedPrompt ++ ". Context: " ++ String.concat ", " optimizations
    end in
  let optimizedPrompt :=
    match tokenSavers with
    | [] => optimizedPrompt
    | _ :: _ => optimizedPrompt ++ ". Output: " ++ String.concat ", " tokenSavers
    end in
  optimizedPrompt.

Record analysis : Type := {
  estimatedTokens : Z;
  efficiency : string;
  recommendations : list string }.

(** [analyzeTokenEfficiency(prompt)]. *)
Definition analyzeTokenEfficiency (prompt : string) : analysis :=
  let estimatedTokens := ceil_quarter (String.length prompt) in
  let recommendations := [] in
  let recommendations :=
    if (200 <? estimatedTokens)%Z
    then push recommendations "Consider more specific constraints" else recommendations in
  let recommendations :=
    if includes prompt "comprehensive" || includes prompt "detailed"
    then push recommendations "Remove verbose qualifiers" else recommendations in
  let recommendations :=
    if (5 <? split_length "," prompt)%nat
    then push recommendations "Simplify constraint list" else recommendations in
  {| estimatedTokens := estimatedTokens;
     efficiency :=
       if (estimatedTokens <? 120)%Z then "excellent"
       else if (estimatedTokens <? 220)%Z then "good"
       else if (estimatedTokens <? 320)%Z then "fair"
       else "verbose";
     recommendations := recommendations |}.

(** [hints[key] || fallback] for a table of hints; the key of an undefined
    argument is the text 'undefined'. *)
Definition hint_or (hints : dict) (key : option value) (fallback : string) : result string :=
  match read hints (match key with Some v => to_string v | None => "undefined" end) with
  | Own hint => Ok hint
  | Inherited => Beyond
  | Missing => Ok fallback
  end.

Definition getFrameworkHints (framework : option value) : result string :=
  hint_or
    [ ("react", "Use React 18+ hooks, proper dependency arrays, and modern patterns");
      ("vue", "Use Vue 3 Composition API, reactive refs, and TypeScript");
      ("angular", "Use Angular 15+ standalone components and signals");
      ("svelte", "Use SvelteKit patterns and stores");
      ("next", "Use Next.js 14+ App Router and Server Components");
      ("express", "Use async/await, proper middleware, and error handling");
      ("fastify", "Use Fastify plugins and schemas for validation");
      ("nest", "Use NestJS decorators, guards, and dependency injection") ]
    framework "Use modern JavaScript/TypeScript patterns".

Definition getTypeHints (type : option value) : result string :=
  hint_or
    [ ("init", "Include project structure, configuration files, and setup instructions");
      ("feature", "Focus on modularity, testability, and integration with existing code");
      ("architecture", "Emphasize scalability, maintainability, and design patterns");
      ("testing", "Include test data setup, mocking strategies, and coverage reports");
      ("docs", "Use clear examples, API references, and troubleshooting guides");
      ("fix", "Include root cause analysis, prevention strategies, and monitoring") ]
    type "Focus on code quality and maintainability".

(** A variation.  The two hinted prompts and their token counts depend on a
    hint, and are [Beyond] when the hint read lands on an inherited member. *)
Record variation : Type := {
  name : string;
  prompt : result string;
  description : string;
  category : string;
  tokens : result Z }.

(** [generatePromptVariations(basePrompt, options = {})]. *)
Definition generatePromptVariations (basePrompt : string) (options : object)
    : list variation :=
  let cleanBasePrompt :=
    replace basePrompt " Ask user to clarify if necessary." EmptyString in
  let coreAction := before_first "." cleanBasePrompt in
  let frameworkHints := getFrameworkHints (get options "framework") in
  let typeHints := getTypeHints (get options "type") in
  [ {| name := "Ultra Minimal";
       prompt := Ok (coreAction ++ ". Code only, no explanations, no markdown formatting.");
       description := "Absolute minimum tokens for quick prototyping (~8-12 tokens)";
       category := "speed";
       tokens := Ok (ceil_quarter (String.length coreAction + 35)) |};
    {| name := "Production Ready";
       prompt :=
         hints <- frameworkHints ;;
         Ok (coreAction
             ++ ". Include: error handling, TypeScript types, comprehensive tests, clear documentation, and industry best practices. "
             ++ hints
             ++ ". Follow SOLID principles and add security considerations. Ask user to clarify if necessary.");
       description := "Enterprise-grade implementation with full coverage (~45-60 tokens)";
       category := "quality";
       tokens :=
         hints <- frameworkHints ;;
         Ok (ceil_quarter (String.length coreAction + String.length hints + 180)) |};
    {| name := "Learning Focused";
       prompt :=
         hints <- typeHints ;;
         Ok (coreAction
             ++ ". Provide: step-by-step explanation, inline comments explaining each concept, multiple implementation approaches, common pitfalls to avoid, and links to relevant documentation. "
             ++ hints
             ++ ". Make it educational and beginner-friendly. Ask user to clarify if necessary.");
       description := "Educational with explanations and alternatives (~55-70 tokens)";
       category := "educational";
       tokens :=
         hints <- typeHints ;;
         Ok (ceil_quarter (String.length coreAction + String.length hints + 220)) |};
    {| name := "Constraint Heavy";
       prompt :=
         Ok (cleanBasePrompt
             ++ ". Strict requirements: zero external dependencies, maximum 50 lines total, pure functions only, comprehensive error handling with custom error classes, extensive inline documentation, cross-platform compatibility, memory optimization, and performance benchmarks included. Follow functional programming paradigms exclusively. Ask user to clarify if necessary.");
       description := "Maximum constraints and technical requirements (~75-95 tokens)";
       category := "constrained";
       tokens := Ok (ceil_quarter (String.length cleanBasePrompt + 280)) |} ].

(** ** The browser: built-in functions the page calls *)

Module Dom.

(** Every character of [s] satisfies [P]. *)
Fixpoint all_chars (P : ascii -> bool) (s : string) : bool :=
  match s with
  | EmptyString => true
  | String c t => P c && all_chars P t
  end.

(** [s.trimStart()]. *)
Fixpoint trimStart (s : string) : string :=
  match s with
  | EmptyString => EmptyString
  | String c t => if is_space c then trimStart t else s
  end.

(** [s.trimEnd()]. *)
Fixpoint trimEnd (s : string) : string :=
  match s with
  | EmptyString => EmptyString
  | String c t =>
      match trimEnd t with
      | EmptyString => if is_space c then EmptyString else String c EmptyString
      | String d r => String c (String d r)
      end
  end.

(** [s.trim()]. *)
Definition trim (s : string) : string := trimEnd (trimStart s).

(** [s.substring(0, n)]. *)
Fixpoint substring (n : nat) (s : string) : string :=
  match n, s with
  | S n', String c t => String c (substring n' t)
  | _, _ => EmptyString
  end.

(** [s.replace(/[...]/g, '')] for a class of characters. *)
Fixpoint remove (class : ascii -> bool) (s : string) : string :=
  match s with
  | EmptyString => EmptyString
  | String c t => if class c then remove class t else String c (remove class t)
  end.

(** The serialization of a text node, as [innerHTML] returns it: the
    ampersand, the no-break space and the two angle brackets are written as
    character references. *)
Fixpoint innerHTML (textContent : string) : string :=
  match textContent with
  | EmptyString => EmptyString
  | String c t =>
      (if Ascii.eqb c "&" then "&amp;"
       else if Ascii.eqb c (ascii_of_nat 160) then "&nbsp;"
       else if Ascii.eqb c "<" then "&lt;"
       else if Ascii.eqb c ">" then "&gt;"
       else String c EmptyString) ++ innerHTML t
  end.

(** The base64 alphabet. *)
Definition alphabet : string :=
  "ABCDEFGHIJKLMNOPQRSTUVWXYZabcdefghijklmnopqrstuvwxyz0123456789+/".

(** The character of a six bit group. *)
Definition digit (n : N) : ascii :=
  match String.get (N.to_nat n) alphabet with
  | Some c => c
  | None => "="
  end.

(** The place of a character in a text. *)
Fixpoint index (c : ascii) (s : string) : option N :=
  match s with
  | EmptyString => None
  | String d t =>
      if Ascii.eqb c d then Some 0%N
      else match index c t with Some n => Some (N.succ n) | None => None end
  end.

(** The six bit group of a character of the alphabet. *)
Definition sextet (c : ascii) : option N := index c alphabet.

(** [btoa(s)] for code units below 256: three bytes give four characters;
    one or two bytes left over give two or three characters and padding. *)
Fixpoint btoa (s : string) : string :=
  match s with
  | EmptyString => EmptyString
  | String a EmptyString =>
      let n := (N_of_ascii a * 16)%N in
      String (digit (n / 64)) (String (digit (n mod 64)) "==")
  | String a (String b EmptyString) =>
      let n := ((N_of_ascii a * 256 + N_of_ascii b) * 4)%N in
      String (digit (n / 4096))
        (String (digit ((n / 64) mod 64)) (String (digit (n mod 64)) "="))
  | String a (String b (String c t)) =>
      let n := (N_of_ascii a * 65536 + N_of_ascii b * 256 + N_of_ascii c)%N in
      String (digit (n / 262144))
        (String (digit ((n / 4096) mod 64))
           (String (digit ((n / 64) mod 64))
              (String (digit (n mod 64)) (btoa t))))
  end.

(** The text as bytes, when every code unit is below 256; [data] is a text
    given by its code units. *)
Fixpoint binary (data : list N) : option string :=
  match data with
  | [] => Some EmptyString
  | u :: r =>
      if (u <? 256)%N then
        match binary r with
        | Some s => Some (String (ascii_of_N u) s)
        | None => None
        end
      else None
  end.

(** [btoa(data)] for any text: a code unit above 255 is an
    InvalidCharacterError ([None]). *)
Definition btoa_text (data : list N) : option string :=
  match binary data with
  | Some s => Some (btoa s)
  | None => None
  end.

(** ASCII white space: tab, line feed, form feed, carriage return, space. *)
Definition is_ascii_whitespace (c : ascii) : bool :=
  let n := nat_of_ascii c in
  ((n =? 9) || (n =? 10) || (n =? 12) || (n =? 13) || (n =? 32))%nat.

(** Up to [n] equals signs removed from the end. *)
Fixpoint drop_padding (n : nat) (data : string) : string :=
  match n with
  | O => data
  | S n' =>
      if ends_with data "=" then drop_padding n' (substring (String.length data - 1) data)
      else data
  end.

(** The six bit groups of a text over the alphabet. *)
Fixpoint sextets (data : string) : option (list N) :=
  match data with
  | EmptyString => Some []
  | String c t =>
      match sextet c, sextets t with
      | Some n, Some l => Some (n :: l)
      | _, _ => None
      end
  end.

(** The bytes of a list of six bit groups: four groups give three bytes; of
    three groups left over the last two bits are dropped, of two the last
    four. *)
Fixpoint bytes (l : list N) : string :=
  match l with
  | s1 :: s2 :: s3 :: s4 :: r =>
      let n := (s1 * 262144 + s2 * 4096 + s3 * 64 + s4)%N in
      String (ascii_of_N (n / 65536))
        (String (ascii_of_N ((n / 256) mod 256))
           (String (ascii_of_N (n mod 256)) (bytes r)))
  | [s1; s2; s3] =>
      let n := ((s1 * 4096 + s2 * 64 + s3) / 4)%N in
      String (ascii_of_N (n / 256)) (String (ascii_of_N (n mod 256)) EmptyString)
  | [s1; s2] =>
      let n := ((s1 * 64 + s2) / 16)%N in
      String (ascii_of_N n) EmptyString
  | _ => EmptyString
  end.

(** [atob(data)], the forgiving base64 decoding: white space is removed; of
    a length that is a multiple of four up to two equals signs are removed
    from the end; a length that leaves the remainder one, or a character
    outside the alphabet, is an error.  [None] is the InvalidCharacterError. *)
Definition atob (data : string) : option string :=
  let data := remove is_ascii_whitespace data in
  let data :=
    if (String.length data mod 4 =? 0)%nat then drop_padding 2 data else data in
  if (String.length data mod 4 =? 1)%nat then None
  else
    match sextets data with
    | Some l => Some (bytes l)
    | None => None
    end.

(** [s.split(sep)] for a one character separator. *)
Fixpoint split (sep : ascii) (s : string) : list string :=
  match s with
  | EmptyString => [EmptyString]
  | String c t =>
      if Ascii.eqb c sep then EmptyString :: split sep t
      else match split sep t with
           | first :: rest => String c first :: rest
           | [] => [String c EmptyString]
           end
  end.

(** The text after the first [sep], or nothing when there is none. *)
Fixpoint after_first (sep : ascii) (s : string) : string :=
  match s with
  | EmptyString => EmptyString
  | String c t => if Ascii.eqb c sep then t else after_first sep t
  end.

(** Every plus sign replaced by a space. *)
Fixpoint plus_to_space (s : string) : string :=
  match s with
  | EmptyString => EmptyString
  | String c t => String (if Ascii.eqb c "+" then " "%char else c) (plus_to_space t)
  end.

(** A character of a query this model follows: below 128 and no percent
    sign, so that percent decoding and UTF-8 decoding change nothing. *)
Definition literal (c : ascii) : bool :=
  (nat_of_ascii c <? 128)%nat && negb (Ascii.eqb c "%").

(** The name and the value of a sequence of the query: the texts before and
    after its first equals sign, plus signs read as spaces. *)
Definition pair_of (sequence : string) : string * string :=
  (plus_to_space (before_first "=" sequence), plus_to_space (after_first "=" sequence)).

(** [new URLSearchParams(search).get(name)]: the leading question mark is
    removed, the query is split at the ampersands, empty sequences are
    dropped and the value of the first pair with the name is returned;
    [None] is null.  A query with a percent sign or a byte above 127 is
    [Beyond]. *)
Definition URLSearchParams_get (search name : string) : result (option string) :=
  if all_chars literal search then
    let query :=
      match search with
      | String c t => if Ascii.eqb c "?" then t else search
      | EmptyString => search
      end in
    let sequences :=
      filter (fun s => negb (String.eqb s EmptyString)) (split "&" query) in
    Ok (match filter (fun nv => String.eqb (fst nv) name) (map pair_of sequences) with
        | nv :: _ => Some (snd nv)
        | [] => None
        end)
  else Beyond.

End Dom.

(** ** web/app.js: the page script and its second copy *)

Module App.

(** What updatePrompt hands to the display. *)
Record shown : Type := {
  promptContent : string;
  analytics : analysis;
  variationsContainer : list variation }.

(** [updatePrompt()] of web/app.js, from the collected options on: the
    prompt is built by the browser builder, optimized with the empty context
    [{}] and analyzed, and the variations are generated from the base
    prompt.  An exception of the builder leaves updatePrompt.  (The second
    copy catches it and reads the context from getProjectContext.) *)
Definition updatePrompt (currentScaffoldType : string) (allOptions : object)
    : result shown :=
  basePrompt <- Web.buildPrompt currentScaffoldType allOptions ;;
  let optimizedPrompt := optimizePrompt basePrompt allOptions (Some []) in
  let analysis := analyzeTokenEfficiency optimizedPrompt in
  Ok {| promptContent := optimizedPrompt;
        analytics := analysis;
        variationsContainer := generatePromptVariations basePrompt allOptions |}.

(** The character class of sanitizeInput: less-than, greater-than, double
    quote, single quote and backquote. *)
Definition dangerous (c : ascii) : bool :=
  let n := nat_of_ascii c in
  ((n =? 60) || (n =? 62) || (n =? 34) || (n =? 39) || (n =? 96))%nat.

(** [sanitizeInput(input, maxLength = 1000)] of the second copy; a missing
    maxLength is [None]. *)
Definition sanitizeInput (input : option value) (maxLength : option nat) : string :=
  let maxLength := match maxLength with Some n => n | None => 1000%nat end in
  match input with
  | Some (VStr input) =>
      if String.eqb input EmptyString then EmptyString
      else
        let sanitized := Dom.substring maxLength (Dom.trim input) in
        let sanitized := Dom.remove dangerous sanitized in
        sanitized
  | _ => EmptyString
  end.

(** [s.replace(/'/g, "\\'")]: a backslash before every single quote. *)
Fixpoint escape_quotes (s : string) : string :=
  match s with
  | EmptyString => EmptyString
  | String c t =>
      if Ascii.eqb c "'" then String "\" (String "'" (escape_quotes t))
      else String c (escape_quotes t)
  end.

(** [escapeHtml(text)]: the text is written into a div, read back as HTML
    and its single quotes are escaped; the second copy returns the empty
    text for anything that is not a non-empty text. *)
Definition escapeHtml (text : option value) : string :=
  match text with
  | Some (VStr text) =>
      if String.eqb text EmptyString then EmptyString
      else escape_quotes (Dom.innerHTML text)
  | _ => EmptyString
  end.

(** How shareConfiguration ends: the address is handed to the clipboard,
    or a notice says that the configuration is too large, or that the
    address could not be made. *)
Inductive share : Type :=
| Copied (shareUrl : string)
| TooLarge
| Failed.

(** [shareConfiguration()] of the second copy, from the JSON text of the
    configuration on, given by its code units: when btoa throws, the inner
    catch shows the failure notice and returns; an address longer than 2000
    characters is not copied either. *)
Definition shareConfiguration (origin pathname : string) (jsonString : list N) : share :=
  match Dom.btoa_text jsonString with
  | None => Failed
  | Some encoded =>
      let shareUrl := origin ++ pathname ++ "?config=" ++ encoded in
      if (2000 <? String.length shareUrl)%nat then TooLarge else Copied shareUrl
  end.

(** How handleUrlParams gets on with the search part of the address, up to
    the decoded text. *)
Inductive shared : Type :=
| NoConfig
| InvalidFormat
| Decoded (decodedString : string).

(** [handleUrlParams()] up to [decodedString = atob(configParam)]: without a
    config parameter, or with an empty one, nothing is done; when atob
    throws, the configuration is not loaded. *)
Definition handleUrlParams (search : string) : result shared :=
  configParam <- Dom.URLSearchParams_get search "config" ;;
  match configParam with
  | Some configParam =>
      if String.eqb configParam EmptyString then Ok NoConfig
      else
        match Dom.atob configParam with
        | Some decodedString => Ok (Decoded decodedString)
        | None => Ok InvalidFormat
        end
  | None => Ok NoConfig
  end.

End App.

(** ** bin/codeprompt.js *)

Module Cli.

(** [args.includes(flag)]. *)
Definition includes (args : list string) (flag : string) : bool :=
  existsb (String.eqb flag) args.

(** [args.indexOf(flag)] for a flag that occurs. *)
Fixpoint indexOf (args : list string) (flag : string) : nat :=
  match args with
  | [] => 0%nat
  | a :: rest => if String.eqb a flag then 0%nat else S (indexOf rest flag)
  end.

Definition shouldSave (args : list string) : bool := includes args "--save".

(** The format flag; [None] is [undefined]. *)
Definition format (args : list string) : option string :=
  if includes args "--format" then nth_error args (indexOf args "--format" + 1)
  else Some "txt".

Definition showVariations (args : list string) : bool := includes args "--variations".

Definition analyzeOnly (args : list string) : bool := includes args "--analyze".

Definition helpFlag (args : list string) : bool :=
  includes args "--help" || includes args "-h".

(** [format === 'md' ? 'md' : 'txt']. *)
Definition ext (format : option string) : string :=
  match format with
  | Some f => if String.eqb f "md" then "md" else "txt"
  | None => "txt"
  end.

(** What main computes once the questions are answered. *)
Record run : Type := {
  basePrompt : string;
  prompt : string;
  analysis : analysis;
  variations : option (list variation);
  options : object }.

(** [main()] from the answers on: buildPrompt is given the answers object
    itself, and optimizePrompt and generatePromptVariations read the same
    object afterwards; the variations are generated when the flag asks for
    them. *)
Definition main (showVariations : bool) (type : string) (options projectContext : object)
    : result run :=
  let (built, options) := Node.buildPrompt type options in
  basePrompt <- built ;;
  let prompt := optimizePrompt basePrompt options (Some projectContext) in
  let analysis := analyzeTokenEfficiency prompt in
  Ok {| basePrompt := basePrompt;
        prompt := prompt;
        analysis := analysis;
        variations :=
          if showVariations then Some (generatePromptVariations basePrompt options)
          else None;
        options := options |}.

End Cli.

(** ** Definitions for the statements and the proofs *)

(** The six task types. *)
Definition known_types : list string :=
  ["init"; "feature"; "architecture"; "testing"; "docs"; "fix"].

(** A prompt of 480 characters. *)
Definition prompt480 : string :=
  String.concat EmptyString (repeat "Add a test. " 40).

(** [c] does not occur in [s]. *)
Fixpoint lacks (c : ascii) (s : string) : bool :=
  match s with
  | EmptyString => true
  | String d t => negb (Ascii.eqb c d) && lacks c t
  end.

(** A phrase under substitution, as tokens: texts without an opening brace
    and holes [{{name}}]. *)
Inductive token : Type :=
| Text (s : string)
| Hole (name : string).

(** The text of a hole. *)
Definition hole (name : string) : string := "{{" ++ name ++ "}}".

Definition render_token (t : token) : string :=
  match t with
  | Text s => s
  | Hole n => hole n
  end.

Fixpoint render (ts : list token) : string :=
  match ts with
  | [] => EmptyString
  | t :: r => render_token t ++ render r
  end.

Definition wf_token (t : token) : bool :=
  match t with
  | Text s => lacks "{" s
  | Hole n => all_word n && negb (String.eqb n EmptyString)
  end.

(** Every hole [k] filled with [v]. *)
Definition fill_token (k v : string) (t : token) : token :=
  match t with
  | Text s => Text s
  | Hole n => if String.eqb n k then Text v else Hole n
  end.

Definition fill (k v : string) (ts : list token) : list token :=
  map (fill_token k v) ts.

(** The first hole [k] filled with [v]. *)
Fixpoint fill_first (k v : string) (ts : list token) : list token :=
  match ts with
  | [] => []
  | Hole n :: r => if String.eqb n k then Text v :: r else Hole n :: fill_first k v r
  | Text s :: r => Text s :: fill_first k v r
  end.

(** Every hole closed with [v]. *)
Definition close_token (v : string) (t : token) : token :=
  match t with
  | Text s => Text s
  | Hole _ => Text v
  end.

Definition close (v : string) (ts : list token) : list token :=
  map (close_token v) ts.

(** The tokens before and after the first hole [k]. *)
Fixpoint split_hole (k : string) (ts : list token) : option (list token * list token) :=
  match ts with
  | [] => None
  | t :: r =>
      if match t with Hole n => String.eqb n k | Text _ => false end
      then Some ([], r)
      else match split_hole k r with
           | Some (a, b) => Some (t :: a, b)
           | None => None
           end
  end.

(** The tokens before and after the first hole. *)
Fixpoint split_any (ts : list token) : option (list token * list token) :=
  match ts with
  | [] => None
  | Hole _ :: r => Some ([], r)
  | Text s :: r =>
      match split_any r with
      | Some (a, b) => Some (Text s :: a, b)
      | None => None
      end
  end.

Definition wf_tokens (ts : list token) : Prop := forallb wf_token ts = true.

(** A text that substitution copies as it is: no opening brace, no dollar. *)
Definition inert (s : string) : bool := lacks "{" s && lacks "$" s.

(** A text that is no member name of Object.prototype, lowered or not. *)
Definition plain (s : string) : bool :=
  negb (inherited s) && negb (inherited (toLowerCase s)).

Definition sound_value (v : value) : bool :=
  match v with
  | VStr s => inert s && plain s
  | VBool _ => true
  | VArr l => forallb (fun s => inert s && plain s) l && plain (String.concat "," l)
  end.

Definition sound (v : option value) : bool :=
  match v with
  | Some x => sound_value x
  | None => true
  end.

(** A text field: absent, false or a string. *)
Definition texty (v : option value) : bool :=
  match v with
  | None => true
  | Some (VStr _) => true
  | Some (VBool b) => negb b
  | Some (VArr _) => false
  end.

Fixpoint distinct (l : list string) : bool :=
  match l with
  | [] => true
  | k :: r => negb (existsb (String.eqb k) r) && distinct r
  end.

Definition all_sound (o : object) : bool := forallb (fun kv => sound_value (snd kv)) o.

(** The option sets the theorems range over.
    - Keys: distinct plain option names, so that every key compiles to a
      regular expression that matches its own placeholder and Object.keys
      lists the keys in creation order.
    - Values: no opening brace (it would read as the start of a
      placeholder), no dollar (String.replace expands [$&], [$`] and [$'] in
      a replacement text), and no member name of Object.prototype (a table
      read would find the member).
    - projectName, library and customLibrary: absent, false or text ([trim]
      and [toLowerCase] are called on them). *)
Definition well_formed (o : object) : bool :=
  forallb option_name (keys o) && distinct (keys o) && all_sound o
  && texty (get o "projectName") && texty (get o "library")
  && texty (get o "customLibrary").

(** A clause of the constraints list: not empty, no opening brace. *)
Definition clause_ok (c : string) : bool :=
  lacks "{" c && negb (String.eqb c EmptyString).

(** The six base phrases and the named init phrase as tokens. *)
Definition base_tokens (type : string) : list token :=
  if String.eqb type "init" then
    [Text "Create "; Hole "projectType"; Text " project with "; Hole "framework"]
  else if String.eqb type "feature" then
    [Text "Implement "; Hole "feature"; Text " as "; Hole "pattern"]
  else if String.eqb type "architecture" then
    [Text "Design "; Hole "feature"; Text " using "; Hole "pattern"; Text " pattern"]
  else if String.eqb type "testing" then
    [Text "Write "; Hole "testType"; Text " tests for "; Hole "module";
     Text " using "; Hole "library"]
  else if String.eqb type "docs" then
    [Text "Generate "; Hole "docType"; Text " documentation for "; Hole "projectName"]
  else if String.eqb type "fix" then
    [Text "Fix "; Hole "issue"; Text " in "; Hole "component"; Text " using "; Hole "approach"]
  else [].

Definition named_tokens : list token :=
  [Text "Create "; Hole "projectType"; Text " project called '"; Hole "projectName";
   Text "' with "; Hole "framework"].

(** The names of the holes of a phrase. *)
Fixpoint holes (ts : list token) : list string :=
  match ts with
  | [] => []
  | Text _ :: r => holes r
  | Hole n :: r => n :: holes r
  end.

(** A step that returns a list of proper clauses. *)
Definition collects (r : result (list string)) : Prop :=
  exists cs, r = Ok cs /\ forallb clause_ok cs = true.

(** [ts'] comes from [ts] by filling holes with texts. *)
Definition keeps (ts ts' : list token) : Prop :=
  wf_tokens ts'
  /\ (forall f, In (Text f) ts -> In (Text f) ts')
  /\ (holes ts = [] -> holes ts' = [])
  /\ (holes ts = [] -> ts' = ts).

(** A substitution method that acts on tokens. *)
Definition token_subst (subst : string -> string -> string -> string) : Prop :=
  forall (k v : string) (ts : list token),
    all_word k = true -> inert v = true -> wf_tokens ts ->
    exists ts', subst (render ts) (hole k) v = render ts' /\ keeps ts ts'.

(** A step that returns a phrase that keeps [ts]. *)
Definition rewrites (ts : list token) (r : result string) : Prop :=
  exists ts', r = Ok (render ts') /\ keeps ts ts'.

(** The browser substitution on tokens. *)
Definition Web_resolve (skip : string -> bool) (completeOptions : object)
    (ts : list token) : list token :=
  fold_left
    (fun ts key => if skip key then ts else fill key (Web.replacement completeOptions key) ts)
    (keys completeOptions) ts.

(** The command line substitution on tokens. *)
Definition Node_resolve (options : object) (ts : list token) : list token :=
  fold_left
    (fun ts key =>
       fill_first key (to_string (or_else (get options key) (VStr "default"))) ts)
    (keys options) ts.

(** The merged copy of the browser builder. *)
Definition Web_complete (options : object) : object :=
  Web.custom_framework (spread Web.fallbackValues options).

(** The first pass of the browser builder fills a phrase whose holes are
    all keys and none skipped with the merged values. *)
Definition fill_all (co : object) (ts : list token) : list token :=
  map (fun t => match t with
                | Text s => Text s
                | Hole n => Text (Web.replacement co n)
                end) ts.

(** The placeholders of the base phrase of a task type. *)
Definition placeholders (type : string) : list string := holes (base_tokens type).

(** How the result is put together from the phrase and the clauses. *)
Definition constraints_segment (phrase : string) (cs : list string) (out : string) : Prop :=
  (cs = [] -> out = phrase ++ " Ask user to clarify if necessary.")
  /\ (cs <> [] ->
      String.concat ", " cs <> EmptyString
      /\ out = phrase ++ ". Constraints: " ++ String.concat ", " cs ++ "."
                 ++ " Ask user to clarify if necessary.")
  /\ (includes phrase "Constraints:" = false ->
      (includes out "Constraints:" = true <-> cs <> [])
      /\ (cs = [] -> includes out "Constraints: ." = false)).

(** The number of occurrences of [c] in [s]. *)
Fixpoint count_char (c : ascii) (s : string) : nat :=
  match s with
  | EmptyString => 0%nat
  | String d t => if Ascii.eqb d c then S (count_char c t) else count_char c t
  end.

(** A list of directives behind its label, as optimizePrompt appends it. *)
Definition segment (label : string) (directives : list string) : string :=
  match directives with
  | [] => EmptyString
  | _ :: _ => label ++ String.concat ", " directives
  end.

(** The part of [btoa s] before the padding. *)
Fixpoint btoa_body (s : string) : string :=
  match s with
  | EmptyString => EmptyString
  | String a EmptyString =>
      let n := (N_of_ascii a * 16)%N in
      String (Dom.digit (n / 64)) (String (Dom.digit (n mod 64)) EmptyString)
  | String a (String b EmptyString) =>
      let n := ((N_of_ascii a * 256 + N_of_ascii b) * 4)%N in
      String (Dom.digit (n / 4096))
        (String (Dom.digit ((n / 64) mod 64)) (String (Dom.digit (n mod 64)) EmptyString))
  | String a (String b (String c t)) =>
      let n := (N_of_ascii a * 65536 + N_of_ascii b * 256 + N_of_ascii c)%N in
      String (Dom.digit (n / 262144))
        (String (Dom.digit ((n / 4096) mod 64))
           (String (Dom.digit ((n / 64) mod 64))
              (String (Dom.digit (n mod 64)) (btoa_body t))))
  end.

(** The padding of [btoa s]. *)
Fixpoint btoa_padding (s : string) : string :=
  match s with
  | EmptyString => EmptyString
  | String a EmptyString => "=="
  | String a (String b EmptyString) => "="
  | String a (String b (String c t)) => btoa_padding t
  end.

(** A character of the base64 alphabet. *)
Definition is_digit64 (c : ascii) : bool :=
  match Dom.sextet c with Some _ => true | None => false end.

(** What the decoding and the address need of a character of the body. *)
Definition good (c : ascii) : bool :=
  is_digit64 c && negb (Dom.is_ascii_whitespace c) && negb (Ascii.eqb c "=")
  && negb (Ascii.eqb c "&") && Dom.literal c.

(** A text between double quotes. *)
Definition quoted (s : string) : string := dquote ++ s ++ dquote.

(** Two configurations as JSON texts: the second has a plus sign in its
    base64 text. *)
Definition json_init : string :=
  "{" ++ quoted "type" ++ ":" ++ quoted "init" ++ "," ++ quoted "options" ++ ":{"
    ++ quoted "projectName" ++ ":" ++ quoted "my~app" ++ "}}".

Definition json_fix : string :=
  "{" ++ quoted "type" ++ ":" ++ quoted "fix" ++ "," ++ quoted "options" ++ ":{"
    ++ quoted "issue" ++ ":" ++ quoted "a~b" ++ "}}".

(** What the command line substitution writes for a key: the answer, or the
    word default for a falsy answer. *)
Definition Node_answer (options : object) (key : string) : string :=
  to_string (or_else (get options key) (VStr "default")).

(** A phrase with every placeholder answered. *)
Definition Node_fill_all (options : object) (ts : list token) : list token :=
  map (fun t => match t with
                | Text s => Text s
                | Hole n => Text (Node_answer options n)
                end) ts.

(** *** Verbatim values and loose phrases *)

(** The characters that make a replacement pattern of String.replace after
    a dollar: a dollar, an ampersand, a backquote, a quote. *)
Definition special (d : ascii) : bool :=
  Ascii.eqb d "$" || Ascii.eqb d "&" || Ascii.eqb d "`" || Ascii.eqb d "'".

(** No replacement pattern in [r]. *)
Fixpoint pattern_free (r : string) : bool :=
  match r with
  | EmptyString => true
  | String c t =>
      negb (Ascii.eqb c "$" && match t with String d _ => special d | EmptyString => false end)
      && pattern_free t
  end.

(** A text that a substitution copies as it is and that opens no
    placeholder: no replacement pattern, no two opening braces in a row. *)
Definition verbatim (s : string) : bool := negb (includes s "{{") && pattern_free s.

Definition verbatim_value (v : value) : bool :=
  match v with
  | VStr s => verbatim s
  | VBool _ => true
  | VArr l => forallb verbatim l
  end.

(** A value without two opening braces in a row. *)
Definition open_free_value (v : value) : bool :=
  match v with
  | VStr s => negb (includes s "{{")
  | VBool _ => true
  | VArr l => forallb (fun s => negb (includes s "{{")) l
  end.

(** Every value of [o] satisfies [P]. *)
Definition all_values (P : value -> bool) (o : object) : bool :=
  forallb (fun kv => P (snd kv)) o.

(** The keys whose values the browser builder substitutes for a placeholder
    of the phrase of a task type: the placeholders of the phrase, with
    customFramework, which is written over framework, and without the
    docType of docs, which the first pass leaves out. *)
Definition Web_substituted (type : string) : list string :=
  if String.eqb type "init"
  then ["projectType"; "framework"; "customFramework"; "projectName"]
  else if String.eqb type "feature" then ["feature"; "pattern"]
  else if String.eqb type "architecture" then ["feature"; "pattern"]
  else if String.eqb type "testing" then ["testType"; "module"; "library"]
  else if String.eqb type "docs" then ["projectName"]
  else if String.eqb type "fix" then ["issue"; "component"; "approach"]
  else [].

(** The same for the command line builder, which leaves no key out. *)
Definition Node_substituted (type : string) : list string :=
  if String.eqb type "docs" then ["docType"; "projectName"] else Web_substituted type.

(** The keys whose values both builders copy into a clause of the
    constraints. *)
Definition quoted_keys (type : string) : list string :=
  if String.eqb type "init" then ["packageManager"]
  else if String.eqb type "testing" then ["library"; "customLibrary"; "coverage"]
  else if String.eqb type "docs" then ["diagramTool"; "customDiagramTool"; "diagramTypes"]
  else if String.eqb type "fix" then ["errorMessage"]
  else [].

(** The option sets whose values are copied as they are: the values of the
    [substituted] keys are verbatim, those of the [quoted] keys have no two
    opening braces in a row. *)
Definition copies (substituted quoted : list string) (o : object) : bool :=
  forallb
    (fun kv =>
       (negb (existsb (String.eqb (fst kv)) substituted) || verbatim_value (snd kv))
       && (negb (existsb (String.eqb (fst kv)) quoted) || open_free_value (snd kv)))
    o.



(** Every hole [n] filled with [f n]. *)
Definition fill_with (f : string -> string) (ts : list token) : list token :=
  map (fun t => match t with
                | Text s => Text s
                | Hole n => Text (f n)
                end) ts.

(** A text that opens with a character other than the opening brace, or
    is empty: it may follow a text that ends with an opening brace. *)
Definition closed_off (t : string) : bool :=
  match t with
  | EmptyString => true
  | String c _ => negb (Ascii.eqb "{" c)
  end.

(** A clause of the constraints list: not empty and, when [strict], without
    two opening braces in a row. *)
Definition clause_fine (strict : bool) (c : string) : bool :=
  negb (String.eqb c EmptyString) && (negb strict || negb (includes c "{{")).

(** The values a strict reading asks for: those without two opening braces
    in a row. *)
Definition value_fine (strict : bool) (v : value) : bool :=
  negb strict || open_free_value v.

Definition read_fine (strict : bool) (v : option value) : bool :=
  match v with
  | Some x => value_fine strict x
  | None => true
  end.

(** A name of the diagram clause: when [strict], without two opening braces
    in a row. *)
Definition name_fine (strict : bool) (n : string) : bool :=
  negb strict || negb (includes n "{{").


(** The phrase the browser builder starts from: the named phrase of init
    when the caller gave a project name that is not blank, the base phrase
    otherwise. *)
Definition Web_tokens (type : string) (options : object) : list token :=
  if String.eqb type "init" then
    match get options "projectName" with
    | Some (VStr userProjectName) =>
        if negb (blank userProjectName) then named_tokens else base_tokens type
    | _ => base_tokens type
    end
  else base_tokens type.

(** The dictionary of the docs phrase in the browser builder. *)
Definition Web_docTypes : dict :=
  match assoc Web.PROMPT_TEMPLATES "docs" with
  | Some template =>
      match member template "types" with
      | Some types => types
      | None => []
      end
  | None => []
  end.

(** The text the browser builder writes for a placeholder: the merged
    value, else the fallback, else 'default'; for the docType of docs, which
    the first pass leaves to the switch, the phrase of the dictionary, and
    the word of the final cleanup when the dictionary has none. *)
Definition Web_filler (type : string) (completeOptions : object) (n : string) : string :=
  if String.eqb type "docs" && String.eqb n "docType" then
    match get completeOptions "docType" with
    | Some docType =>
        if truthy (Some docType) then
          match assoc Web_docTypes (to_string docType) with
          | Some phrase => phrase
          | None => "component"
          end
        else "component"
    | None => "component"
    end
  else Web.replacement completeOptions n.

(** A value that names no member of Object.prototype: as a text and, for an
    array, element by element. *)
Definition plain_value (v : value) : bool :=
  match v with
  | VStr s => plain s
  | VBool _ => true
  | VArr l => forallb plain l && plain (String.concat "," l)
  end.

Definition plain_read (v : option value) : bool :=
  match v with
  | Some x => plain_value x
  | None => true
  end.

(** The keys whose values a builder looks up in a table of phrases, by
    task type: those of the common clauses and those of the switch. *)
Definition Web_looked_up (type : string) : list string :=
  ["outputFormat"; "complexity"; "codeStyle"; "fileStructure"; "dependencies"]
  ++ (if String.eqb type "init" then ["structure"]
      else if String.eqb type "feature" then ["pattern"; "scope"]
      else if String.eqb type "architecture" then ["pattern"]
      else if String.eqb type "testing" then ["testType"]
      else if String.eqb type "docs" then ["docType"; "format"; "detailLevel"; "diagramTypes"]
      else if String.eqb type "fix" then ["approach"; "priority"]
      else []).

(** The command line builder also looks up the framework of init, which may
    be the custom one, the library of testing and the category of fix. *)
Definition Node_looked_up (type : string) : list string :=
  Web_looked_up type
  ++ (if String.eqb type "init" then ["framework"; "customFramework"]
      else if String.eqb type "testing" then ["library"; "customLibrary"]
      else if String.eqb type "fix" then ["category"]
      else []).

(** The keys on whose values a builder calls a method of texts: [trim] on
    the projectName of init, and in the command line builder [toLowerCase]
    on the library of testing. *)
Definition Web_texts (type : string) : list string :=
  if String.eqb type "init" then ["projectName"] else [].

Definition Node_texts (type : string) : list string :=
  if String.eqb type "init" then ["projectName"]
  else if String.eqb type "testing" then ["library"; "customLibrary"]
  else [].

(** The option sets on which a builder returns a prompt: the keys are plain
    option names, the values it looks up name no member of Object.prototype,
    and the values it calls a method of texts on are false or text. *)
Definition followed (looked_up texts : list string) (o : object) : bool :=
  forallb option_name (keys o)
  && forallb (fun kv =>
       (negb (existsb (String.eqb (fst kv)) looked_up) || plain_value (snd kv))
       && (negb (existsb (String.eqb (fst kv)) texts) || texty (Some (snd kv)))) o.

(** A call that returns. *)
Definition returns {A : Type} (r : result A) : Prop := exists a, r = Ok a.




(** A value without an opening brace. *)
Definition braceless_value (v : value) : bool :=
  match v with
  | VStr s => lacks "{" s
  | VBool _ => true
  | VArr l => forallb (lacks "{") l
  end.

(** The option sets whose substituted values cannot open a placeholder,
    whatever replacement patterns they hold: the values of the [substituted]
    keys have no opening brace, those of the [quoted] keys no two in a
    row. *)
Definition expands (substituted quoted : list string) (o : object) : bool :=
  forallb
    (fun kv =>
       (negb (existsb (String.eqb (fst kv)) substituted) || braceless_value (snd kv))
       && (negb (existsb (String.eqb (fst kv)) quoted) || open_free_value (snd kv)))
    o.


(** ** Strings *)

Lemma append_empty (s : string) : s ++ EmptyString = s.
Proof. induction s as [|c s IH]; simpl; [ reflexivity | now rewrite IH ]. Qed.

Lemma append_append (a b c : string) : (a ++ b) ++ c = a ++ (b ++ c).
Proof. induction a as [|x a IH]; simpl; [ reflexivity | now rewrite IH ]. Qed.

Lemma strip_append (p r : string) : strip p (p ++ r) = Some r.
Proof.
  induction p as [|c p IH]; simpl; [ now destruct r | ].
  now rewrite Ascii.eqb_refl.
Qed.

Lemma strip_cons (a b : ascii) (p s : string) :
  strip (String a p) (String b s) = if Ascii.eqb a b then strip p s else None.
Proof. reflexivity. Qed.

Lemma strip_sound (p s r : string) : strip p s = Some r -> s = p ++ r.
Proof.
  revert s. induction p as [|c p IH]; intros s H.
  - destruct s; simpl in H; now inversion H.
  - destruct s as [|d s]; simpl in H; [ discriminate | ].
    destruct (Ascii.eqb_spec c d) as [->|]; [ | discriminate ].
    simpl. f_equal. now apply IH.
Qed.

Lemma find_sound (p s a b : string) : find p s = Some (a, b) -> s = a ++ p ++ b.
Proof.
  revert a b. induction s as [|c s IH]; intros a b H; simpl in H.
  - destruct (strip p EmptyString) as [r|] eqn:E; [ | discriminate ].
    inversion H; subst. simpl. now apply strip_sound.
  - destruct (strip p (String c s)) as [r|] eqn:E.
    + inversion H; subst. simpl. now apply strip_sound.
    + destruct (find p s) as [[a' b']|] eqn:F; [ | discriminate ].
      inversion H; subst. simpl. f_equal. now apply IH.
Qed.

Lemma find_unfold (p s : string) :
  find p s =
  match strip p s with
  | Some rest => Some (EmptyString, rest)
  | None =>
      match s with
      | EmptyString => None
      | String c t =>
          match find p t with
          | Some (a, b) => Some (String c a, b)
          | None => None
          end
      end
  end.
Proof. destruct s; reflexivity. Qed.

Lemma includes_append (a p b : string) : includes (a ++ p ++ b) p = true.
Proof.
  unfold includes. induction a as [|c a IH].
  - simpl. rewrite find_unfold, strip_append. reflexivity.
  - change (String c a ++ p ++ b) with (String c (a ++ p ++ b)).
    rewrite find_unfold.
    destruct (strip p (String c (a ++ p ++ b))); [ reflexivity | ].
    destruct (find p (a ++ p ++ b)) as [[x y]|]; [ reflexivity | discriminate ].
Qed.

Lemma ends_with_append (a p : string) : ends_with (a ++ p) p = true.
Proof.
  induction a as [|c a IH]; simpl.
  - destruct p; simpl; [ reflexivity | ].
    now rewrite Ascii.eqb_refl, String.eqb_refl.
  - rewrite IH. apply orb_true_r.
Qed.

Lemma lacks_cons (c d : ascii) (t : string) :
  lacks c (String d t) = negb (Ascii.eqb c d) && lacks c t.
Proof. reflexivity. Qed.

Lemma lacks_append (c : ascii) (a b : string) :
  lacks c (a ++ b) = lacks c a && lacks c b.
Proof.
  induction a as [|d a IH]; simpl; [ reflexivity | ].
  rewrite IH. now rewrite andb_assoc.
Qed.

(** An occurrence of [p] in [a ++ b] that starts in [a] ends in [a] when the
    first character of [b] is not in [p]. *)
Lemma strip_inside (p a b : string) (c : ascii) :
  lacks c p = true ->
  strip p (a ++ String c b) <> None -> strip p a <> None.
Proof.
  revert a. induction p as [|x p IH]; intros a Hc H.
  - now destruct a.
  - simpl in Hc. apply andb_true_iff in Hc as [Hx Hp].
    destruct a as [|y a]; simpl in *.
    + rewrite Ascii.eqb_sym in Hx. destruct (Ascii.eqb x c); [ discriminate | exact H ].
    + destruct (Ascii.eqb x y); [ now apply IH | exact H ].
Qed.

Lemma includes_unfold (s p : string) :
  includes s p =
  match strip p s with
  | Some _ => true
  | None => match s with EmptyString => false | String _ t => includes t p end
  end.
Proof.
  unfold includes. rewrite find_unfold.
  destruct (strip p s); [ reflexivity | ].
  destruct s as [|c t]; [ reflexivity | ].
  now destruct (find p t) as [[? ?]|].
Qed.

Lemma includes_boundary (p a b : string) (c : ascii) :
  lacks c p = true ->
  includes a p = false -> includes (String c b) p = false ->
  includes (a ++ String c b) p = false.
Proof.
  intros Hc Ha Hb. induction a as [|y a IH]; [ exact Hb | ].
  rewrite includes_unfold in Ha.
  change (String y a ++ String c b) with (String y (a ++ String c b)).
  rewrite includes_unfold.
  destruct (strip p (String y a)) eqn:E; [ discriminate | ].
  destruct (strip p (String y (a ++ String c b))) eqn:F.
  - exfalso. apply (strip_inside p (String y a) b c Hc); [ | exact E ].
    simpl. simpl in F. rewrite F. discriminate.
  - now apply IH.
Qed.

(** A text that includes [p ++ q] includes [p]. *)
Lemma strip_prefix (p q s : string) :
  strip (p ++ q) s <> None -> strip p s <> None.
Proof.
  revert s. induction p as [|x p IH]; intros s H; simpl in *.
  - now destruct s.
  - destruct s as [|y s]; [ exact H | ].
    destruct (Ascii.eqb x y); [ now apply IH | exact H ].
Qed.

Lemma includes_prefix (p q s : string) :
  includes s p = false -> includes s (p ++ q) = false.
Proof.
  induction s as [|c s IH]; intros H; rewrite includes_unfold in H; rewrite includes_unfold.
  - destruct (strip p EmptyString) eqn:E; [ discriminate | ].
    destruct (strip (p ++ q) EmptyString) eqn:F; [ | reflexivity ].
    exfalso. apply (strip_prefix p q EmptyString); [ rewrite F; discriminate | exact E ].
  - destruct (strip p (String c s)) eqn:E; [ discriminate | ].
    destruct (strip (p ++ q) (String c s)) eqn:F.
    + exfalso. apply (strip_prefix p q (String c s)); [ rewrite F; discriminate | exact E ].
    + now apply IH.
Qed.

(** *** The fuel of the global replacements

    Every match takes at least one character, so the length of the text is
    fuel enough: more fuel gives the same result. *)

Lemma length_append (a b : string) :
  String.length (a ++ b) = (String.length a + String.length b)%nat.
Proof. induction a as [|c a IH]; simpl; [ reflexivity | now rewrite IH ]. Qed.

Lemma find_shorter (p s a b : string) :
  p <> EmptyString -> find p s = Some (a, b) ->
  (String.length b < String.length s)%nat.
Proof.
  intros Hp H. apply find_sound in H. subst s.
  rewrite !length_append. destruct p; [ now elim Hp | simpl; lia ].
Qed.

Lemma find_empty (p : string) : p <> EmptyString -> find p EmptyString = None.
Proof. destruct p; [ now intros H | reflexivity ]. Qed.

Lemma replace_all_from_fuel (p r : string) :
  p <> EmptyString ->
  forall (f1 f2 : nat) (before s : string),
    (String.length s <= f1)%nat -> (String.length s <= f2)%nat ->
    replace_all_from f1 before s p r = replace_all_from f2 before s p r.
Proof.
  intros Hp. induction f1 as [|f1 IH]; intros f2 before s H1 H2.
  - destruct s; [ | simpl in H1; lia ].
    destruct f2; cbn [replace_all_from]; [ reflexivity | ].
    now rewrite (find_empty p Hp).
  - destruct f2 as [|f2].
    + destruct s; [ | simpl in H2; lia ].
      cbn [replace_all_from]. now rewrite (find_empty p Hp).
    + cbn [replace_all_from].
      destruct (find p s) as [[a b]|] eqn:E; [ | reflexivity ].
      pose proof (find_shorter p s a b Hp E) as Hb.
      rewrite (IH f2 (before ++ a ++ p) b); [ reflexivity | lia | lia ].
Qed.

Lemma span_word_sound (s w r : string) : span_word s = (w, r) -> s = w ++ r.
Proof.
  revert w r. induction s as [|c s IH]; intros w r H; cbn [span_word] in H.
  - now inversion H.
  - destruct (is_word c).
    + destruct (span_word s) as [w' r'] eqn:E. inversion H; subst.
      simpl. f_equal. now apply IH.
    + now inversion H.
Qed.

Lemma match_placeholder_shorter (s rest : string) :
  match_placeholder s = Some rest -> (String.length rest < String.length s)%nat.
Proof.
  unfold match_placeholder. intros H.
  destruct (strip "{{" s) as [s1|] eqn:E1; [ | discriminate ].
  destruct (span_word s1) as [w s2] eqn:E2.
  destruct w as [|c w]; [ discriminate | ].
  apply strip_sound in E1, H. apply span_word_sound in E2. subst s s1 s2.
  rewrite !length_append. simpl. lia.
Qed.

Lemma find_placeholder_shorter (s a b : string) :
  find_placeholder s = Some (a, b) -> (String.length b < String.length s)%nat.
Proof.
  revert a. induction s as [|c s IH]; intros a H; cbn [find_placeholder] in H.
  - destruct (match_placeholder EmptyString) eqn:E; [ | discriminate ].
    inversion H; subst. now apply match_placeholder_shorter in E.
  - destruct (match_placeholder (String c s)) eqn:E.
    + inversion H; subst. now apply match_placeholder_shorter in E.
    + destruct (find_placeholder s) as [[a' b']|] eqn:F; [ | discriminate ].
      inversion H; subst. specialize (IH a' eq_refl). simpl. lia.
Qed.

Lemma replace_placeholders_from_fuel (r : string) :
  forall (f1 f2 : nat) (s : string),
    (String.length s <= f1)%nat -> (String.length s <= f2)%nat ->
    replace_placeholders_from f1 s r = replace_placeholders_from f2 s r.
Proof.
  induction f1 as [|f1 IH]; intros f2 s H1 H2.
  - destruct s; [ | simpl in H1; lia ].
    destruct f2; reflexivity.
  - destruct f2 as [|f2].
    + destruct s; [ reflexivity | simpl in H2; lia ].
    + cbn [replace_placeholders_from].
      destruct (find_placeholder s) as [[a b]|] eqn:E; [ | reflexivity ].
      pose proof (find_placeholder_shorter s a b E) as Hb.
      rewrite (IH f2 b); [ reflexivity | lia | lia ].
Qed.

(** ** Templates as tokens *)

Lemma render_app (a b : list token) : render (a ++ b)%list = render a ++ render b.
Proof.
  induction a as [|t a IH]; simpl; [ reflexivity | ].
  now rewrite IH, append_append.
Qed.

Lemma word_not_brace (c : ascii) :
  is_word c = true -> Ascii.eqb "{" c = false /\ Ascii.eqb "}" c = false.
Proof.
  intros H. split.
  - destruct (Ascii.eqb_spec "{" c) as [<-|]; [ discriminate H | reflexivity ].
  - destruct (Ascii.eqb_spec "}" c) as [<-|]; [ discriminate H | reflexivity ].
Qed.

Lemma all_word_lacks (n : string) :
  all_word n = true -> lacks "{" n = true /\ lacks "}" n = true.
Proof.
  induction n as [|c n IH]; [ now split | ].
  intros H. simpl in H. apply andb_true_iff in H as [Hc Hn].
  rewrite !lacks_cons.
  destruct (word_not_brace c Hc) as [-> ->]. now apply IH.
Qed.

(** No occurrence of a pattern that opens with a brace starts in a text
    without one. *)
Lemma find_text (q s rest : string) :
  lacks "{" s = true ->
  find (String "{" q) (s ++ rest) =
  match find (String "{" q) rest with
  | Some (a, b) => Some (s ++ a, b)
  | None => None
  end.
Proof.
  intros H. induction s as [|c s IH].
  - simpl. now destruct (find (String "{" q) rest) as [[a b]|].
  - rewrite lacks_cons in H. apply andb_true_iff in H as [Hc Hs].
    change (String c s ++ rest) with (String c (s ++ rest)).
    rewrite find_unfold, strip_cons.
    apply negb_true_iff in Hc. rewrite Hc.
    rewrite (IH Hs).
    now destruct (find (String "{" q) rest) as [[a b]|].
Qed.

Lemma strip_hole_name (k n rest : string) :
  all_word k = true -> all_word n = true ->
  strip (k ++ "}}") (n ++ "}}" ++ rest) <> None -> k = n.
Proof.
  revert n. induction k as [|c k IH]; intros n Hk Hn H.
  - destruct n as [|d n]; [ reflexivity | ].
    simpl in Hn. apply andb_true_iff in Hn as [Hd _].
    destruct (word_not_brace d Hd) as [_ E].
    change (strip (String "}" "}") (String d (n ++ "}}" ++ rest)) <> None) in H.
    rewrite strip_cons, E in H. now elim H.
  - simpl in Hk. apply andb_true_iff in Hk as [Hc Hk].
    destruct n as [|d n].
    + destruct (word_not_brace c Hc) as [_ E].
      change (strip (String c (k ++ "}}")) (String "}" (String "}" rest)) <> None) in H.
      rewrite strip_cons, Ascii.eqb_sym, E in H. now elim H.
    + simpl in Hn. apply andb_true_iff in Hn as [Hd Hn].
      change (strip (String c (k ++ "}}")) (String d (n ++ "}}" ++ rest)) <> None) in H.
      rewrite strip_cons in H.
      destruct (Ascii.eqb_spec c d) as [->|]; [ | now elim H ].
      f_equal. now apply IH.
Qed.

Lemma find_hole_same (k rest : string) :
  find (hole k) (hole k ++ rest) = Some (EmptyString, rest).
Proof. now rewrite find_unfold, strip_append. Qed.

Lemma find_hole_other (k n rest : string) :
  all_word k = true -> all_word n = true -> n <> k ->
  find (hole k) (hole n ++ rest) =
  match find (hole k) rest with
  | Some (a, b) => Some (hole n ++ a, b)
  | None => None
  end.
Proof.
  intros Hk Hn Hne.
  assert (Hm : lacks "{" (n ++ "}}") = true).
  { rewrite lacks_append. destruct (all_word_lacks n Hn) as [-> _]. reflexivity. }
  assert (E : hole n ++ rest = String "{" (String "{" ((n ++ "}}") ++ rest))).
  { unfold hole. simpl. now rewrite append_append. }
  rewrite E. change (hole k) with (String "{" (String "{" (k ++ "}}"))).
  rewrite find_unfold, !strip_cons, !Ascii.eqb_refl.
  destruct (strip (k ++ "}}") ((n ++ "}}") ++ rest)) eqn:F.
  { elim Hne. symmetry. apply (strip_hole_name k n rest Hk Hn).
    rewrite append_append in F. rewrite F. discriminate. }
  rewrite find_unfold.
  assert (G : strip (String "{" (String "{" (k ++ "}}"))) (String "{" ((n ++ "}}") ++ rest)) = None).
  { rewrite strip_cons, Ascii.eqb_refl.
    destruct n as [|d n]; [ reflexivity | ].
    simpl in Hn. apply andb_true_iff in Hn as [Hd _].
    destruct (word_not_brace d Hd) as [E1 _].
    change ((String d n ++ "}}") ++ rest) with (String d ((n ++ "}}") ++ rest)).
    now rewrite strip_cons, E1. }
  rewrite G.
  rewrite (find_text (String "{" (k ++ "}}")) (n ++ "}}") rest Hm).
  destruct (find (String "{" (String "{" (k ++ "}}"))) rest) as [[a b]|]; [ | reflexivity ].
  unfold hole. simpl. now rewrite !append_append.
Qed.

Lemma find_render (k : string) (ts : list token) :
  all_word k = true -> wf_tokens ts ->
  find (hole k) (render ts) =
  match split_hole k ts with
  | Some (a, b) => Some (render a, render b)
  | None => None
  end.
Proof.
  intros Hk. unfold wf_tokens. induction ts as [|t ts IH]; intros Hwf.
  - reflexivity.
  - simpl in Hwf. apply andb_true_iff in Hwf as [Ht Hts]. specialize (IH Hts).
    destruct t as [s|n]; cbn [render render_token split_hole].
    + change (hole k) with (String "{" (String "{" (k ++ "}}"))) in *.
      rewrite (find_text _ s (render ts) Ht), IH.
      now destruct (split_hole k ts) as [[a b]|].
    + destruct (String.eqb_spec n k) as [->|Hne].
      * apply find_hole_same.
      * cbn [wf_token] in Ht. apply andb_true_iff in Ht as [Hn _].
        rewrite (find_hole_other k n (render ts) Hk Hn Hne), IH.
        now destruct (split_hole k ts) as [[a b]|].
Qed.

Lemma GetSubstitution_plain (matched before after r : string) :
  lacks "$" r = true -> GetSubstitution matched before after r = r.
Proof.
  induction r as [|c r IH]; intros H; [ reflexivity | ].
  rewrite lacks_cons in H. apply andb_true_iff in H as [Hc Hr].
  apply negb_true_iff in Hc. rewrite Ascii.eqb_sym in Hc.
  cbn [GetSubstitution]. rewrite Hc. now rewrite (IH Hr).
Qed.

Lemma split_hole_fill_first (k v : string) (ts : list token) :
  fill_first k v ts =
  match split_hole k ts with
  | Some (a, b) => (a ++ Text v :: b)%list
  | None => ts
  end.
Proof.
  induction ts as [|t ts IH]; [ reflexivity | ].
  destruct t as [s|n]; cbn [fill_first split_hole].
  - rewrite IH. now destruct (split_hole k ts) as [[a b]|].
  - destruct (String.eqb n k); [ reflexivity | ].
    rewrite IH. now destruct (split_hole k ts) as [[a b]|].
Qed.

Lemma split_hole_fill (k v : string) (ts : list token) :
  fill k v ts =
  match split_hole k ts with
  | Some (a, b) => (a ++ Text v :: fill k v b)%list
  | None => ts
  end.
Proof.
  induction ts as [|t ts IH]; [ reflexivity | ].
  destruct t as [s|n]; cbn [fill map fill_token split_hole].
  - fold (fill k v ts). rewrite IH. now destruct (split_hole k ts) as [[a b]|].
  - fold (fill k v ts). destruct (String.eqb n k); [ reflexivity | ].
    rewrite IH. now destruct (split_hole k ts) as [[a b]|].
Qed.

Lemma split_hole_wf (k : string) (ts a b : list token) :
  split_hole k ts = Some (a, b) -> wf_tokens ts -> wf_tokens b.
Proof.
  unfold wf_tokens. revert a. induction ts as [|t ts IH]; intros a H Hwf; [ discriminate | ].
  simpl in Hwf. apply andb_true_iff in Hwf as [_ Hts].
  cbn [split_hole] in H.
  destruct (match t with Hole n => String.eqb n k | Text _ => false end).
  - now inversion H; subst.
  - destruct (split_hole k ts) as [[a' b']|] eqn:E; [ | discriminate ].
    inversion H; subst. now apply (IH a').
Qed.

Lemma split_hole_length (k : string) (ts a b : list token) :
  split_hole k ts = Some (a, b) ->
  (String.length (render b) < String.length (render ts))%nat.
Proof.
  revert a. induction ts as [|t ts IH]; intros a H; [ discriminate | ].
  cbn [split_hole] in H. cbn [render]. rewrite length_append.
  destruct t as [s|n].
  - destruct (split_hole k ts) as [[a' b']|] eqn:E; [ | discriminate ].
    inversion H; subst. specialize (IH a' eq_refl). lia.
  - destruct (String.eqb n k).
    + inversion H; subst. cbn [render_token]. unfold hole. simpl. lia.
    + destruct (split_hole k ts) as [[a' b']|] eqn:E; [ | discriminate ].
      inversion H; subst. specialize (IH a' eq_refl). lia.
Qed.

(** A string substitution of a hole is the filling of its first token. *)
Lemma replace_render (k v : string) (ts : list token) :
  all_word k = true -> lacks "$" v = true -> wf_tokens ts ->
  replace (render ts) (hole k) v = render (fill_first k v ts).
Proof.
  intros Hk Hv Hwf. unfold replace.
  rewrite (find_render k ts Hk Hwf), split_hole_fill_first.
  destruct (split_hole k ts) as [[a b]|]; [ | reflexivity ].
  rewrite (GetSubstitution_plain _ _ _ _ Hv), render_app. reflexivity.
Qed.

Lemma replace_all_from_render (k v : string) (fuel : nat) :
  all_word k = true -> lacks "$" v = true ->
  forall (ts : list token) (before : string),
    wf_tokens ts -> (String.length (render ts) <= fuel)%nat ->
    replace_all_from fuel before (render ts) (hole k) v = render (fill k v ts).
Proof.
  intros Hk Hv. induction fuel as [|fuel IH]; intros ts before Hwf Hlen.
  - cbn [replace_all_from]. rewrite split_hole_fill.
    destruct (split_hole k ts) as [[a b]|] eqn:E; [ | reflexivity ].
    apply split_hole_length in E. lia.
  - cbn [replace_all_from].
    rewrite (find_render k ts Hk Hwf), split_hole_fill.
    destruct (split_hole k ts) as [[a b]|] eqn:E; [ | reflexivity ].
    rewrite (GetSubstitution_plain _ _ _ _ Hv).
    rewrite (IH b _ (split_hole_wf k ts a b E Hwf)).
    + now rewrite render_app.
    + apply split_hole_length in E. lia.
Qed.

(** A global substitution of a hole is the filling of all its tokens. *)
Lemma replace_all_render (k v : string) (ts : list token) :
  all_word k = true -> lacks "$" v = true -> wf_tokens ts ->
  replace_all (render ts) (hole k) v = render (fill k v ts).
Proof.
  intros Hk Hv Hwf. unfold replace_all.
  now apply replace_all_from_render.
Qed.

Lemma fill_wf (k v : string) (ts : list token) :
  lacks "{" v = true -> wf_tokens ts -> wf_tokens (fill k v ts).
Proof.
  unfold wf_tokens. intros Hv. induction ts as [|t ts IH]; intros H; [ reflexivity | ].
  simpl in H. apply andb_true_iff in H as [Ht Hts].
  cbn [fill map forallb]. fold (fill k v ts). rewrite (IH Hts), andb_true_r.
  destruct t as [s|n]; [ exact Ht | ].
  cbn [fill_token]. destruct (String.eqb n k); [ exact Hv | exact Ht ].
Qed.

Lemma fill_first_wf (k v : string) (ts : list token) :
  lacks "{" v = true -> wf_tokens ts -> wf_tokens (fill_first k v ts).
Proof.
  unfold wf_tokens. intros Hv. induction ts as [|t ts IH]; intros H; [ reflexivity | ].
  simpl in H. apply andb_true_iff in H as [Ht Hts].
  destruct t as [s|n]; cbn [fill_first].
  - cbn [forallb]. now rewrite (IH Hts), Ht.
  - destruct (String.eqb n k); cbn [forallb wf_token].
    + now rewrite Hts, Hv.
    + cbn [wf_token] in Ht. now rewrite (IH Hts), Ht.
Qed.

(** *** The final cleanup *)

Lemma find_placeholder_unfold (s : string) :
  find_placeholder s =
  match match_placeholder s with
  | Some rest => Some (EmptyString, rest)
  | None =>
      match s with
      | EmptyString => None
      | String c t =>
          match find_placeholder t with
          | Some (a, b) => Some (String c a, b)
          | None => None
          end
      end
  end.
Proof. destruct s; reflexivity. Qed.

Lemma find_placeholder_text (s rest : string) :
  lacks "{" s = true ->
  find_placeholder (s ++ rest) =
  match find_placeholder rest with
  | Some (a, b) => Some (s ++ a, b)
  | None => None
  end.
Proof.
  intros H. induction s as [|c s IH].
  - simpl. now destruct (find_placeholder rest) as [[a b]|].
  - rewrite lacks_cons in H. apply andb_true_iff in H as [Hc Hs].
    change (String c s ++ rest) with (String c (s ++ rest)).
    rewrite find_placeholder_unfold.
    unfold match_placeholder at 1.
    change (strip "{{" (String c (s ++ rest)))
      with (strip (String "{" "{") (String c (s ++ rest))).
    rewrite strip_cons. apply negb_true_iff in Hc. rewrite Hc.
    rewrite (IH Hs).
    now destruct (find_placeholder rest) as [[a b]|].
Qed.

Lemma span_word_name (n rest : string) :
  all_word n = true -> span_word (n ++ "}}" ++ rest) = (n, "}}" ++ rest).
Proof.
  induction n as [|c n IH]; intros H; [ reflexivity | ].
  simpl in H. apply andb_true_iff in H as [Hc Hn].
  change (String c n ++ "}}" ++ rest) with (String c (n ++ "}}" ++ rest)).
  cbn [span_word]. rewrite Hc, (IH Hn). reflexivity.
Qed.

Lemma match_placeholder_hole (n rest : string) :
  wf_token (Hole n) = true -> match_placeholder (hole n ++ rest) = Some rest.
Proof.
  cbn [wf_token]. intros H. apply andb_true_iff in H as [Hn Hne].
  unfold match_placeholder, hole.
  rewrite !append_append, strip_append, (span_word_name n rest Hn).
  destruct n as [|c n]; [ discriminate Hne | ].
  apply strip_append.
Qed.

Lemma find_placeholder_render (ts : list token) :
  wf_tokens ts ->
  find_placeholder (render ts) =
  match split_any ts with
  | Some (a, b) => Some (render a, render b)
  | None => None
  end.
Proof.
  unfold wf_tokens. induction ts as [|t ts IH]; intros Hwf; [ reflexivity | ].
  simpl in Hwf. apply andb_true_iff in Hwf as [Ht Hts]. specialize (IH Hts).
  destruct t as [s|n]; cbn [render render_token split_any].
  - rewrite (find_placeholder_text s (render ts) Ht), IH.
    now destruct (split_any ts) as [[a b]|].
  - now rewrite find_placeholder_unfold, (match_placeholder_hole n (render ts) Ht).
Qed.

Lemma split_any_close (v : string) (ts : list token) :
  close v ts =
  match split_any ts with
  | Some (a, b) => (a ++ Text v :: close v b)%list
  | None => ts
  end.
Proof.
  induction ts as [|t ts IH]; [ reflexivity | ].
  destruct t as [s|n]; cbn [close map close_token split_any]; [ | reflexivity ].
  fold (close v ts). rewrite IH. now destruct (split_any ts) as [[a b]|].
Qed.

Lemma split_any_wf (ts a b : list token) :
  split_any ts = Some (a, b) -> wf_tokens ts -> wf_tokens b.
Proof.
  unfold wf_tokens. revert a. induction ts as [|t ts IH]; intros a H Hwf; [ discriminate | ].
  simpl in Hwf. apply andb_true_iff in Hwf as [_ Hts].
  cbn [split_any] in H. destruct t as [s|n].
  - destruct (split_any ts) as [[a' b']|] eqn:E; [ | discriminate ].
    inversion H; subst. now apply (IH a').
  - now inversion H; subst.
Qed.

Lemma split_any_length (ts a b : list token) :
  split_any ts = Some (a, b) ->
  (String.length (render b) < String.length (render ts))%nat.
Proof.
  revert a. induction ts as [|t ts IH]; intros a H; [ discriminate | ].
  cbn [split_any] in H. cbn [render]. rewrite length_append.
  destruct t as [s|n].
  - destruct (split_any ts) as [[a' b']|] eqn:E; [ | discriminate ].
    inversion H; subst. specialize (IH a' eq_refl). lia.
  - inversion H; subst. cbn [render_token]. unfold hole. simpl. lia.
Qed.

Lemma replace_placeholders_from_render (v : string) (fuel : nat) :
  forall ts : list token,
    wf_tokens ts -> (String.length (render ts) <= fuel)%nat ->
    replace_placeholders_from fuel (render ts) v = render (close v ts).
Proof.
  induction fuel as [|fuel IH]; intros ts Hwf Hlen.
  - cbn [replace_placeholders_from]. rewrite split_any_close.
    destruct (split_any ts) as [[a b]|] eqn:E; [ | reflexivity ].
    apply split_any_length in E. lia.
  - cbn [replace_placeholders_from].
    rewrite (find_placeholder_render ts Hwf), split_any_close.
    destruct (split_any ts) as [[a b]|] eqn:E; [ | reflexivity ].
    rewrite (IH b (split_any_wf ts a b E Hwf)).
    + now rewrite render_app.
    + apply split_any_length in E. lia.
Qed.

(** The cleanup closes every hole. *)
Lemma replace_placeholders_render (v : string) (ts : list token) :
  wf_tokens ts -> replace_placeholders (render ts) v = render (close v ts).
Proof.
  intros Hwf. unfold replace_placeholders.
  now apply replace_placeholders_from_render.
Qed.


(** ** Well-formed option sets *)

(** *** Objects *)

Lemma get_set_same (o : object) (k : string) (v : value) : get (set o k v) k = Some v.
Proof.
  induction o as [|[k' v'] o IH]; simpl.
  - now rewrite String.eqb_refl.
  - destruct (String.eqb k k') eqn:E; simpl; rewrite E; [ reflexivity | exact IH ].
Qed.

Lemma get_set_other (o : object) (k k' : string) (v : value) :
  k' <> k -> get (set o k v) k' = get o k'.
Proof.
  intros Hne. induction o as [|[k0 v0] o IH]; simpl.
  - apply String.eqb_neq in Hne. now rewrite Hne.
  - destruct (String.eqb_spec k k0) as [->|Hk]; simpl.
    + apply String.eqb_neq in Hne. now rewrite Hne.
    + now rewrite IH.
Qed.

Lemma keys_set (o : object) (k : string) (v : value) (P : string -> bool) :
  P k = true -> forallb P (keys o) = true -> forallb P (keys (set o k v)) = true.
Proof.
  intros Hk. induction o as [|[k0 v0] o IH]; simpl; intros H.
  - now rewrite Hk.
  - apply andb_true_iff in H as [H0 H].
    destruct (String.eqb k k0); simpl; rewrite H0; [ exact H | now apply IH ].
Qed.

Lemma keys_set_in (o : object) (k k' : string) (v : value) :
  In k' (keys o) -> In k' (keys (set o k v)).
Proof.
  induction o as [|[k0 v0] o IH]; simpl; [ tauto | ].
  destruct (String.eqb k k0); simpl; intros [H|H]; auto.
Qed.

Lemma all_sound_set (o : object) (k : string) (v : value) :
  sound_value v = true -> all_sound o = true -> all_sound (set o k v) = true.
Proof.
  unfold all_sound. intros Hv. induction o as [|[k0 v0] o IH]; simpl; intros H.
  - now rewrite Hv.
  - apply andb_true_iff in H as [H0 H].
    destruct (String.eqb k k0); simpl; [ now rewrite Hv | rewrite H0; now apply IH ].
Qed.

Lemma all_sound_get (o : object) (k : string) :
  all_sound o = true -> sound (get o k) = true.
Proof.
  unfold all_sound. induction o as [|[k0 v0] o IH]; simpl; intros H; [ reflexivity | ].
  apply andb_true_iff in H as [H0 H].
  destruct (String.eqb k k0); [ exact H0 | now apply IH ].
Qed.

Lemma spread_keys (a b : object) (P : string -> bool) :
  forallb P (keys a) = true -> forallb P (keys b) = true ->
  forallb P (keys (spread a b)) = true.
Proof.
  unfold spread. revert a. induction b as [|[k v] b IH]; intros a Ha Hb; [ exact Ha | ].
  simpl in Hb. apply andb_true_iff in Hb as [Hk Hb].
  simpl. apply IH; [ now apply keys_set | exact Hb ].
Qed.

Lemma spread_keys_in (a b : object) (k : string) :
  In k (keys a) -> In k (keys (spread a b)).
Proof.
  unfold spread. revert a. induction b as [|[k0 v] b IH]; intros a Ha; [ exact Ha | ].
  simpl. apply IH. now apply keys_set_in.
Qed.

Lemma spread_sound (a b : object) :
  all_sound a = true -> all_sound b = true -> all_sound (spread a b) = true.
Proof.
  unfold spread. revert a. induction b as [|[k v] b IH]; intros a Ha Hb; [ exact Ha | ].
  unfold all_sound in Hb. simpl in Hb. apply andb_true_iff in Hb as [Hv Hb].
  simpl. apply IH; [ now apply all_sound_set | exact Hb ].
Qed.

Lemma get_absent (o : object) (k : string) :
  existsb (String.eqb k) (keys o) = false -> get o k = None.
Proof.
  induction o as [|[k0 v0] o IH]; simpl; [ reflexivity | ].
  intros H. apply orb_false_iff in H as [H0 H]. rewrite H0. now apply IH.
Qed.

(** With distinct keys the spread reads the second object first. *)
Lemma spread_get (a b : object) (k : string) :
  distinct (keys b) = true ->
  get (spread a b) k = match get b k with Some v => Some v | None => get a k end.
Proof.
  unfold spread. revert a. induction b as [|[k0 v0] b IH]; intros a Hd; [ reflexivity | ].
  simpl in Hd. apply andb_true_iff in Hd as [Hk Hd]. apply negb_true_iff in Hk.
  simpl. rewrite (IH _ Hd).
  destruct (String.eqb_spec k k0) as [->|Hne].
  - rewrite (get_absent b k0 Hk). apply get_set_same.
  - destruct (get b k); [ reflexivity | now apply get_set_other ].
Qed.

(** *** Sound values as texts *)

Lemma lacks_concat (c : ascii) (l : list string) :
  Ascii.eqb c "," = false ->
  forallb (lacks c) l = true -> lacks c (String.concat "," l) = true.
Proof.
  intros Hc. induction l as [|s l IH]; intros H; [ reflexivity | ].
  simpl in H. apply andb_true_iff in H as [Hs Hl].
  destruct l as [|s' l]; [ exact Hs | ].
  change (String.concat "," (s :: s' :: l)) with (s ++ "," ++ String.concat "," (s' :: l)).
  rewrite !lacks_append, Hs, (IH Hl). simpl. now rewrite Hc.
Qed.

Lemma sound_to_string (v : value) :
  sound_value v = true ->
  lacks "{" (to_string v) = true /\ lacks "$" (to_string v) = true
  /\ plain (to_string v) = true.
Proof.
  destruct v as [s|b|l]; simpl; intros H.
  - apply andb_true_iff in H as [Hi Hp]. apply andb_true_iff in Hi as [H1 H2]. auto.
  - destruct b; repeat split; reflexivity.
  - apply andb_true_iff in H as [Hl Hp]. repeat split; [ | | exact Hp ].
    + apply lacks_concat; [ reflexivity | ].
      rewrite forallb_forall in *. intros s Hs. specialize (Hl s Hs).
      apply andb_true_iff in Hl as [Hi _]. now apply andb_true_iff in Hi as [H1 _].
    + apply lacks_concat; [ reflexivity | ].
      rewrite forallb_forall in *. intros s Hs. specialize (Hl s Hs).
      apply andb_true_iff in Hl as [Hi _]. now apply andb_true_iff in Hi as [_ H2].
Qed.

Lemma read_plain {A : Type} (t : list (string * A)) (k : string) :
  plain k = true ->
  read t k = match assoc t k with Some a => Own a | None => Missing end.
Proof.
  unfold plain, read. intros H. apply andb_true_iff in H as [H _].
  apply negb_true_iff in H. now rewrite H.
Qed.

Lemma assoc_forallb {A : Type} (P : string * A -> bool) (t : list (string * A))
    (k : string) (a : A) :
  forallb P t = true -> assoc t k = Some a -> exists k', P (k', a) = true.
Proof.
  induction t as [|[k0 a0] t IH]; simpl; intros H E; [ discriminate | ].
  apply andb_true_iff in H as [H0 H].
  destruct (String.eqb k k0).
  - inversion E; subst. now exists k0.
  - now apply IH.
Qed.

Lemma forallb_push (P : string -> bool) (cs : list string) (c : string) :
  forallb P (push cs c) = forallb P cs && P c.
Proof. unfold push. rewrite forallb_app. simpl. now rewrite andb_true_r. Qed.

(** *** The steps that collect constraints *)

Lemma collects_Ok (cs : list string) : forallb clause_ok cs = true -> collects (Ok cs).
Proof. intros H. now exists cs. Qed.

Lemma push_phrase_collects (cs : list string) (pre : string) (v : option value) (d : dict) :
  forallb clause_ok cs = true -> sound v = true ->
  forallb (fun kv => clause_ok (pre ++ snd kv)) d = true ->
  collects (push_phrase cs pre v d).
Proof.
  intros Hcs Hv Hd. unfold push_phrase.
  destruct (truthy v); [ | now apply collects_Ok ].
  destruct v as [x|]; [ | now apply collects_Ok ].
  destruct (sound_to_string x Hv) as (_ & _ & Hp).
  rewrite (read_plain d (to_string x) Hp).
  destruct (assoc d (to_string x)) as [phrase|] eqn:E; [ | now apply collects_Ok ].
  destruct (assoc_forallb _ d _ _ Hd E) as [k' Hk]. simpl in Hk.
  apply collects_Ok. now rewrite forallb_push, Hcs, Hk.
Qed.

Lemma push_member_collects (cs : list string) (pre : string) (v : option value) (d : dict) :
  forallb clause_ok cs = true -> sound v = true ->
  forallb (fun kv => clause_ok (pre ++ snd kv)) d = true ->
  collects (push_member cs pre v (Some d)).
Proof.
  intros Hcs Hv Hd. unfold push_member.
  destruct (truthy v); [ now apply push_phrase_collects | now apply collects_Ok ].
Qed.

Lemma push_guarded_collects (cs : list string) (pre : string) (v : option value)
    (d : option dict) :
  forallb clause_ok cs = true -> sound v = true ->
  (forall d', d = Some d' -> forallb (fun kv => clause_ok (pre ++ snd kv)) d' = true) ->
  collects (push_guarded cs pre v d).
Proof.
  intros Hcs Hv Hd. unfold push_guarded.
  destruct d as [d'|]; [ | now apply collects_Ok ].
  apply push_phrase_collects; auto.
Qed.

Lemma clause_ok_text (pre post : string) (x : value) :
  sound_value x = true -> clause_ok pre = true -> lacks "{" post = true ->
  clause_ok (pre ++ to_string x ++ post) = true.
Proof.
  intros Hx Hpre Hpost. destruct (sound_to_string x Hx) as (H1 & _ & _).
  unfold clause_ok in *. apply andb_true_iff in Hpre as [Hb Hne].
  rewrite !lacks_append, Hb, H1, Hpost.
  destruct pre; [ discriminate Hne | reflexivity ].
Qed.

Lemma push_text_ok (cs : list string) (pre post : string) (v : option value) :
  forallb clause_ok cs = true -> sound v = true ->
  clause_ok pre = true -> lacks "{" post = true ->
  forallb clause_ok (push_text cs pre v post) = true.
Proof.
  intros Hcs Hv Hpre Hpost. unfold push_text.
  destruct v as [x|]; [ | exact Hcs ].
  destruct (truthy (Some x)); [ | exact Hcs ].
  now rewrite forallb_push, Hcs, clause_ok_text.
Qed.

Lemma push_flag_ok (cs : list string) (flag : option value) (c : string) :
  forallb clause_ok cs = true -> clause_ok c = true ->
  forallb clause_ok (push_flag cs flag c) = true.
Proof.
  intros Hcs Hc. unfold push_flag.
  destruct (truthy flag && is_true flag); [ | exact Hcs ].
  now rewrite forallb_push, Hcs, Hc.
Qed.

Lemma push_packageManager_ok (cs : list string) (v : option value) :
  forallb clause_ok cs = true -> sound v = true ->
  forallb clause_ok (push_packageManager cs v) = true.
Proof.
  intros Hcs Hv. unfold push_packageManager.
  destruct (truthy v); [ | exact Hcs ].
  destruct (is_str v "none").
  - now rewrite forallb_push, Hcs.
  - now apply push_text_ok.
Qed.

Lemma push_library_collects (cs : list string) (library customLibrary : option value)
    (libraries : option dict) :
  forallb clause_ok cs = true ->
  sound library = true -> sound customLibrary = true ->
  texty library = true -> texty customLibrary = true ->
  (forall d, libraries = Some d -> forallb (fun kv => clause_ok (snd kv)) d = true) ->
  collects (push_library cs library customLibrary libraries).
Proof.
  intros Hcs Hl Hc Tl Tc Hd. unfold push_library.
  set (tl := if is_str library "Other" && truthy customLibrary then customLibrary else library).
  assert (Hs : sound tl = true) by (subst tl; now destruct (_ && _)).
  assert (Ht : texty tl = true) by (subst tl; now destruct (_ && _)).
  destruct (truthy tl) eqn:Htr; [ | now apply collects_Ok ].
  destruct libraries as [d|].
  - destruct tl as [[s|b|l]|]; try discriminate.
    + simpl in Hs. apply andb_true_iff in Hs as [Hi Hp].
      unfold plain in Hp. apply andb_true_iff in Hp as [_ Hp]. apply negb_true_iff in Hp.
      unfold read. rewrite Hp.
      destruct (assoc d (toLowerCase s)) as [phrase|] eqn:E.
      * destruct (assoc_forallb _ d _ _ (Hd d eq_refl) E) as [k' Hk]. simpl in Hk.
        apply collects_Ok. now rewrite forallb_push, Hcs, Hk.
      * apply collects_Ok. rewrite forallb_push, Hcs.
        apply andb_true_iff in Hi as [Hi _].
        unfold clause_ok. rewrite lacks_append, Hi. reflexivity.
    + destruct b; discriminate.
  - apply collects_Ok. now apply push_text_ok.
Qed.

Lemma diagram_names_ok (types : list value) :
  forallb sound_value types = true ->
  exists names, diagram_names types = Ok names /\ forallb (lacks "{") names = true.
Proof.
  induction types as [|t types IH]; intros H.
  - now exists [].
  - simpl in H. apply andb_true_iff in H as [Ht Hts].
    destruct (IH Hts) as (names & E & Hn).
    destruct (sound_to_string t Ht) as (H1 & _ & Hp).
    cbn [diagram_names]. rewrite (read_plain diagramTypeNames (to_string t) Hp).
    destruct (assoc diagramTypeNames (to_string t)) as [name|] eqn:F.
    + rewrite E. cbn [bind]. exists (name :: names). split; [ reflexivity | ].
      cbn [forallb]. rewrite Hn, andb_true_r.
      assert (G : forallb (fun kv => lacks "{" (snd kv)) diagramTypeNames = true)
        by reflexivity.
      destruct (assoc_forallb _ _ _ _ G F) as [k' Hk]. exact Hk.
    + rewrite E. cbn [bind]. exists (to_string t :: names). split; [ reflexivity | ].
      cbn [forallb]. now rewrite Hn, H1.
Qed.

Lemma lacks_concat_comma (l : list string) :
  forallb (lacks "{") l = true -> lacks "{" (String.concat ", " l) = true.
Proof.
  induction l as [|s l IH]; intros H; [ reflexivity | ].
  simpl in H. apply andb_true_iff in H as [Hs Hl].
  destruct l as [|s' l]; [ exact Hs | ].
  change (String.concat ", " (s :: s' :: l)) with (s ++ ", " ++ String.concat ", " (s' :: l)).
  now rewrite !lacks_append, Hs, (IH Hl).
Qed.

Lemma push_diagrams_collects (cs : list string) (tool custom : option value)
    (types : list value) :
  forallb clause_ok cs = true -> sound tool = true -> sound custom = true ->
  forallb sound_value types = true ->
  collects (push_diagrams cs tool custom types).
Proof.
  intros Hcs Ht Hc Hty. unfold push_diagrams.
  destruct (diagram_names_ok types Hty) as (names & -> & Hn). cbn [bind].
  apply collects_Ok. rewrite forallb_push, Hcs.
  set (t1 := or_else tool (VStr "mermaid")).
  assert (H1 : sound_value t1 = true).
  { subst t1. unfold or_else. destruct tool as [x|]; [ | reflexivity ].
    destruct (truthy (Some x)); [ exact Ht | reflexivity ]. }
  set (t2 := if is_str tool "other" && truthy custom then or_else custom t1 else t1).
  assert (H2 : sound_value t2 = true).
  { subst t2. destruct (_ && _); [ | exact H1 ].
    unfold or_else. destruct custom as [x|]; [ | exact H1 ].
    destruct (truthy (Some x)); [ exact Hc | exact H1 ]. }
  destruct (sound_to_string t2 H2) as (Hb & _ & _).
  unfold clause_ok. rewrite !lacks_append, (lacks_concat_comma names Hn), Hb. reflexivity.
Qed.

(** *** The steps that rewrite the phrase *)

Lemma keeps_refl (ts : list token) : wf_tokens ts -> keeps ts ts.
Proof. intros H. repeat split; auto. Qed.

Lemma keeps_trans (a b c : list token) : keeps a b -> keeps b c -> keeps a c.
Proof.
  intros (_ & H1 & H2 & H5) (W & H3 & H4 & H6). repeat split; auto.
  intros H. rewrite (H6 (H2 H)). now apply H5.
Qed.

Lemma fill_keeps (k v : string) (ts : list token) :
  lacks "{" v = true -> wf_tokens ts -> keeps ts (fill k v ts).
Proof.
  intros Hv Hwf. split; [ now apply fill_wf | split; [ | split ] ].
  - intros f Hf. apply (in_map (fill_token k v)) in Hf. exact Hf.
  - clear Hwf. induction ts as [|[s|n] ts IH]; cbn [holes fill map fill_token];
      [ reflexivity | exact IH | discriminate ].
  - clear Hwf. induction ts as [|[s|n] ts IH]; cbn [holes fill map fill_token];
      [ reflexivity | | discriminate ].
    intros H. f_equal. now apply IH.
Qed.

Lemma fill_first_keeps (k v : string) (ts : list token) :
  lacks "{" v = true -> wf_tokens ts -> keeps ts (fill_first k v ts).
Proof.
  intros Hv Hwf. split; [ now apply fill_first_wf | split; [ | split ] ].
  - clear Hwf. induction ts as [|[s|n] ts IH]; intros f Hf; cbn [fill_first].
    + exact Hf.
    + destruct Hf as [Hf|Hf]; [ now left | right; now apply IH ].
    + destruct Hf as [Hf|Hf]; [ discriminate Hf | ].
      destruct (String.eqb n k); right; [ exact Hf | now apply IH ].
  - clear Hwf. induction ts as [|[s|n] ts IH]; cbn [holes fill_first];
      [ reflexivity | exact IH | discriminate ].
  - clear Hwf. induction ts as [|[s|n] ts IH]; cbn [holes fill_first];
      [ reflexivity | | discriminate ].
    intros H. f_equal. now apply IH.
Qed.

Lemma replace_token_subst : token_subst replace.
Proof.
  intros k v ts Hk Hv Hwf. apply andb_true_iff in Hv as [Hb Hd].
  exists (fill_first k v ts). split.
  - now apply replace_render.
  - now apply fill_first_keeps.
Qed.

Lemma replace_all_token_subst : token_subst replace_all.
Proof.
  intros k v ts Hk Hv Hwf. apply andb_true_iff in Hv as [Hb Hd].
  exists (fill k v ts). split.
  - now apply replace_all_render.
  - now apply fill_keeps.
Qed.

Lemma replace_phrase_rewrites (subst : string -> string -> string -> string)
    (h : string) (v : option value) (d : dict) (ts : list token) :
  token_subst subst -> all_word h = true -> sound v = true -> wf_tokens ts ->
  forallb (fun kv => inert (snd kv)) d = true ->
  rewrites ts (replace_phrase subst (render ts) (hole h) v (Some d)).
Proof.
  intros Hsub Hh Hv Hwf Hd. unfold replace_phrase, rewrites.
  destruct (truthy v); [ | exists ts; split; [ reflexivity | now apply keeps_refl ] ].
  destruct v as [x|]; [ | exists ts; split; [ reflexivity | now apply keeps_refl ] ].
  destruct (sound_to_string x Hv) as (_ & _ & Hp).
  rewrite (read_plain d (to_string x) Hp).
  destruct (assoc d (to_string x)) as [phrase|] eqn:E;
    [ | exists ts; split; [ reflexivity | now apply keeps_refl ] ].
  destruct (assoc_forallb _ d _ _ Hd E) as [k' Hk]. simpl in Hk.
  destruct (Hsub h phrase ts Hh Hk Hwf) as (ts' & -> & K).
  now exists ts'.
Qed.

Lemma option_name_word (k : string) : option_name k = true -> all_word k = true.
Proof.
  destruct k as [|c k]; [ discriminate | ].
  unfold option_name. intros H.
  apply andb_true_iff in H as [H _]. now apply andb_true_iff in H as [_ H].
Qed.

Lemma or_else_sound (a : option value) (b : value) :
  sound a = true -> sound_value b = true -> sound_value (or_else a b) = true.
Proof.
  intros Ha Hb. unfold or_else. destruct a as [x|]; [ | exact Hb ].
  destruct (truthy (Some x)); [ exact Ha | exact Hb ].
Qed.

Lemma Web_replacement_sound (co : object) (key : string) :
  all_sound co = true ->
  sound_value (or_else (or_opt (get co key) (get Web.fallbackValues key)) (VStr "default"))
  = true.
Proof.
  intros H. apply or_else_sound; [ | reflexivity ].
  unfold or_opt. destruct (truthy (get co key)).
  - now apply all_sound_get.
  - now apply all_sound_get.
Qed.

Lemma Web_replacement_inert (co : object) (key : string) :
  all_sound co = true -> inert (Web.replacement co key) = true.
Proof.
  intros H. unfold Web.replacement, inert.
  destruct (sound_to_string _ (Web_replacement_sound co key H)) as (-> & -> & _).
  reflexivity.
Qed.

Lemma Web_substitute_render (skip : string -> bool) (co : object) (ts : list token) :
  forallb option_name (keys co) = true -> all_sound co = true -> wf_tokens ts ->
  Web.substitute skip (render ts) co = Ok (render (Web_resolve skip co ts))
  /\ keeps ts (Web_resolve skip co ts).
Proof.
  intros Hk Hs Hwf. unfold Web.substitute, Web_resolve. rewrite Hk.
  revert ts Hwf. induction (keys co) as [|key ks IH]; intros ts Hwf.
  - split; [ reflexivity | now apply keeps_refl ].
  - simpl in Hk. apply andb_true_iff in Hk as [Hkey Hks].
    cbn [fold_left]. destruct (skip key).
    + now apply IH.
    + pose proof (Web_replacement_inert co key Hs) as Hi.
      pose proof Hi as Hi'. apply andb_true_iff in Hi' as [Hb Hd].
      change ("{{" ++ key ++ "}}") with (hole key).
      rewrite (replace_all_render key _ ts (option_name_word key Hkey) Hd Hwf).
      destruct (IH Hks (fill key (Web.replacement co key) ts) (fill_wf _ _ _ Hb Hwf))
        as [E K].
      split; [ exact E | ].
      apply (keeps_trans _ (fill key (Web.replacement co key) ts)); [ | exact K ].
      now apply fill_keeps.
Qed.

Lemma Node_substitute_render (options : object) (ts : list token) :
  forallb option_name (keys options) = true -> all_sound options = true -> wf_tokens ts ->
  Node.substitute (render ts) options = Ok (render (Node_resolve options ts))
  /\ keeps ts (Node_resolve options ts).
Proof.
  intros Hk Hs Hwf. unfold Node.substitute, Node_resolve. rewrite Hk.
  revert ts Hwf. induction (keys options) as [|key ks IH]; intros ts Hwf.
  - split; [ reflexivity | now apply keeps_refl ].
  - simpl in Hk. apply andb_true_iff in Hk as [Hkey Hks].
    cbn [fold_left].
    set (v := to_string (or_else (get options key) (VStr "default"))).
    assert (Hv : sound_value (or_else (get options key) (VStr "default")) = true)
      by (apply or_else_sound; [ now apply all_sound_get | reflexivity ]).
    destruct (sound_to_string _ Hv) as (Hb & Hd & _). fold v in Hb, Hd.
    change ("{{" ++ key ++ "}}") with (hole key).
    rewrite (replace_render key v ts (option_name_word key Hkey) Hd Hwf).
    destruct (IH Hks (fill_first key v ts) (fill_first_wf _ _ _ Hb Hwf)) as [E K].
    split; [ exact E | ].
    apply (keeps_trans _ (fill_first key v ts)); [ | exact K ].
    now apply fill_first_keeps.
Qed.

(** *** Both builders, step by step *)

Create HintDb clauses.
#[local] Hint Resolve all_sound_get push_text_ok push_flag_ok push_packageManager_ok : clauses.
#[local] Hint Extern 3 (_ = true) => reflexivity : clauses.

(** One step of the constraints collection, in a goal about a chain of
    binds. *)
Ltac collect_step :=
  match goal with
  | |- context [push_phrase ?cs ?pre ?v ?d] =>
      let cs' := fresh "cs" in
      let E := fresh "E" in
      let H := fresh "Hcs" in
      destruct (push_phrase_collects cs pre v d
                  ltac:(auto with clauses) ltac:(auto with clauses) eq_refl)
        as (cs' & E & H);
      rewrite E; cbn [bind]
  | |- context [push_member ?cs ?pre ?v (Some ?d)] =>
      let cs' := fresh "cs" in
      let E := fresh "E" in
      let H := fresh "Hcs" in
      destruct (push_member_collects cs pre v d
                  ltac:(auto with clauses) ltac:(auto with clauses) eq_refl)
        as (cs' & E & H);
      rewrite E; cbn [bind]
  end.

(** One dictionary replacement in the phrase, for the hole [name]. *)
Ltac phrase_step subst_ok name Hs :=
  match goal with
  | |- context [replace_phrase ?subst (render ?ts) _ ?v (Some ?d)] =>
      let ts' := fresh "ts" in
      let E := fresh "E" in
      let K := fresh "K" in
      destruct (replace_phrase_rewrites subst name v d ts subst_ok eq_refl
                  ltac:(auto with clauses) ltac:(assumption) eq_refl)
        as (ts' & E & K);
      change (hole name) with ("{{" ++ name ++ "}}") in E; simpl (_ ++ _) in E;
      rewrite E; cbn [bind]
  end.

(** One step back through a chain of binds that returned. *)
Ltac bind_inv H :=
  match type of H with
  | bind ?r _ = Ok _ =>
      let E := fresh "E" in
      destruct r eqn:E; cbn [bind] in H; [ | discriminate H | discriminate H ]
  end.

Lemma holes_in (k : string) (ts : list token) : In k (holes ts) -> In (Hole k) ts.
Proof.
  induction ts as [|[s|n] ts IH]; cbn [holes]; intros H.
  - exact H.
  - right. now apply IH.
  - destruct H as [->|H]; [ now left | right; now apply IH ].
Qed.

Lemma hole_in_holes (n : string) (ts : list token) : In (Hole n) ts -> In n (holes ts).
Proof.
  induction ts as [|[s'|m] ts IH]; cbn [holes]; intros Hin.
  - elim Hin.
  - destruct Hin as [E|Hin]; [ discriminate E | now apply IH ].
  - destruct Hin as [E|Hin]; [ inversion E; now left | right; now apply IH ].
Qed.

Lemma Web_resolve_in (skip : string -> bool) (co : object) (ts : list token) (k : string) :
  In k (keys co) -> skip k = false -> In (Hole k) ts ->
  In (Text (Web.replacement co k)) (Web_resolve skip co ts).
Proof.
  intros Hk Hskip. unfold Web_resolve.
  set (f := Web.replacement co k).
  set (step := fun (ts : list token) (key : string) =>
                 if skip key then ts else fill key (Web.replacement co key) ts).
  assert (Keep : forall ks ts, In (Text f) ts -> In (Text f) (fold_left step ks ts)).
  { induction ks as [|key ks IH]; intros ts0 H; [ exact H | ].
    cbn [fold_left]. apply IH. unfold step. destruct (skip key); [ exact H | ].
    apply (in_map (fill_token key (Web.replacement co key))) in H. exact H. }
  revert ts. induction (keys co) as [|key ks IH]; intros ts H; [ now elim Hk | ].
  cbn [fold_left]. destruct (String.eqb_spec key k) as [->|Hne].
  - apply Keep. unfold step. rewrite Hskip.
    apply (in_map (fill_token k (Web.replacement co k))) in H.
    cbn [fill_token] in H. now rewrite String.eqb_refl in H.
  - destruct Hk as [Hk|Hk]; [ now elim Hne | ].
    apply (IH Hk). unfold step. destruct (skip key); [ exact H | ].
    apply (in_map (fill_token key (Web.replacement co key))) in H.
    cbn [fill_token] in H.
    destruct (String.eqb_spec k key) as [->|_]; [ now elim Hne | exact H ].
Qed.

Lemma named_tokens_wf : wf_tokens named_tokens.
Proof. reflexivity. Qed.

Lemma base_tokens_wf (type : string) : wf_tokens (base_tokens type).
Proof.
  unfold base_tokens.
  repeat match goal with |- context [String.eqb ?a ?b] => destruct (String.eqb a b) end;
    reflexivity.
Qed.

Lemma push_library_none_collects (cs : list string) (library customLibrary : option value) :
  forallb clause_ok cs = true -> sound library = true -> sound customLibrary = true ->
  collects (push_library cs library customLibrary None).
Proof.
  intros Hcs Hl Hc. unfold push_library.
  set (tl := if is_str library "Other" && truthy customLibrary then customLibrary else library).
  assert (Hs : sound tl = true) by (subst tl; now destruct (_ && _)).
  destruct (truthy tl); apply collects_Ok; [ | exact Hcs ].
  now apply push_text_ok.
Qed.

Lemma Web_enhance_ok (type : string) (template : template) (options co : object)
    (ts : list token) (cs : list string) :
  In type known_types ->
  assoc Web.PROMPT_TEMPLATES type = Some template ->
  texty (get options "projectName") = true ->
  forallb option_name (keys co) = true -> all_sound co = true ->
  (forall k, In k (holes named_tokens) -> In k (keys co)) ->
  wf_tokens ts -> forallb clause_ok cs = true ->
  exists ts' cs',
    Web.enhance template type options co (render ts) cs = Ok (render ts', cs')
    /\ wf_tokens ts' /\ forallb clause_ok cs' = true
    /\ (forall k, In k (holes (base_tokens type)) ->
          In (Text (Web.replacement co k)) ts -> In (Text (Web.replacement co k)) ts')
    /\ (type <> "init" -> holes ts = [] -> ts' = ts).
Proof.
  intros Htype HT Hname Hk Hs Hnamed Hwf Hcs.
  simpl in Htype.
  destruct Htype as [<-|[<-|[<-|[<-|[<-|[<-|[]]]]]]];
    vm_compute in HT; inversion HT; subst template; clear HT;
    unfold Web.enhance; simpl (String.eqb _ _); cbv iota;
    unfold member; simpl (assoc _ _); cbn [withProjectName].
  - (* init *)
    assert (exists ts',
      match get options "projectName" with
      | Some (VStr userProjectName) =>
          if negb (blank userProjectName)
          then Web.substitute (fun _ => false)
                 "Create {{projectType}} project called '{{projectName}}' with {{framework}}" co
          else Ok (render ts)
      | Some (VBool true) => TypeError
      | Some (VBool false) => Ok (render ts)
      | Some (VArr _) => TypeError
      | None => Ok (render ts)
      end = Ok (render ts') /\ wf_tokens ts'
      /\ (forall k, In k (holes (base_tokens "init")) ->
            In (Text (Web.replacement co k)) ts -> In (Text (Web.replacement co k)) ts'))
      as (ts' & E & Hwf' & Hin).
    { destruct (get options "projectName") as [[s|[|]|l]|]; try discriminate Hname;
        try solve [ exists ts; repeat split; auto ].
      destruct (negb (blank s)); [ | exists ts; repeat split; auto ].
      destruct (Web_substitute_render (fun _ => false) co named_tokens Hk Hs named_tokens_wf)
        as [E K]. destruct K as (W & _ & _).
      exists (Web_resolve (fun _ => false) co named_tokens).
      split; [ exact E | split; [ exact W | ] ].
      intros k Hin _. apply Web_resolve_in; [ | reflexivity | ].
      - apply Hnamed. simpl in Hin. simpl. tauto.
      - apply holes_in. simpl in Hin. simpl. tauto. }
    rewrite E. cbn [bind].
    collect_step.
    exists ts', cs0. repeat split; auto. intros H. now elim H.
  - (* feature *)
    phrase_step replace_all_token_subst "pattern" Hs.
    collect_step.
    exists ts0, cs0. destruct K as (W & Kin & _ & Ksame). repeat split; auto.
  - (* architecture *)
    phrase_step replace_all_token_subst "pattern" Hs.
    exists ts0, cs. destruct K as (W & Kin & _ & Ksame). repeat split; auto.
  - (* testing *)
    phrase_step replace_all_token_subst "testType" Hs.
    destruct (push_library_none_collects cs (get co "library") (get co "customLibrary")
                Hcs ltac:(auto with clauses) ltac:(auto with clauses))
      as (cs0 & E0 & Hcs0).
    rewrite E0. cbn [bind].
    exists ts0, (push_text cs0 "Target " (get co "coverage") "% coverage with meaningful tests").
    destruct K as (W & Kin & _ & Ksame). repeat split; auto with clauses.
  - (* docs *)
    phrase_step replace_all_token_subst "docType" Hs.
    collect_step. collect_step.
    assert (collects
              (if truthy (get co "includeDiagrams") && is_true (get co "includeDiagrams")
               then push_diagrams cs1 (get co "diagramTool") (get co "customDiagramTool")
                      (Web.diagram_types (get co "diagramTypes"))
               else Ok cs1)) as (cs2 & E2 & Hcs2).
    { destruct (_ && _); [ | now apply collects_Ok ].
      apply push_diagrams_collects; auto with clauses.
      unfold Web.diagram_types.
      pose proof (all_sound_get co "diagramTypes" Hs) as Hd.
      destruct (get co "diagramTypes") as [x|]; [ | reflexivity ].
      destruct (truthy (Some x)); [ | reflexivity ].
      simpl. simpl in Hd. now rewrite Hd. }
    rewrite E2. cbn [bind].
    eexists ts0, _. destruct K as (W & Kin & _ & Ksame).
    split; [ reflexivity | ]. repeat split; auto with clauses.
  - (* fix *)
    phrase_step replace_all_token_subst "approach" Hs.
    collect_step.
    eexists ts0, _. destruct K as (W & Kin & _ & Ksame).
    split; [ reflexivity | ]. repeat split; auto with clauses.
Qed.

Lemma Web_known_template (type : string) :
  In type known_types ->
  exists template,
    assoc Web.PROMPT_TEMPLATES type = Some template
    /\ read Web.PROMPT_TEMPLATES type = Own template
    /\ base template = render (base_tokens type).
Proof.
  simpl. intros [<-|[<-|[<-|[<-|[<-|[<-|[]]]]]]]; eexists; repeat split.
Qed.

Lemma Node_known_template (type : string) :
  In type known_types ->
  exists template,
    assoc Node.PROMPT_TEMPLATES type = Some template
    /\ read Node.PROMPT_TEMPLATES type = Own template
    /\ base template = render (base_tokens type).
Proof.
  simpl. intros [<-|[<-|[<-|[<-|[<-|[<-|[]]]]]]]; eexists; repeat split.
Qed.

Lemma base_holes_fallback (type k : string) :
  In k (holes (base_tokens type)) -> In k (keys Web.fallbackValues).
Proof.
  unfold base_tokens.
  repeat match goal with |- context [String.eqb ?a ?b] => destruct (String.eqb a b) end;
    simpl; intuition (subst; auto 20).
Qed.

Lemma named_holes_fallback (k : string) :
  In k (holes named_tokens) -> In k (keys Web.fallbackValues).
Proof. simpl. intuition (subst; auto 20). Qed.

Lemma well_formed_parts (o : object) :
  well_formed o = true ->
  forallb option_name (keys o) = true /\ distinct (keys o) = true /\ all_sound o = true
  /\ texty (get o "projectName") = true /\ texty (get o "library") = true
  /\ texty (get o "customLibrary") = true.
Proof.
  unfold well_formed. intros H.
  repeat (apply andb_true_iff in H as [H ?]). auto 10.
Qed.

Lemma Web_complete_facts (options : object) :
  well_formed options = true ->
  forallb option_name (keys (Web_complete options)) = true
  /\ all_sound (Web_complete options) = true
  /\ (forall k, In k (keys Web.fallbackValues) -> In k (keys (Web_complete options))).
Proof.
  intros H. destruct (well_formed_parts options H) as (Hk & _ & Hs & _).
  assert (K0 : forallb option_name (keys (spread Web.fallbackValues options)) = true)
    by (apply spread_keys; [ reflexivity | exact Hk ]).
  assert (S0 : all_sound (spread Web.fallbackValues options) = true)
    by (apply spread_sound; [ reflexivity | exact Hs ]).
  unfold Web_complete, Web.custom_framework.
  destruct (get (spread Web.fallbackValues options) "customFramework") as [custom|] eqn:E.
  - destruct (_ && _).
    + repeat split.
      * apply keys_set; [ reflexivity | exact K0 ].
      * apply all_sound_set; [ | exact S0 ].
        pose proof (all_sound_get _ "customFramework" S0) as G. now rewrite E in G.
      * intros k Hin. apply keys_set_in. now apply spread_keys_in.
    + repeat split; auto. intros k Hin. now apply spread_keys_in.
  - repeat split; auto. intros k Hin. now apply spread_keys_in.
Qed.

Lemma close_in (v f : string) (ts : list token) :
  In (Text f) ts -> In (Text f) (close v ts).
Proof. intros H. apply (in_map (close_token v)) in H. exact H. Qed.

Lemma close_holes (v : string) (ts : list token) : holes (close v ts) = [].
Proof.
  induction ts as [|[s|n] ts IH]; [ reflexivity | | ];
    cbn [close map close_token holes]; exact IH.
Qed.

Lemma close_wf (v : string) (ts : list token) :
  lacks "{" v = true -> wf_tokens ts -> wf_tokens (close v ts).
Proof.
  unfold wf_tokens. intros Hv. induction ts as [|t ts IH]; intros H; [ reflexivity | ].
  simpl in H. apply andb_true_iff in H as [Ht Hts].
  cbn [close map forallb]. fold (close v ts). rewrite (IH Hts), andb_true_r.
  destruct t as [s|n]; [ exact Ht | exact Hv ].
Qed.

Lemma Web_resolve_map (skip : string -> bool) (co : object) (ts : list token) :
  Web_resolve skip co ts =
  map (fun t => match t with
                | Text s => Text s
                | Hole n =>
                    if existsb (String.eqb n) (keys co) && negb (skip n)
                    then Text (Web.replacement co n) else Hole n
                end) ts.
Proof.
  unfold Web_resolve. revert ts. induction (keys co) as [|k ks IH]; intros ts.
  - cbn [fold_left existsb andb]. rewrite <- (map_id ts) at 1.
    apply map_ext. now intros [s|n].
  - cbn [fold_left]. rewrite IH. destruct (skip k) eqn:Hskip.
    + apply map_ext. intros [s|n]; [ reflexivity | ].
      cbn [existsb]. destruct (String.eqb_spec n k) as [->|_]; [ | reflexivity ].
      rewrite Hskip. cbn [negb orb]. now rewrite !andb_false_r.
    + unfold fill. rewrite map_map. apply map_ext. intros [s|n]; [ reflexivity | ].
      cbn [fill_token existsb]. destruct (String.eqb_spec n k) as [->|_].
      * now rewrite Hskip.
      * reflexivity.
Qed.

Lemma Web_resolve_fill_all (skip : string -> bool) (co : object) (ts : list token) :
  (forall n, In n (holes ts) -> In n (keys co) /\ skip n = false) ->
  Web_resolve skip co ts = fill_all co ts.
Proof.
  intros H. rewrite Web_resolve_map. unfold fill_all.
  apply map_ext_in. intros [s|n] Hin; [ reflexivity | ].
  assert (Hn : In n (holes ts)).
  { clear H. induction ts as [|[s'|m] ts IH]; cbn [holes].
    - elim Hin.
    - destruct Hin as [E|Hin]; [ discriminate E | now apply IH ].
    - destruct Hin as [E|Hin]; [ inversion E; now left | right; now apply IH ]. }
  destruct (H n Hn) as [Hk ->].
  assert (E : existsb (String.eqb n) (keys co) = true).
  { apply existsb_exists. exists n. split; [ exact Hk | apply String.eqb_refl ]. }
  now rewrite E.
Qed.

Lemma fill_all_holes (co : object) (ts : list token) : holes (fill_all co ts) = [].
Proof.
  induction ts as [|[s|n] ts IH]; [ reflexivity | | ];
    cbn [fill_all map holes]; exact IH.
Qed.

Lemma close_closed (v : string) (ts : list token) : holes ts = [] -> close v ts = ts.
Proof.
  induction ts as [|[s|n] ts IH]; cbn [holes close map close_token];
    [ reflexivity | | discriminate ].
  intros H. f_equal. now apply IH.
Qed.

(** The browser builder up to the cleanup, on a well-formed option set: a
    phrase without holes, proper clauses, for every hole of the base phrase
    that the first pass fills, the text that filled it, and for the task
    types whose dictionary replacement comes after the first pass, the
    phrase of the first pass. *)
Lemma Web_parts_ok (type : string) (options : object) :
  In type known_types -> well_formed options = true ->
  exists template ts cs,
    read Web.PROMPT_TEMPLATES type = Own template
    /\ Web.parts template type options = Ok (render ts, cs)
    /\ wf_tokens ts /\ holes ts = [] /\ forallb clause_ok cs = true
    /\ (forall k, In k (holes (base_tokens type)) -> Web.skipped type k = false ->
          In (Text (Web.replacement (Web_complete options) k)) ts)
    /\ (type <> "init" -> type <> "docs" ->
        ts = fill_all (Web_complete options) (base_tokens type)).
Proof.
  intros Htype Hwf.
  destruct (Web_known_template type Htype) as (template & HT & HR & Hbase).
  destruct (well_formed_parts options Hwf) as (_ & _ & _ & Hname & _).
  destruct (Web_complete_facts options Hwf) as (Hk & Hs & Hin).
  exists template.
  unfold Web.parts. fold (Web_complete options). set (co := Web_complete options) in *.
  rewrite Hbase.
  destruct (Web_substitute_render (Web.skipped type) co (base_tokens type) Hk Hs
              (base_tokens_wf type)) as [E K].
  rewrite E. cbn [bind]. destruct K as (W1 & _ & _).
  assert (Hnil : forallb clause_ok [] = true) by reflexivity.
  do 5 collect_step.
  match goal with
  | |- context [Web.enhance _ _ _ _ (render ?t) ?c] =>
      destruct (Web_enhance_ok type template options co t c Htype HT Hname Hk Hs
                  (fun k H => Hin k (named_holes_fallback k H)) W1 ltac:(assumption))
        as (ts' & cs' & E' & W' & Hcs' & Hkeep & Hsame)
  end.
  rewrite E'. cbn [bind fst snd].
  rewrite (replace_placeholders_render "component" ts' W').
  exists (close "component" ts'), cs'.
  split; [ exact HR | split; [ reflexivity | ] ].
  split; [ now apply close_wf | ].
  split; [ apply close_holes | ].
  split; [ exact Hcs' | ].
  split.
  - intros k Hhole Hskip. apply close_in, Hkeep; [ exact Hhole | ].
    apply Web_resolve_in; [ | exact Hskip | now apply holes_in ].
    apply Hin. now apply (base_holes_fallback type).
  - intros Hinit Hdocs.
    assert (Hres : Web_resolve (Web.skipped type) co (base_tokens type)
                   = fill_all co (base_tokens type)).
    { apply Web_resolve_fill_all. intros n Hn. split.
      - apply Hin. now apply (base_holes_fallback type).
      - unfold Web.skipped.
        apply String.eqb_neq in Hinit, Hdocs. now rewrite Hinit, Hdocs. }
    rewrite Hres in Hsame.
    rewrite (Hsame Hinit (fill_all_holes co _)).
    apply close_closed, fill_all_holes.
Qed.

(** *** The command line builder *)

Lemma holes_fill_first_in (k v n : string) (ts : list token) :
  In n (holes (fill_first k v ts)) -> In n (holes ts).
Proof.
  induction ts as [|[s|m] ts IH]; cbn [fill_first holes]; auto.
  destruct (String.eqb m k); cbn [holes]; [ now right | ].
  intros [H|H]; [ now left | right; now apply IH ].
Qed.

Lemma holes_fill_first_out (k v : string) (ts : list token) :
  NoDup (holes ts) -> ~ In k (holes (fill_first k v ts)).
Proof.
  induction ts as [|[s|m] ts IH]; cbn [fill_first holes]; auto.
  intros H. inversion H as [|? ? Hm Hr]; subst.
  destruct (String.eqb_spec m k) as [->|Hne]; cbn [holes]; [ exact Hm | ].
  intros [E|E]; [ now elim Hne | now apply (IH Hr) ].
Qed.

Lemma holes_fill_first_nodup (k v : string) (ts : list token) :
  NoDup (holes ts) -> NoDup (holes (fill_first k v ts)).
Proof.
  induction ts as [|[s|m] ts IH]; cbn [fill_first holes]; auto.
  intros H. inversion H as [|? ? Hm Hr]; subst.
  destruct (String.eqb m k); cbn [holes]; [ exact Hr | ].
  constructor; [ | now apply IH ].
  intros E. apply Hm. now apply (holes_fill_first_in k v).
Qed.

(** The command line substitution fills every hole when the holes are
    distinct and each is a key. *)
Lemma Node_resolve_closed (options : object) (ts : list token) :
  NoDup (holes ts) -> (forall n, In n (holes ts) -> In n (keys options)) ->
  holes (Node_resolve options ts) = [].
Proof.
  unfold Node_resolve. revert ts.
  induction (keys options) as [|key ks IH]; intros ts Hnd Hin.
  - cbn [fold_left]. destruct (holes ts) as [|n r]; [ reflexivity | ].
    elim (Hin n). now left.
  - cbn [fold_left]. apply IH; [ now apply holes_fill_first_nodup | ].
    intros n Hn.
    destruct (Hin n (holes_fill_first_in _ _ _ _ Hn)) as [<-|H]; [ | exact H ].
    elim (holes_fill_first_out key _ ts Hnd Hn).
Qed.

Lemma get_in_keys (o : object) (k : string) (v : value) :
  get o k = Some v -> In k (keys o).
Proof.
  induction o as [|[k0 v0] o IH]; simpl; [ discriminate | ].
  destruct (String.eqb_spec k k0) as [->|_]; [ now left | right; now apply IH ].
Qed.

Lemma Node_custom_framework_facts (options : object) :
  well_formed options = true ->
  let options' := Node.custom_framework options in
  forallb option_name (keys options') = true
  /\ all_sound options' = true
  /\ (forall k, In k (keys options) -> In k (keys options'))
  /\ (forall k, k <> "framework" -> get options' k = get options k).
Proof.
  intros H. destruct (well_formed_parts options H) as (Hk & _ & Hs & _).
  cbv zeta. unfold Node.custom_framework.
  destruct (get options "customFramework") as [custom|] eqn:E; [ | auto ].
  destruct (_ && _); [ | auto ].
  repeat split.
  - apply keys_set; [ reflexivity | exact Hk ].
  - apply all_sound_set; [ | exact Hs ].
    pose proof (all_sound_get _ "customFramework" Hs) as G. now rewrite E in G.
  - intros k. apply keys_set_in.
  - intros k Hne. now apply get_set_other.
Qed.

Lemma sound_array (l : list string) :
  sound_value (VArr l) = true -> forallb sound_value (map VStr l) = true.
Proof.
  simpl. intros H. apply andb_true_iff in H as [H _].
  induction l as [|s l IH]; [ reflexivity | ].
  simpl in *. apply andb_true_iff in H as [Hs Hl]. now rewrite Hs, IH.
Qed.

Lemma Node_enhance_ok (type : string) (template : template) (options : object)
    (ts : list token) (cs : list string) :
  In type known_types ->
  assoc Node.PROMPT_TEMPLATES type = Some template ->
  texty (get options "projectName") = true ->
  texty (get options "library") = true -> texty (get options "customLibrary") = true ->
  forallb option_name (keys options) = true -> all_sound options = true ->
  wf_tokens ts -> forallb clause_ok cs = true ->
  exists ts' cs',
    Node.enhance template type options (render ts) cs = Ok (render ts', cs')
    /\ wf_tokens ts' /\ forallb clause_ok cs' = true
    /\ ((forall n, In n (holes (base_tokens type)) -> In n (keys options)) ->
        holes ts = [] -> holes ts' = []).
Proof.
  intros Htype HT Hname Hlib Hcustom Hk Hs Hwf Hcs.
  simpl in Htype.
  destruct Htype as [<-|[<-|[<-|[<-|[<-|[<-|[]]]]]]];
    vm_compute in HT; inversion HT; subst template; clear HT;
    unfold Node.enhance; simpl (String.eqb _ _); cbv iota;
    unfold member; simpl (assoc _ _); cbn [withProjectName].
  - (* init *)
    assert (exists ts',
      match get options "projectName" with
      | Some (VStr userProjectName) =>
          if negb (blank userProjectName)
          then Node.substitute
                 "Create {{projectType}} project called '{{projectName}}' with {{framework}}"
                 options
          else Ok (render ts)
      | Some (VBool true) => TypeError
      | Some (VBool false) => Ok (render ts)
      | Some (VArr _) => TypeError
      | None => Ok (render ts)
      end = Ok (render ts') /\ wf_tokens ts'
      /\ ((forall n, In n (holes (base_tokens "init")) -> In n (keys options)) ->
          holes ts = [] -> holes ts' = []))
      as (ts' & E & Hwf' & Hin).
    { destruct (get options "projectName") as [[s|[|]|l]|] eqn:G; try discriminate Hname;
        try solve [ exists ts; repeat split; auto ].
      destruct (negb (blank s)); [ | exists ts; repeat split; auto ].
      destruct (Node_substitute_render options named_tokens Hk Hs named_tokens_wf)
        as [E K]. destruct K as (W & _ & _).
      exists (Node_resolve options named_tokens).
      split; [ exact E | split; [ exact W | ] ].
      intros Hin _. apply Node_resolve_closed.
      - simpl. repeat constructor; simpl; intuition discriminate.
      - intros n Hn. simpl in Hn.
        destruct Hn as [<-|[<-|[<-|[]]]].
        + apply Hin. simpl. tauto.
        + now apply (get_in_keys options "projectName" (VStr s)).
        + apply Hin. simpl. tauto. }
    rewrite E. cbn [bind].
    collect_step.
    exists ts', cs0. auto.
  - (* feature *)
    phrase_step replace_token_subst "pattern" Hs.
    collect_step.
    exists ts0, cs0. destruct K as (W & _ & Kh & _). auto.
  - (* architecture *)
    phrase_step replace_token_subst "pattern" Hs.
    exists ts0, cs. destruct K as (W & _ & Kh & _). auto.
  - (* testing *)
    phrase_step replace_token_subst "testType" Hs.
    match goal with
    | |- context [push_library cs ?l ?c ?libraries] =>
        destruct (push_library_collects cs l c libraries Hcs
                    ltac:(auto with clauses) ltac:(auto with clauses) Hlib Hcustom)
          as (cs0 & E0 & Hcs0)
    end.
    { intros d' [= <-]. reflexivity. }
    rewrite E0. cbn [bind].
    eexists ts0, _. destruct K as (W & _ & Kh & _).
    split; [ reflexivity | ]. repeat split; auto with clauses.
  - (* docs *)
    phrase_step replace_token_subst "docType" Hs.
    collect_step. collect_step.
    assert (collects
              (if truthy (get options "includeDiagrams") && is_true (get options "includeDiagrams")
               then push_diagrams cs1 (get options "diagramTool") (get options "customDiagramTool")
                      (Node.diagram_types (get options "diagramTypes"))
               else Ok cs1)) as (cs2 & E2 & Hcs2).
    { destruct (_ && _); [ | now apply collects_Ok ].
      apply push_diagrams_collects; auto with clauses.
      unfold Node.diagram_types.
      pose proof (all_sound_get options "diagramTypes" Hs) as Hd.
      destruct (get options "diagramTypes") as [[s|b|l]|]; try reflexivity.
      - destruct (truthy (Some (VStr s))); [ | reflexivity ].
        simpl. simpl in Hd. now rewrite Hd.
      - destruct (truthy (Some (VBool b))); reflexivity.
      - now apply sound_array. }
    rewrite E2. cbn [bind].
    eexists ts0, _. destruct K as (W & _ & Kh & _).
    split; [ reflexivity | ]. repeat split; auto with clauses.
  - (* fix *)
    phrase_step replace_token_subst "approach" Hs.
    collect_step.
    match goal with
    | |- context [push_guarded ?c ?pre ?v ?categories] =>
        destruct (push_guarded_collects c pre v categories
                    ltac:(auto with clauses) ltac:(auto with clauses))
          as (cs1 & E1 & Hcs1)
    end.
    { intros d' [= <-]. reflexivity. }
    rewrite E1. cbn [bind].
    exists ts0, cs1. destruct K as (W & _ & Kh & _). auto.
Qed.

Lemma base_holes_nodup (type : string) : NoDup (holes (base_tokens type)).
Proof.
  unfold base_tokens.
  repeat match goal with |- context [String.eqb ?a ?b] => destruct (String.eqb a b) end;
    simpl; repeat constructor; simpl; intuition discriminate.
Qed.

Lemma Node_frameworks_collects (type : string) (template : template) (options : object) :
  assoc Node.PROMPT_TEMPLATES type = Some template ->
  sound (get options "framework") = true ->
  collects
    (if String.eqb type "init"
     then push_guarded [] EmptyString (get options "framework") (member template "frameworks")
     else Ok []).
Proof.
  intros HT Hs. destruct (String.eqb_spec type "init") as [->|_];
    [ | now apply collects_Ok ].
  vm_compute in HT. inversion HT; subst template; clear HT.
  apply push_guarded_collects; [ reflexivity | exact Hs | ].
  intros d' [= <-]. reflexivity.
Qed.

(** The command line builder up to the end of the switch, on a well-formed
    option set: a phrase, without holes when every hole of the base phrase is
    a key, and proper clauses. *)
Lemma Node_parts_ok (type : string) (options : object) :
  In type known_types -> well_formed options = true ->
  exists template ts cs,
    read Node.PROMPT_TEMPLATES type = Own template
    /\ Node.parts template type (Node.custom_framework options) = Ok (render ts, cs)
    /\ wf_tokens ts /\ forallb clause_ok cs = true
    /\ ((forall n, In n (holes (base_tokens type)) -> In n (keys options)) ->
        holes ts = []).
Proof.
  intros Htype Hwf.
  destruct (Node_known_template type Htype) as (template & HT & HR & Hbase).
  destruct (well_formed_parts options Hwf) as (_ & _ & _ & Hname & Hlib & Hcustom).
  destruct (Node_custom_framework_facts options Hwf) as (Hk & Hs & Hin & Hget).
  set (options' := Node.custom_framework options) in *.
  exists template.
  unfold Node.parts. rewrite Hbase.
  destruct (Node_substitute_render options' (base_tokens type) Hk Hs (base_tokens_wf type))
    as [E K].
  rewrite E. cbn [bind]. destruct K as (W1 & _ & _).
  destruct (Node_frameworks_collects type template options' HT
              ltac:(auto with clauses)) as (cs0 & E0 & Hcs0).
  rewrite E0. cbn [bind].
  do 5 collect_step.
  match goal with
  | |- context [Node.enhance _ _ _ (render ?t) ?c] =>
      destruct (Node_enhance_ok type template options' t c Htype HT) as
        (ts' & cs' & E' & W' & Hcs' & Hclosed); auto
  end.
  { rewrite Hget; [ exact Hname | discriminate ]. }
  { rewrite Hget; [ exact Hlib | discriminate ]. }
  { rewrite Hget; [ exact Hcustom | discriminate ]. }
  rewrite E'.
  exists ts', cs'.
  split; [ exact HR | split; [ reflexivity | ] ].
  split; [ exact W' | split; [ exact Hcs' | ] ].
  intros Hkeys. apply Hclosed.
  - intros n Hn. apply Hin. now apply Hkeys.
  - apply Node_resolve_closed; [ apply base_holes_nodup | ].
    intros n Hn. apply Hin. now apply Hkeys.
Qed.

(** *** The last two steps *)

Lemma lacks_includes (s : string) : lacks "{" s = true -> includes s "{{" = false.
Proof.
  induction s as [|c s IH]; intros H; [ reflexivity | ].
  rewrite lacks_cons in H. apply andb_true_iff in H as [Hc Hs].
  rewrite includes_unfold.
  change (strip "{{" (String c s)) with (strip (String "{" "{") (String c s)).
  rewrite strip_cons. apply negb_true_iff in Hc. rewrite Hc. now apply IH.
Qed.



(** ** The scenarios of the specification *)

Example init_scenario :
  let options :=
    [("projectType", VStr "node"); ("framework", VStr "express");
     ("packageManager", VStr "pnpm"); ("structure", VStr "layered");
     ("outputFormat", VStr "code"); ("complexity", VStr "simple")] in
  Web.buildPrompt "init" options
  = Ok "Create node project with express. Constraints: Code only, no explanations, no markdown, Basic implementation, <50 lines, Use pnpm with latest best practices, Organized folders. Ask user to clarify if necessary."
  /\ Node.buildPrompt "init" options
     = (Ok "Create node project with express. Constraints: Modern Express.js with middleware patterns, Code only, no explanations, Basic implementation, <50 lines, Use pnpm with latest best practices, Organized folders. Ask user to clarify if necessary.",
        options).
Proof. split; reflexivity. Qed.

Example custom_framework_scenario :
  let options := [("framework", VStr "other"); ("customFramework", VStr "Deno")] in
  Web.buildPrompt "init" options
  = Ok "Create node project with Deno Ask user to clarify if necessary."
  /\ fst (Node.buildPrompt "init" options)
     = Ok "Create {{projectType}} project with Deno Ask user to clarify if necessary.".
Proof. split; reflexivity. Qed.

Example named_project_scenario :
  let options :=
    [("projectName", VStr "my-api"); ("projectType", VStr "node");
     ("framework", VStr "express")] in
  Web.buildPrompt "init" options
  = Ok "Create node project called 'my-api' with express Ask user to clarify if necessary."
  /\ fst (Node.buildPrompt "init" options)
     = Ok "Create node project called 'my-api' with express. Constraints: Modern Express.js with middleware patterns. Ask user to clarify if necessary.".
Proof. split; reflexivity. Qed.

Example docs_scenario :
  let options :=
    [("docType", VStr "user"); ("projectName", VStr "billing");
     ("includeDiagrams", VBool true); ("includeToc", VStr "true")] in
  Web.buildPrompt "docs" options
  = Ok "Generate user guide documentation for billing. Constraints: Include flow charts using mermaid syntax, Generate table of contents with proper navigation. Ask user to clarify if necessary."
  /\ fst (Node.buildPrompt "docs" options)
     = Ok "Generate user documentation for billing. Constraints: Include flow charts, architecture diagrams using mermaid syntax, Generate table of contents with proper navigation. Ask user to clarify if necessary.".
Proof. split; reflexivity. Qed.

(** A replacement text with [$'] copies the rest of the phrase, and the
    command line builder fills only the first copy of a placeholder. *)
Example dollar_scenario :
  fst (Node.buildPrompt "init" [("projectType", VStr "$'"); ("framework", VStr "vue")])
  = Ok "Create  project with vue project with {{framework}}. Constraints: Use Vue 3 Composition API and TypeScript support. Ask user to clarify if necessary.".
Proof. reflexivity. Qed.

Example substitution_patterns :
  replace "Implement {{feature}} as {{pattern}}" "{{feature}}" "$'x"
  = "Implement  as {{pattern}}x as {{pattern}}"
  /\ replace_all "a {{k}} b {{k}} c" "{{k}}" "[$`]" = "a [a ] b [a {{k}} b ] c"
  /\ replace_placeholders "a {{k}} b {{{kk}} c {{}} {{a b}} {{z_9}}" "component"
     = "a component b {component c {{}} {{a b}} component".
Proof. repeat split. Qed.

(** ** The analyzer *)

Lemma ceil_quarter_div (n : nat) : ceil_quarter n = (- ((- Z.of_nat n) / 4))%Z.
Proof.
  unfold ceil_quarter, Qceiling, Qfloor, Qdiv, Qmult, Qinv, Qopp, inject_Z; simpl.
  rewrite Z.mul_1_r. reflexivity.
Qed.

Lemma ceil_quarter_least (n : nat) :
  (4 * (ceil_quarter n - 1) < Z.of_nat n <= 4 * ceil_quarter n)%Z.
Proof.
  rewrite ceil_quarter_div.
  pose proof (Z.div_mod (- Z.of_nat n) 4 ltac:(lia)) as Hdm.
  pose proof (Z.mod_pos_bound (- Z.of_nat n) 4 ltac:(lia)) as Hb.
  lia.
Qed.

(** C4. For every prompt, estimatedTokens is the ceiling of length / 4 (the
    least integer t with length <= 4 t); the efficiency is decided by the
    strict comparisons < 120, < 220, < 320 tried in this order; a prompt of
    480 characters has 120 tokens and is rated good; the empty prompt has 0
    tokens, is rated excellent and gets no recommendation. *)
Theorem analyzeTokenEfficiency_spec (prompt : string) :
  let a := analyzeTokenEfficiency prompt in
  let t := estimatedTokens a in
  (4 * (t - 1) < Z.of_nat (String.length prompt) <= 4 * t)%Z
  /\ efficiency a =
       (if (t <? 120)%Z then "excellent"
        else if (t <? 220)%Z then "good"
        else if (t <? 320)%Z then "fair" else "verbose")
  /\ (String.length prompt = 480%nat -> t = 120%Z /\ efficiency a = "good")
  /\ analyzeTokenEfficiency EmptyString
     = {| estimatedTokens := 0; efficiency := "excellent"; recommendations := [] |}.
Proof.
  cbv zeta. split; [ | split; [ | split ] ].
  - apply ceil_quarter_least.
  - reflexivity.
  - intros Hlen. unfold analyzeTokenEfficiency; simpl. rewrite Hlen. split; reflexivity.
  - reflexivity.
Qed.

Lemma analyzeTokenEfficiency_spec_witness :
  String.length prompt480 = 480%nat
  /\ estimatedTokens (analyzeTokenEfficiency prompt480) = 120%Z
  /\ efficiency (analyzeTokenEfficiency prompt480) = "good".
Proof.
  split; [ reflexivity | ].
  apply (analyzeTokenEfficiency_spec prompt480). reflexivity.
Defined.

(** ** The optimizer *)

Lemma is_str_false (v : option value) (lit : string) :
  v <> Some (VStr lit) -> is_str v lit = false.
Proof.
  intros H. destruct v as [[s| |]|]; simpl; try reflexivity.
  destruct (String.eqb_spec s lit) as [->|]; [ now elim H | reflexivity ].
Qed.

(** C10. When the context has neither TypeScript nor React, its package
    manager is absent or 'npm', the output format is none of code, commented,
    guided and the complexity is neither simple nor medium, optimizePrompt
    returns basePrompt unchanged, with the context given or left out. *)
Theorem optimizePrompt_identity (basePrompt : string) (options context : object) :
  truthy (get context "hasTypeScript") = false ->
  truthy (get context "hasReact") = false ->
  get context "packageManager" = None \/ get context "packageManager" = Some (VStr "npm") ->
  get options "outputFormat" <> Some (VStr "code") ->
  get options "outputFormat" <> Some (VStr "commented") ->
  get options "outputFormat" <> Some (VStr "guided") ->
  get options "complexity" <> Some (VStr "simple") ->
  get options "complexity" <> Some (VStr "medium") ->
  optimizePrompt basePrompt options (Some context) = basePrompt
  /\ optimizePrompt basePrompt options None = basePrompt.
Proof.
  intros Hts Hre Hpm Hc Hm Hg Hs Hd.
  unfold optimizePrompt.
  rewrite Hts, Hre.
  rewrite (is_str_false _ _ Hc), (is_str_false _ _ Hm), (is_str_false _ _ Hg).
  rewrite (is_str_false _ _ Hs), (is_str_false _ _ Hd).
  destruct Hpm as [-> | ->]; split; reflexivity.
Qed.

Lemma optimizePrompt_identity_witness :
  optimizePrompt "Fix bug in parser using debug"
    [("outputFormat", VStr "detailed"); ("complexity", VStr "complex")]
    (Some [("hasTypeScript", VBool false); ("packageManager", VStr "npm")])
  = "Fix bug in parser using debug".
Proof.
  apply (optimizePrompt_identity "Fix bug in parser using debug"
           [("outputFormat", VStr "detailed"); ("complexity", VStr "complex")]
           [("hasTypeScript", VBool false); ("packageManager", VStr "npm")]);
    simpl; try reflexivity; try (right; reflexivity); discriminate.
Defined.

(** C6. The package manager directive is appended without looking at
    basePrompt: the prompt built for an init with pnpm already names pnpm,
    and a context with the same package manager appends 'Use pnpm' again. *)
Theorem optimizePrompt_repeats_package_manager :
  let options :=
    [("projectType", VStr "node"); ("framework", VStr "express");
     ("packageManager", VStr "pnpm")] in
  let basePrompt :=
    "Create node project with express. Constraints: Modern Express.js with middleware patterns, Use pnpm with latest best practices. Ask user to clarify if necessary." in
  fst (Node.buildPrompt "init" options) = Ok basePrompt
  /\ includes basePrompt "pnpm" = true
  /\ optimizePrompt basePrompt options (Some [("packageManager", VStr "pnpm")])
     = basePrompt ++ ". Context: Use pnpm".
Proof. vm_compute. repeat split. Qed.

(** The TypeScript and React directives look at basePrompt: a context
    flag counts for nothing when the keyword is already there. *)
Lemma optimizePrompt_ignores_TypeScript (basePrompt : string) (options context : object) :
  includes basePrompt "TypeScript" = true ->
  optimizePrompt basePrompt options (Some context)
  = optimizePrompt basePrompt options (Some (set context "hasTypeScript" (VBool false))).
Proof.
  intros H. unfold optimizePrompt.
  rewrite get_set_same, !get_set_other by discriminate.
  rewrite H. cbn [negb truthy]. now rewrite andb_false_r.
Qed.

Lemma optimizePrompt_ignores_React (basePrompt : string) (options context : object) :
  includes basePrompt "React" = true ->
  optimizePrompt basePrompt options (Some context)
  = optimizePrompt basePrompt options (Some (set context "hasReact" (VBool false))).
Proof.
  intros H. unfold optimizePrompt.
  rewrite get_set_same, !get_set_other by discriminate.
  rewrite H. cbn [negb truthy]. now rewrite andb_false_r.
Qed.

(** The package manager directive does not: whatever basePrompt says, a
    package manager other than npm is appended. *)
Lemma optimizePrompt_package_manager (basePrompt packageManager : string) :
  packageManager <> EmptyString -> packageManager <> "npm" ->
  optimizePrompt basePrompt [] (Some [("packageManager", VStr packageManager)])
  = basePrompt ++ ". Context: Use " ++ packageManager.
Proof.
  intros Hne Hnpm. unfold optimizePrompt. cbn [get String.eqb Ascii.eqb Bool.eqb].
  simpl (get _ _). cbn [truthy is_str andb negb].
  apply String.eqb_neq in Hne, Hnpm. rewrite Hne, Hnpm. cbn [negb andb].
  unfold push_text, push. cbn [truthy]. rewrite Hne. cbn [negb].
  simpl. now rewrite append_empty.
Qed.

(** ** The builders at single inputs *)

(** C7. The command line builder writes the custom framework into the
    caller's options object. *)
Theorem Node_buildPrompt_overwrites_framework :
  let options := [("framework", VStr "other"); ("customFramework", VStr "Deno")] in
  get options "framework" = Some (VStr "other")
  /\ get (snd (Node.buildPrompt "init" options)) "framework" = Some (VStr "Deno")
  /\ snd (Node.buildPrompt "init" options) <> options.
Proof. vm_compute. repeat split. discriminate. Qed.

(** C3. For a feature with pattern 'hook' both builders keep the raw tag: the
    dictionaries hold a phrase for 'hook', but the placeholder is gone when
    the dictionary replacement runs. *)
Theorem buildPrompt_keeps_raw_pattern_tag :
  let options := [("feature", VStr "login"); ("pattern", VStr "hook")] in
  (exists template patterns,
     read Web.PROMPT_TEMPLATES "feature" = Own template
     /\ member template "patterns" = Some patterns
     /\ read patterns "hook" = Own "React hook")
  /\ Web.buildPrompt "feature" options
     = Ok "Implement login as hook Ask user to clarify if necessary."
  /\ (exists template patterns,
        read Node.PROMPT_TEMPLATES "feature" = Own template
        /\ member template "patterns" = Some patterns
        /\ read patterns "hook" = Own "React hook with proper dependencies")
  /\ fst (Node.buildPrompt "feature" options)
     = Ok "Implement login as hook Ask user to clarify if necessary."
  /\ includes "Implement login as hook Ask user to clarify if necessary." "React hook" = false.
Proof.
  cbv zeta. split; [ | split; [ | split; [ | split ] ] ].
  - eexists _, _. repeat split.
  - reflexivity.
  - eexists _, _. repeat split.
  - reflexivity.
  - reflexivity.
Qed.

(** In the browser builder the phrase of a feature, an architecture, a
    testing or a fix prompt is the base phrase with every placeholder filled
    by the merged option value: the dictionary replacement of the switch
    finds no placeholder left. *)
Lemma Web_buildPrompt_first_pass (type : string) (options : object) :
  In type ["feature"; "architecture"; "testing"; "fix"] ->
  well_formed options = true ->
  exists cs,
    Web.buildPrompt type options
    = Ok (finish (render (fill_all (Web_complete options) (base_tokens type))) cs).
Proof.
  intros Htype Hwf.
  assert (Hknown : In type known_types) by (simpl in *; intuition).
  assert (Hinit : type <> "init")
    by (intros ->; simpl in Htype; intuition discriminate).
  assert (Hdocs : type <> "docs")
    by (intros ->; simpl in Htype; intuition discriminate).
  destruct (Web_parts_ok type options Hknown Hwf)
    as (template & ts & cs & HR & E & _ & _ & _ & _ & Hsame).
  exists cs. unfold Web.buildPrompt. rewrite HR, E. cbn [bind fst snd].
  now rewrite (Hsame Hinit Hdocs).
Qed.

(** The merged value of a key the caller supplied with a truthy value. *)
Lemma Web_replacement_supplied (k : string) (v : value) (options : object) :
  well_formed options = true -> k <> "framework" ->
  get options k = Some v -> truthy (Some v) = true ->
  Web.replacement (Web_complete options) k = to_string v.
Proof.
  intros Hwf Hne Hget Htruthy.
  destruct (well_formed_parts options Hwf) as (_ & Hd & _).
  assert (H0 : get (spread Web.fallbackValues options) k = Some v)
    by (now rewrite (spread_get _ _ _ Hd), Hget).
  assert (Hco : get (Web_complete options) k = Some v).
  { unfold Web_complete, Web.custom_framework.
    destruct (get (spread Web.fallbackValues options) "customFramework"); [ | exact H0 ].
    destruct (_ && _); [ | exact H0 ].
    now rewrite get_set_other. }
  unfold Web.replacement, or_opt, or_else. rewrite Hco, Htruthy. now rewrite Htruthy.
Qed.

(** Whatever pattern a feature is given, the browser builder prints the tag
    itself after 'as'. *)
Lemma Web_feature_raw_pattern (options : object) (pattern : string) :
  well_formed options = true ->
  get options "pattern" = Some (VStr pattern) -> pattern <> EmptyString ->
  exists feature cs,
    Web.buildPrompt "feature" options
    = Ok (finish ("Implement " ++ feature ++ " as " ++ pattern) cs).
Proof.
  intros Hwf Hget Hne.
  destruct (Web_buildPrompt_first_pass "feature" options) as (cs & E);
    [ simpl; auto | exact Hwf | ].
  exists (Web.replacement (Web_complete options) "feature"), cs.
  rewrite E. do 2 f_equal.
  cbn [base_tokens String.eqb Ascii.eqb Bool.eqb fill_all map render render_token].
  simpl (String.eqb _ _). cbv iota. cbn [map render render_token].
  rewrite (Web_replacement_supplied "pattern" (VStr pattern) options Hwf);
    [ | discriminate | exact Hget | ].
  - simpl. now rewrite append_empty.
  - simpl. apply String.eqb_neq in Hne. now rewrite Hne.
Qed.

(** ** The variations *)

(** C8. generatePromptVariations returns four variations, named Ultra
    Minimal, Production Ready, Learning Focused and Constraint Heavy in this
    order, and equal arguments give equal lists. *)
Theorem generatePromptVariations_four (basePrompt : string) (options : object) :
  List.length (generatePromptVariations basePrompt options) = 4%nat
  /\ map name (generatePromptVariations basePrompt options)
     = ["Ultra Minimal"; "Production Ready"; "Learning Focused"; "Constraint Heavy"]
  /\ (forall basePrompt' options',
        basePrompt' = basePrompt -> options' = options ->
        generatePromptVariations basePrompt' options'
        = generatePromptVariations basePrompt options).
Proof.
  split; [ reflexivity | split; [ reflexivity | ] ].
  intros b o -> ->. reflexivity.
Qed.

Lemma generatePromptVariations_four_witness :
  generatePromptVariations "Fix bug. Ask user to clarify if necessary." [("type", VStr "fix")]
  = generatePromptVariations "Fix bug. Ask user to clarify if necessary." [("type", VStr "fix")].
Proof.
  apply (generatePromptVariations_four "Fix bug. Ask user to clarify if necessary."
           [("type", VStr "fix")]); reflexivity.
Defined.

(** ** Unknown task types *)

Lemma read_missing {A : Type} (t : list (string * A)) (k : string) :
  ~ In k (map fst t) -> inherited k = false -> read t k = Missing.
Proof.
  intros Hk Hi. unfold read. rewrite Hi.
  induction t as [|[k' a] t IH]; simpl; [ reflexivity | ].
  destruct (String.eqb_spec k k') as [->|Hne].
  - elim Hk. now left.
  - apply IH. intros Hin. apply Hk. now right.
Qed.

Lemma buildPrompt_unknown_type_counterexample :
  ~ In "deploy" known_types
  /\ Web.buildPrompt "deploy" [] <> Ok "unknown type"
  /\ fst (Node.buildPrompt "deploy" []) <> Ok "unknown type".
Proof.
  split; [ | split ]; [ | vm_compute; discriminate | vm_compute; discriminate ].
  simpl. intros H. repeat (destruct H as [H|H]; [ discriminate H | ]). exact H.
Qed.

(** C9, amended. For a type that is none of the six task types and names no
    member inherited from Object.prototype, both builders return the text
    'Unknown prompt type.' whatever the options, and the command line
    builder leaves the options as they were. *)
Theorem buildPrompt_unknown_type (type : string) (options : object) :
  ~ In type known_types ->
  inherited type = false ->
  Web.buildPrompt type options = Ok "Unknown prompt type."
  /\ Node.buildPrompt type options = (Ok "Unknown prompt type.", options).
Proof.
  intros Hk Hi. unfold Web.buildPrompt, Node.buildPrompt.
  rewrite (read_missing Web.PROMPT_TEMPLATES type Hk Hi).
  rewrite (read_missing Node.PROMPT_TEMPLATES type Hk Hi).
  split; reflexivity.
Qed.

Lemma buildPrompt_unknown_type_witness :
  Web.buildPrompt "deploy" [("framework", VStr "react")] = Ok "Unknown prompt type."
  /\ Node.buildPrompt "deploy" [("framework", VStr "react")]
     = (Ok "Unknown prompt type.", [("framework", VStr "react")]).
Proof.
  apply (buildPrompt_unknown_type "deploy" [("framework", VStr "react")]).
  - simpl. intros H. repeat (destruct H as [H|H]; [ discriminate H | ]). exact H.
  - reflexivity.
Defined.

(** A type that names a member of Object.prototype passes the template
    guard: the browser builder throws, the command line builder throws as
    soon as there is a key and otherwise returns a text that starts with
    'undefined'. *)
Lemma buildPrompt_inherited_type :
  ~ In "constructor" known_types
  /\ Web.buildPrompt "constructor" [] = TypeError
  /\ fst (Node.buildPrompt "constructor" [("framework", VStr "react")]) = TypeError
  /\ fst (Node.buildPrompt "constructor" [])
     = Ok "undefined Ask user to clarify if necessary.".
Proof.
  split; [ | repeat split ].
  simpl. intros H. repeat (destruct H as [H|H]; [ discriminate H | ]). exact H.
Qed.

(** ** The builders on any option set *)

(** *** Texts with single braces *)




Lemma includes_cons_brace (c : ascii) (s : string) :
  includes (String c s) "{{" = false ->
  includes s "{{" = false /\ (Ascii.eqb "{" c = true -> closed_off s = true).
Proof.
  rewrite includes_unfold.
  change (strip "{{" (String c s)) with (strip (String "{" "{") (String c s)).
  rewrite strip_cons.
  destruct (Ascii.eqb "{" c).
  - destruct s as [|d s']; [ intros H; split; [ exact H | reflexivity ] | ].
    rewrite strip_cons. destruct (Ascii.eqb "{" d) eqn:E.
    + simpl. discriminate.
    + intros H. split; [ exact H | intros _; cbn [closed_off]; now rewrite E ].
  - intros H. split; [ exact H | discriminate ].
Qed.

Lemma strip_braces_value (q s t : string) :
  includes s "{{" = false -> closed_off t = true ->
  s <> EmptyString ->
  strip (String "{" (String "{" q)) (s ++ t) = None.
Proof.
  intros Hs Ht Hne. destruct s as [|c s]; [ now elim Hne | ].
  apply includes_cons_brace in Hs as [Hs Hc].
  change (String c s ++ t) with (String c (s ++ t)).
  rewrite strip_cons. destruct (Ascii.eqb "{" c); [ | reflexivity ].
  specialize (Hc eq_refl).
  destruct s as [|d s].
  - cbn [append]. destruct t as [|e t]; [ reflexivity | ].
    rewrite strip_cons. cbn [closed_off] in Ht. apply negb_true_iff in Ht. now rewrite Ht.
  - change (String d s ++ t) with (String d (s ++ t)). rewrite strip_cons.
    cbn [closed_off] in Hc. apply negb_true_iff in Hc. now rewrite Hc.
Qed.

Lemma find_value (q s t : string) :
  includes s "{{" = false -> closed_off t = true ->
  find (String "{" (String "{" q)) (s ++ t) =
  match find (String "{" (String "{" q)) t with
  | Some (a, b) => Some (s ++ a, b)
  | None => None
  end.
Proof.
  intros Hs Ht. induction s as [|c s IH].
  - simpl. now destruct (find (String "{" (String "{" q)) t) as [[a b]|].
  - rewrite find_unfold.
    rewrite (strip_braces_value q (String c s) t Hs Ht) by discriminate.
    change (String c s ++ t) with (String c (s ++ t)). cbv iota.
    apply includes_cons_brace in Hs as [Hs _].
    rewrite (IH Hs).
    now destruct (find (String "{" (String "{" q)) t) as [[a b]|].
Qed.

Lemma includes_value (s t : string) :
  includes s "{{" = false -> closed_off t = true ->
  includes (s ++ t) "{{" = includes t "{{".
Proof.
  intros Hs Ht. unfold includes.
  change "{{" with (String "{" (String "{" EmptyString)).
  rewrite (find_value EmptyString s t Hs Ht).
  now destruct (find (String "{" (String "{" EmptyString)) t) as [[a b]|].
Qed.

Lemma includes_text (s t : string) :
  lacks "{" s = true -> includes (s ++ t) "{{" = includes t "{{".
Proof.
  intros Hs. unfold includes.
  change "{{" with (String "{" (String "{" EmptyString)).
  rewrite (find_text _ s t Hs).
  now destruct (find (String "{" (String "{" EmptyString)) t) as [[a b]|].
Qed.



(** *** Loose phrases *)






















(** *** Values *)

Lemma all_values_get (P : value -> bool) (o : object) (k : string) (v : value) :
  all_values P o = true -> get o k = Some v -> P v = true.
Proof.
  unfold all_values. induction o as [|[k0 v0] o IH]; simpl; intros H G; [ discriminate | ].
  apply andb_true_iff in H as [H0 H].
  destruct (String.eqb k k0); [ now inversion G; subst | now apply IH ].
Qed.

(** *** Verbatim texts *)

Lemma includes_comma (a b : string) (c : ascii) :
  Ascii.eqb "{" c = false ->
  includes a "{{" = false -> includes b "{{" = false ->
  includes (a ++ String c b) "{{" = false.
Proof.
  intros Hc Ha Hb.
  apply (includes_boundary "{{" a b c).
  - simpl. rewrite Ascii.eqb_sym, Hc. reflexivity.
  - exact Ha.
  - rewrite includes_unfold.
    change (strip "{{" (String c b)) with (strip (String "{" "{") (String c b)).
    now rewrite strip_cons, Hc.
Qed.



Lemma includes_join (l : list string) :
  forallb (fun s => negb (includes s "{{")) l = true ->
  includes (String.concat "," l) "{{" = false.
Proof.
  induction l as [|s l IH]; intros H; [ reflexivity | ].
  simpl in H. apply andb_true_iff in H as [Hs Hl]. specialize (IH Hl).
  apply negb_true_iff in Hs.
  destruct l as [|s' l]; [ exact Hs | ].
  change (String.concat "," (s :: s' :: l)) with (s ++ String "," (String.concat "," (s' :: l))).
  now apply includes_comma.
Qed.



Lemma open_free_to_string (v : value) :
  open_free_value v = true -> includes (to_string v) "{{" = false.
Proof.
  destruct v as [s|b|l]; cbn [open_free_value to_string]; intros H.
  - now apply negb_true_iff in H.
  - now destruct b.
  - now apply includes_join.
Qed.







(** *** Clauses *)

Lemma lacks_closed_off (s : string) : lacks "{" s = true -> closed_off s = true.
Proof.
  destruct s as [|c s]; [ reflexivity | ]. rewrite lacks_cons. intros H.
  now apply andb_true_iff in H as [H _].
Qed.

Lemma includes_framed (pre v post : string) :
  lacks "{" pre = true -> includes v "{{" = false -> lacks "{" post = true ->
  includes (pre ++ v ++ post) "{{" = false.
Proof.
  intros Hpre Hv Hpost.
  rewrite (includes_text pre _ Hpre).
  rewrite (includes_value v post Hv (lacks_closed_off post Hpost)).
  now apply lacks_includes.
Qed.

Lemma clause_fine_fixed (strict : bool) (c : string) :
  clause_ok c = true -> clause_fine strict c = true.
Proof.
  unfold clause_ok, clause_fine. intros H. apply andb_true_iff in H as [Hb Hne].
  rewrite Hne, (lacks_includes c Hb). now destruct strict.
Qed.

Lemma value_fine_text (strict : bool) (x : value) :
  value_fine strict x = true -> strict = true -> includes (to_string x) "{{" = false.
Proof.
  intros H ->. cbn in H. now apply open_free_to_string.
Qed.

Lemma clause_fine_framed (strict : bool) (pre post : string) (x : value) :
  clause_ok pre = true -> lacks "{" post = true -> value_fine strict x = true ->
  clause_fine strict (pre ++ to_string x ++ post) = true.
Proof.
  intros Hpre Hpost Hx. unfold clause_ok in Hpre. apply andb_true_iff in Hpre as [Hb Hne].
  unfold clause_fine. apply andb_true_iff. split.
  - destruct pre; [ discriminate Hne | reflexivity ].
  - destruct strict eqn:S; [ | reflexivity ]. cbn [negb orb].
    rewrite includes_framed; auto. now apply (value_fine_text true).
Qed.

Section Clauses.

Variable strict : bool.

Lemma fine_push (cs : list string) (c : string) :
  forallb (clause_fine strict) cs = true -> clause_fine strict c = true ->
  forallb (clause_fine strict) (push cs c) = true.
Proof. intros H1 H2. now rewrite forallb_push, H1, H2. Qed.

Lemma push_phrase_fine (cs cs' : list string) (pre : string) (v : option value) (d : dict) :
  push_phrase cs pre v d = Ok cs' ->
  forallb (clause_fine strict) cs = true ->
  forallb (fun kv => clause_ok (pre ++ snd kv)) d = true ->
  forallb (clause_fine strict) cs' = true.
Proof.
  unfold push_phrase. intros H Hcs Hd.
  destruct (truthy v); [ | now injection H as <- ].
  destruct v as [x|]; [ | now injection H as <- ].
  unfold read in H.
  destruct (assoc d (to_string x)) as [phrase|] eqn:E.
  - injection H as <-.
    destruct (assoc_forallb _ d _ _ Hd E) as [k' Hk]. simpl in Hk.
    apply fine_push; [ exact Hcs | now apply clause_fine_fixed ].
  - destruct (inherited (to_string x)); [ discriminate H | now injection H as <- ].
Qed.

Lemma push_member_fine (cs cs' : list string) (pre : string) (v : option value)
    (d : option dict) :
  push_member cs pre v d = Ok cs' ->
  forallb (clause_fine strict) cs = true ->
  (forall d', d = Some d' -> forallb (fun kv => clause_ok (pre ++ snd kv)) d' = true) ->
  forallb (clause_fine strict) cs' = true.
Proof.
  unfold push_member. intros H Hcs Hd.
  destruct (truthy v); [ | now injection H as <- ].
  destruct d as [d|]; [ | discriminate H ].
  apply (push_phrase_fine cs cs' pre v d H Hcs). now apply Hd.
Qed.

Lemma push_guarded_fine (cs cs' : list string) (pre : string) (v : option value)
    (d : option dict) :
  push_guarded cs pre v d = Ok cs' ->
  forallb (clause_fine strict) cs = true ->
  (forall d', d = Some d' -> forallb (fun kv => clause_ok (pre ++ snd kv)) d' = true) ->
  forallb (clause_fine strict) cs' = true.
Proof.
  unfold push_guarded. intros H Hcs Hd.
  destruct d as [d|]; [ | now injection H as <- ].
  apply (push_phrase_fine cs cs' pre v d H Hcs). now apply Hd.
Qed.

Lemma push_text_fine (cs : list string) (pre post : string) (v : option value) :
  forallb (clause_fine strict) cs = true -> read_fine strict v = true ->
  clause_ok pre = true -> lacks "{" post = true ->
  forallb (clause_fine strict) (push_text cs pre v post) = true.
Proof.
  intros Hcs Hv Hpre Hpost. unfold push_text.
  destruct v as [x|]; [ | exact Hcs ].
  destruct (truthy (Some x)); [ | exact Hcs ].
  apply fine_push; [ exact Hcs | now apply clause_fine_framed ].
Qed.

Lemma push_flag_fine (cs : list string) (flag : option value) (c : string) :
  forallb (clause_fine strict) cs = true -> clause_ok c = true ->
  forallb (clause_fine strict) (push_flag cs flag c) = true.
Proof.
  intros Hcs Hc. unfold push_flag.
  destruct (truthy flag && is_true flag); [ | exact Hcs ].
  apply fine_push; [ exact Hcs | now apply clause_fine_fixed ].
Qed.

Lemma push_packageManager_fine (cs : list string) (v : option value) :
  forallb (clause_fine strict) cs = true -> read_fine strict v = true ->
  forallb (clause_fine strict) (push_packageManager cs v) = true.
Proof.
  intros Hcs Hv. unfold push_packageManager.
  destruct (truthy v); [ | exact Hcs ].
  destruct (is_str v "none").
  - apply fine_push; [ exact Hcs | now apply clause_fine_fixed ].
  - now apply push_text_fine.
Qed.

Lemma push_library_fine (cs cs' : list string) (library customLibrary : option value)
    (libraries : option dict) :
  push_library cs library customLibrary libraries = Ok cs' ->
  forallb (clause_fine strict) cs = true ->
  read_fine strict library = true -> read_fine strict customLibrary = true ->
  (forall d, libraries = Some d -> forallb (fun kv => clause_ok (snd kv)) d = true) ->
  forallb (clause_fine strict) cs' = true.
Proof.
  unfold push_library. intros H Hcs Hl Hc Hd. cbv zeta in H.
  match type of H with context [truthy ?t] => set (tl := t) in H end.
  assert (Ht : read_fine strict tl = true) by (subst tl; now destruct (_ && _)).
  destruct (truthy tl); [ | now injection H as <- ].
  destruct libraries as [d|].
  - destruct tl as [[s|b|l]|]; try discriminate H.
    unfold read in H.
    destruct (assoc d (toLowerCase s)) as [phrase|] eqn:E.
    + injection H as <-.
      destruct (assoc_forallb _ d _ _ (Hd d eq_refl) E) as [k' Hk]. simpl in Hk.
      apply fine_push; [ exact Hcs | now apply clause_fine_fixed ].
    + destruct (inherited (toLowerCase s)); [ discriminate H | ].
      injection H as <-. apply fine_push; [ exact Hcs | ].
      pose proof (clause_fine_framed strict "Using " EmptyString (VStr s) eq_refl eq_refl Ht) as F.
      cbn [to_string] in F. now rewrite append_empty in F.
  - injection H as <-. now apply push_text_fine.
Qed.

Lemma diagram_names_fine (types : list value) (names : list string) :
  diagram_names types = Ok names ->
  forallb (value_fine strict) types = true ->
  forallb (name_fine strict) names = true.
Proof.
  revert names. induction types as [|t types IH]; intros names H Ht.
  - now injection H as <-.
  - simpl in Ht. apply andb_true_iff in Ht as [Ht Hts].
    cbn [diagram_names] in H. unfold read in H.
    destruct (assoc diagramTypeNames (to_string t)) as [name|] eqn:F.
    + destruct (diagram_names types) as [names'| |]; cbn [bind] in H; try discriminate H.
      injection H as <-. cbn [forallb]. rewrite (IH names' eq_refl Hts), andb_true_r.
      assert (G : forallb (fun kv => lacks "{" (snd kv)) diagramTypeNames = true)
        by reflexivity.
      destruct (assoc_forallb _ _ _ _ G F) as [k' Hk]. simpl in Hk.
      unfold name_fine. rewrite (lacks_includes name Hk). now destruct strict.
    + destruct (inherited (to_string t)); [ discriminate H | ].
      destruct (diagram_names types) as [names'| |]; cbn [bind] in H; try discriminate H.
      injection H as <-. cbn [forallb]. rewrite (IH names' eq_refl Hts), andb_true_r.
      unfold name_fine. destruct strict eqn:S; [ | reflexivity ].
      cbn [negb orb]. now rewrite (value_fine_text true t Ht eq_refl).
Qed.

Lemma includes_concat_comma (names : list string) :
  forallb (fun n => negb (includes n "{{")) names = true ->
  includes (String.concat ", " names) "{{" = false.
Proof.
  induction names as [|n names IH]; intros H; [ reflexivity | ].
  simpl in H. apply andb_true_iff in H as [Hn Hns]. apply negb_true_iff in Hn.
  specialize (IH Hns).
  destruct names as [|n' names]; [ exact Hn | ].
  change (String.concat ", " (n :: n' :: names))
    with (n ++ String "," (" " ++ String.concat ", " (n' :: names))).
  apply includes_comma; [ reflexivity | exact Hn | ].
  now rewrite (includes_text " " _ eq_refl).
Qed.

Lemma includes_diagram_clause (names tool : string) :
  includes names "{{" = false -> includes tool "{{" = false ->
  includes ("Include " ++ names ++ " using " ++ tool ++ " syntax") "{{" = false.
Proof.
  intros Hn Ht.
  rewrite (includes_text "Include " _ eq_refl).
  rewrite (includes_value names (" using " ++ tool ++ " syntax") Hn eq_refl).
  rewrite (includes_text " using " _ eq_refl).
  now rewrite (includes_value tool " syntax" Ht eq_refl).
Qed.

Lemma push_diagrams_fine (cs cs' : list string) (tool custom : option value)
    (types : list value) :
  push_diagrams cs tool custom types = Ok cs' ->
  forallb (clause_fine strict) cs = true ->
  read_fine strict tool = true -> read_fine strict custom = true ->
  forallb (value_fine strict) types = true ->
  forallb (clause_fine strict) cs' = true.
Proof.
  unfold push_diagrams. intros H Hcs Ht Hc Hty.
  destruct (diagram_names types) as [names| |] eqn:E; cbn [bind] in H; try discriminate H.
  injection H as <-. apply fine_push; [ exact Hcs | ].
  pose proof (diagram_names_fine types names E Hty) as Hn.
  set (t1 := or_else tool (VStr "mermaid")).
  assert (H1 : value_fine strict t1 = true).
  { subst t1. unfold or_else. destruct tool as [x|]; [ | now destruct strict ].
    destruct (truthy (Some x)); [ exact Ht | now destruct strict ]. }
  set (t2 := if is_str tool "other" && truthy custom then or_else custom t1 else t1).
  assert (H2 : value_fine strict t2 = true).
  { subst t2. destruct (_ && _); [ | exact H1 ].
    unfold or_else. destruct custom as [x|]; [ | exact H1 ].
    destruct (truthy (Some x)); [ exact Hc | exact H1 ]. }
  unfold clause_fine. apply andb_true_iff. split; [ reflexivity | ].
  destruct strict eqn:S; [ | reflexivity ]. cbn [negb orb].
  apply negb_true_iff. apply includes_diagram_clause.
  - apply includes_concat_comma. exact Hn.
  - now apply (value_fine_text true).
Qed.

End Clauses.

(** *** The clauses of both builders *)

Ltac side_dict :=
  let d := fresh "d" in
  let Hd := fresh "Hd" in
  intros d Hd; first [ discriminate Hd | injection Hd as <-; reflexivity ].

(** Back through the steps that collected the clauses of a returned
    prompt; [Hq] says that the values read for the clauses are fine. *)
Ltac fine_back :=
  repeat match goal with
         | E : (if ?b then _ else _) = Ok _ |- _ => destruct b; [ | injection E as <- ]
         end;
  repeat first
    [ assumption
    | reflexivity
    | match goal with
      | Hq : forall k, In k _ -> read_fine _ (get _ k) = true
        |- read_fine _ (get _ _) = true => apply Hq; simpl; auto 10
      end
    | apply push_text_fine
    | apply push_flag_fine
    | apply push_packageManager_fine
    | eapply push_phrase_fine; [ eassumption | | ]
    | eapply push_member_fine; [ eassumption | | side_dict ]
    | eapply push_guarded_fine; [ eassumption | | side_dict ]
    | eapply push_library_fine; [ eassumption | | | | side_dict ]
    | eapply push_diagrams_fine; [ eassumption | | | | ] ].

Lemma read_fine_lenient (v : option value) : read_fine false v = true.
Proof. now destruct v. Qed.

Lemma Web_diagram_types_fine (strict : bool) (v : option value) :
  read_fine strict v = true ->
  forallb (value_fine strict) (Web.diagram_types v) = true.
Proof.
  intros Hd. unfold Web.diagram_types.
  destruct v as [x|]; [ | now destruct strict ].
  destruct (truthy (Some x)); [ | now destruct strict ].
  cbn [forallb]. cbn [read_fine] in Hd. now rewrite Hd.
Qed.

Lemma Node_diagram_types_fine (strict : bool) (v : option value) :
  read_fine strict v = true ->
  forallb (value_fine strict) (Node.diagram_types v) = true.
Proof.
  intros Hd. unfold Node.diagram_types.
  destruct v as [[s|b|l]|]; try (now destruct strict).
  - destruct (truthy (Some (VStr s))); [ | now destruct strict ].
    cbn [forallb]. cbn [read_fine] in Hd. now rewrite Hd.
  - destruct (truthy (Some (VBool b))); now destruct strict.
  - cbn [read_fine] in Hd. unfold value_fine in *. destruct strict; [ | now rewrite forallb_forall ].
    cbn [negb orb open_free_value] in *. rewrite forallb_forall in *.
    intros x Hx. apply in_map_iff in Hx as (s & <- & Hs). now apply Hd.
Qed.

Lemma Web_enhance_fine (strict : bool) (type : string) (template : template)
    (options co : object) (prompt prompt' : string) (cs cs' : list string) :
  In type known_types ->
  assoc Web.PROMPT_TEMPLATES type = Some template ->
  (forall k, In k (quoted_keys type) -> read_fine strict (get co k) = true) ->
  forallb (clause_fine strict) cs = true ->
  Web.enhance template type options co prompt cs = Ok (prompt', cs') ->
  forallb (clause_fine strict) cs' = true.
Proof.
  intros Htype HT Hq Hcs H.
  simpl in Htype.
  destruct Htype as [<-|[<-|[<-|[<-|[<-|[<-|[]]]]]]];
    vm_compute in HT; inversion HT; subst template; clear HT;
    unfold Web.enhance in H; simpl (String.eqb _ _) in H; cbv iota in H;
    unfold member in H; simpl (assoc _ _) in H; cbn [withProjectName] in H;
    repeat bind_inv H; injection H as <- <-; fine_back.
  apply Web_diagram_types_fine. fine_back.
Qed.

Lemma Node_enhance_fine (strict : bool) (type : string) (template : template)
    (options : object) (prompt prompt' : string) (cs cs' : list string) :
  In type known_types ->
  assoc Node.PROMPT_TEMPLATES type = Some template ->
  (forall k, In k (quoted_keys type) -> read_fine strict (get options k) = true) ->
  forallb (clause_fine strict) cs = true ->
  Node.enhance template type options prompt cs = Ok (prompt', cs') ->
  forallb (clause_fine strict) cs' = true.
Proof.
  intros Htype HT Hq Hcs H.
  simpl in Htype.
  destruct Htype as [<-|[<-|[<-|[<-|[<-|[<-|[]]]]]]];
    vm_compute in HT; inversion HT; subst template; clear HT;
    unfold Node.enhance in H; simpl (String.eqb _ _) in H; cbv iota in H;
    unfold member in H; simpl (assoc _ _) in H; cbn [withProjectName] in H;
    repeat bind_inv H; injection H as <- <-; fine_back.
  apply Node_diagram_types_fine. fine_back.
Qed.

Lemma Web_parts_fine (strict : bool) (type : string) (template : template)
    (options : object) (phrase : string) (cs : list string) :
  In type known_types ->
  assoc Web.PROMPT_TEMPLATES type = Some template ->
  (forall k, In k (quoted_keys type) ->
     read_fine strict (get (Web_complete options) k) = true) ->
  Web.parts template type options = Ok (phrase, cs) ->
  forallb (clause_fine strict) cs = true.
Proof.
  intros Htype HT Hq H.
  unfold Web.parts in H. cbv zeta in H.
  change (Web.custom_framework (spread Web.fallbackValues options))
    with (Web_complete options) in H.
  repeat bind_inv H. injection H as _ <-.
  match goal with
  | E : Web.enhance _ _ _ _ _ _ = Ok ?a |- _ =>
      destruct a as [p' cs']; cbn [snd];
      apply (Web_enhance_fine strict type template options _ _ _ _ _ Htype HT Hq) in E;
      [ exact E | ]
  end.
  fine_back.
Qed.

Lemma Node_parts_fine (strict : bool) (type : string) (template : template)
    (options : object) (phrase : string) (cs : list string) :
  In type known_types ->
  assoc Node.PROMPT_TEMPLATES type = Some template ->
  (forall k, In k (quoted_keys type) -> read_fine strict (get options k) = true) ->
  Node.parts template type options = Ok (phrase, cs) ->
  forallb (clause_fine strict) cs = true.
Proof.
  intros Htype HT Hq H.
  unfold Node.parts in H. cbv zeta in H.
  repeat bind_inv H.
  apply (Node_enhance_fine strict type template options _ _ _ _ Htype HT Hq) in H;
    [ exact H | ].
  assert (F : forallb (clause_fine strict) a0 = true).
  { clear - E0 HT.
    destruct (String.eqb_spec type "init") as [->|_]; [ | now injection E0 as <- ].
    vm_compute in HT. inversion HT; subst template; clear HT.
    unfold member in E0. simpl (assoc _ _) in E0. fine_back. }
  fine_back.
Qed.

(** *** The values a builder reads *)

Lemma get_in (o : object) (k : string) (v : value) : get o k = Some v -> In (k, v) o.
Proof.
  induction o as [|[k0 v0] o IH]; simpl; [ discriminate | ].
  destruct (String.eqb_spec k k0) as [->|_].
  - intros [= ->]. now left.
  - intros H. right. now apply IH.
Qed.

Lemma get_set_cases (o : object) (k k' : string) (v v' : value) :
  get (set o k v) k' = Some v' -> (k' = k /\ v' = v) \/ get o k' = Some v'.
Proof.
  destruct (String.eqb_spec k' k) as [->|Hne].
  - rewrite get_set_same. intros [= ->]. now left.
  - rewrite (get_set_other o k k' v Hne). now right.
Qed.

Lemma get_spread_cases (a b : object) (k : string) (v : value) :
  get (spread a b) k = Some v -> get a k = Some v \/ In (k, v) b.
Proof.
  unfold spread. revert a. induction b as [|[k0 v0] b IH]; intros a H; [ now left | ].
  simpl in H. destruct (IH _ H) as [G|G]; [ | right; now right ].
  destruct (get_set_cases a k0 k v0 v G) as [[-> ->]|G']; [ right; now left | now left ].
Qed.

Lemma Web_complete_get (options : object) (k : string) (v : value) :
  get (Web_complete options) k = Some v ->
  get Web.fallbackValues k = Some v \/ In (k, v) options
  \/ (k = "framework" /\ In ("customFramework", v) options).
Proof.
  unfold Web_complete, Web.custom_framework.
  destruct (get (spread Web.fallbackValues options) "customFramework") as [custom|] eqn:E;
    [ destruct (_ && _) | ]; intros H;
    try (destruct (get_spread_cases _ _ _ _ H) as [G|G]; now auto).
  destruct (get_set_cases _ _ _ _ _ H) as [[-> ->]|G].
  - destruct (get_spread_cases _ _ _ _ E) as [G|G]; [ discriminate G | auto ].
  - destruct (get_spread_cases _ _ _ _ G) as [G'|G']; auto.
Qed.

Lemma Node_custom_framework_get (options : object) (k : string) (v : value) :
  get (Node.custom_framework options) k = Some v ->
  In (k, v) options \/ (k = "framework" /\ In ("customFramework", v) options).
Proof.
  unfold Node.custom_framework.
  destruct (get options "customFramework") as [custom|] eqn:E;
    [ destruct (_ && _) | ]; intros H; try (left; now apply get_in).
  destruct (get_set_cases _ _ _ _ _ H) as [[-> ->]|G].
  - right. split; [ reflexivity | now apply get_in ].
  - left. now apply get_in.
Qed.

Lemma in_existsb_key (k : string) (l : list string) :
  In k l -> existsb (String.eqb k) l = true.
Proof. intros H. apply existsb_exists. exists k. split; [ exact H | apply String.eqb_refl ]. Qed.






(** *** The first pass on verbatim values *)






(** *** The dictionary replacement of the switch *)











(** *** When the builders return *)

Lemma returns_Ok {A : Type} (a : A) : returns (Ok a).
Proof. now exists a. Qed.

Lemma returns_bind {A B : Type} (r : result A) (k : A -> result B) :
  returns r -> (forall a, returns (k a)) -> returns (bind r k).
Proof. intros [a ->] H. apply H. Qed.

Lemma plain_value_text (x : value) : plain_value x = true -> plain (to_string x) = true.
Proof.
  destruct x as [s|b|l]; cbn [plain_value to_string]; intros H.
  - exact H.
  - now destruct b.
  - now apply andb_true_iff in H as [_ H].
Qed.

Lemma push_phrase_returns (cs : list string) (pre : string) (v : option value) (d : dict) :
  plain_read v = true -> returns (push_phrase cs pre v d).
Proof.
  intros Hv. unfold push_phrase.
  destruct (truthy v); [ | apply returns_Ok ].
  destruct v as [x|]; [ | apply returns_Ok ].
  rewrite (read_plain d (to_string x) (plain_value_text x Hv)).
  destruct (assoc d (to_string x)); apply returns_Ok.
Qed.

Lemma push_member_returns (cs : list string) (pre : string) (v : option value) (d : dict) :
  plain_read v = true -> returns (push_member cs pre v (Some d)).
Proof.
  intros Hv. unfold push_member.
  destruct (truthy v); [ now apply push_phrase_returns | apply returns_Ok ].
Qed.

Lemma push_guarded_returns (cs : list string) (pre : string) (v : option value)
    (d : option dict) :
  plain_read v = true -> returns (push_guarded cs pre v d).
Proof.
  intros Hv. unfold push_guarded.
  destruct d; [ now apply push_phrase_returns | apply returns_Ok ].
Qed.

Lemma replace_phrase_returns (subst : string -> string -> string -> string)
    (prompt h : string) (v : option value) (d : dict) :
  plain_read v = true -> returns (replace_phrase subst prompt h v (Some d)).
Proof.
  intros Hv. unfold replace_phrase.
  destruct (truthy v); [ | apply returns_Ok ].
  destruct v as [x|]; [ | apply returns_Ok ].
  rewrite (read_plain d (to_string x) (plain_value_text x Hv)).
  destruct (assoc d (to_string x)); apply returns_Ok.
Qed.

Lemma push_library_returns (cs : list string) (library customLibrary : option value)
    (libraries : option dict) :
  plain_read library = true -> plain_read customLibrary = true ->
  texty library = true -> texty customLibrary = true ->
  returns (push_library cs library customLibrary libraries).
Proof.
  intros Hl Hc Tl Tc. unfold push_library.
  set (tl := if is_str library "Other" && truthy customLibrary then customLibrary else library).
  assert (Hp : plain_read tl = true) by (subst tl; now destruct (_ && _)).
  assert (Ht : texty tl = true) by (subst tl; now destruct (_ && _)).
  destruct (truthy tl) eqn:Htr; [ | apply returns_Ok ].
  destruct libraries as [d|]; [ | apply returns_Ok ].
  destruct tl as [[s|b|l]|]; try discriminate.
  - cbn [plain_read plain_value] in Hp. unfold plain in Hp.
    apply andb_true_iff in Hp as [_ Hp]. apply negb_true_iff in Hp.
    unfold read. rewrite Hp. destruct (assoc d (toLowerCase s)); apply returns_Ok.
  - destruct b; discriminate.
Qed.

Lemma push_library_none_returns (cs : list string) (library customLibrary : option value) :
  returns (push_library cs library customLibrary None).
Proof.
  unfold push_library.
  destruct (truthy (if is_str library "Other" && truthy customLibrary
                    then customLibrary else library)); apply returns_Ok.
Qed.

Lemma diagram_names_returns (types : list value) :
  forallb plain_value types = true -> returns (diagram_names types).
Proof.
  induction types as [|t types IH]; intros H; [ apply returns_Ok | ].
  simpl in H. apply andb_true_iff in H as [Ht Hts].
  destruct (IH Hts) as (names & E).
  cbn [diagram_names]. rewrite (read_plain diagramTypeNames _ (plain_value_text t Ht)).
  destruct (assoc diagramTypeNames (to_string t)); rewrite E; apply returns_Ok.
Qed.

Lemma push_diagrams_returns (cs : list string) (tool custom : option value)
    (types : list value) :
  forallb plain_value types = true -> returns (push_diagrams cs tool custom types).
Proof.
  intros H. unfold push_diagrams.
  destruct (diagram_names_returns types H) as (names & ->). apply returns_Ok.
Qed.

Lemma Web_diagram_types_plain (v : option value) :
  plain_read v = true -> forallb plain_value (Web.diagram_types v) = true.
Proof.
  intros Hd. unfold Web.diagram_types.
  destruct v as [x|]; [ | reflexivity ].
  destruct (truthy (Some x)); [ | reflexivity ].
  cbn [forallb]. cbn [plain_read] in Hd. now rewrite Hd.
Qed.

Lemma Node_diagram_types_plain (v : option value) :
  plain_read v = true -> forallb plain_value (Node.diagram_types v) = true.
Proof.
  intros Hd. unfold Node.diagram_types.
  destruct v as [[s|b|l]|]; try reflexivity.
  - destruct (truthy (Some (VStr s))); [ | reflexivity ].
    cbn [forallb]. cbn [plain_read] in Hd. now rewrite Hd.
  - destruct (truthy (Some (VBool b))); reflexivity.
  - cbn [plain_read plain_value] in Hd. apply andb_true_iff in Hd as [Hd _].
    rewrite forallb_forall in *. intros x Hx.
    apply in_map_iff in Hx as (s & <- & Hs). now apply Hd.
Qed.

Lemma Web_substitute_returns (skip : string -> bool) (prompt : string) (co : object) :
  forallb option_name (keys co) = true -> returns (Web.substitute skip prompt co).
Proof. intros H. unfold Web.substitute. rewrite H. apply returns_Ok. Qed.

Lemma Node_substitute_returns (prompt : string) (options : object) :
  forallb option_name (keys options) = true -> returns (Node.substitute prompt options).
Proof. intros H. unfold Node.substitute. rewrite H. apply returns_Ok. Qed.

Ltac returns_chain :=
  repeat first
    [ apply returns_Ok
    | apply push_phrase_returns
    | apply push_member_returns
    | apply push_guarded_returns
    | apply replace_phrase_returns
    | apply push_library_none_returns
    | apply push_library_returns
    | apply push_diagrams_returns
    | apply Web_substitute_returns
    | apply Node_substitute_returns
    | apply returns_bind; [ | intros ? ]
    | match goal with
      | H : forall k, In k _ -> plain_read (get _ k) = true |- plain_read (get _ _) = true =>
          apply H; simpl; tauto
      | H : forall k, In k _ -> texty (get _ k) = true |- texty (get _ _) = true =>
          apply H; simpl; tauto
      end
    | assumption
    | match goal with |- returns (if ?b then _ else _) => destruct b end
    | match goal with |- returns (let (_, _) := ?p in _) => destruct p end ].

Lemma Web_enhance_returns (type : string) (template : template) (options co : object)
    (prompt : string) (cs : list string) :
  In type known_types ->
  assoc Web.PROMPT_TEMPLATES type = Some template ->
  (forall k, In k (Web_texts type) -> texty (get options k) = true) ->
  forallb option_name (keys co) = true ->
  (forall k, In k (Web_looked_up type) -> plain_read (get co k) = true) ->
  returns (Web.enhance template type options co prompt cs).
Proof.
  intros Htype HT Hname Hk Hv.
  simpl in Htype.
  destruct Htype as [<-|[<-|[<-|[<-|[<-|[<-|[]]]]]]];
    vm_compute in HT; inversion HT; subst template; clear HT;
    unfold Web.enhance; simpl (String.eqb _ _); cbv iota;
    unfold member; simpl (assoc _ _); cbn [withProjectName];
    try solve [ returns_chain ].
  - specialize (Hname "projectName" (or_introl eq_refl)).
    returns_chain.
    destruct (get options "projectName") as [[s|[|]|l]|]; try discriminate Hname;
      returns_chain.
  - returns_chain. apply Web_diagram_types_plain. apply Hv. simpl. tauto.
Qed.

Lemma Node_enhance_returns (type : string) (template : template) (options : object)
    (prompt : string) (cs : list string) :
  In type known_types ->
  assoc Node.PROMPT_TEMPLATES type = Some template ->
  (forall k, In k (Node_texts type) -> texty (get options k) = true) ->
  forallb option_name (keys options) = true ->
  (forall k, In k (Node_looked_up type) -> plain_read (get options k) = true) ->
  returns (Node.enhance template type options prompt cs).
Proof.
  intros Htype HT Hname Hk Hv.
  simpl in Htype.
  destruct Htype as [<-|[<-|[<-|[<-|[<-|[<-|[]]]]]]];
    vm_compute in HT; inversion HT; subst template; clear HT;
    unfold Node.enhance; simpl (String.eqb _ _); cbv iota;
    unfold member; simpl (assoc _ _); cbn [withProjectName];
    try solve [ returns_chain ].
  - specialize (Hname "projectName" (or_introl eq_refl)).
    returns_chain.
    destruct (get options "projectName") as [[s|[|]|l]|]; try discriminate Hname;
      returns_chain.
  - returns_chain. apply Node_diagram_types_plain. apply Hv. simpl. tauto.
Qed.

Lemma followed_parts (looked_up texts : list string) (o : object) :
  followed looked_up texts o = true ->
  forallb option_name (keys o) = true
  /\ (forall k v, In (k, v) o -> In k looked_up -> plain_value v = true)
  /\ (forall k v, In (k, v) o -> In k texts -> texty (Some v) = true).
Proof.
  unfold followed. intros H. apply andb_true_iff in H as [Hk H].
  rewrite forallb_forall in H. split; [ exact Hk | ].
  split; intros k v Hin Hl; specialize (H _ Hin); cbn [fst snd] in H;
    apply andb_true_iff in H as [H1 H2]; apply in_existsb_key in Hl.
  - now rewrite Hl in H1.
  - now rewrite Hl in H2.
Qed.

Lemma looked_up_common (type k : string) :
  In k ["outputFormat"; "complexity"; "codeStyle"; "fileStructure"; "dependencies"] ->
  In k (Web_looked_up type) /\ In k (Node_looked_up type).
Proof.
  intros H. unfold Node_looked_up, Web_looked_up. rewrite !in_app_iff. tauto.
Qed.

Lemma looked_up_framework (type : string) :
  ~ In "framework" (Web_looked_up type)
  /\ (In "framework" (Node_looked_up type) -> In "customFramework" (Node_looked_up type))
  /\ ~ In "framework" (Node_texts type).
Proof.
  unfold Node_looked_up, Web_looked_up, Node_texts.
  repeat match goal with |- context [String.eqb ?a ?b] => destruct (String.eqb a b) end;
    simpl; intuition discriminate.
Qed.

(** The browser builder returns a prompt on a followed option set. *)
Lemma Web_buildPrompt_returns (type : string) (options : object) :
  In type known_types ->
  followed (Web_looked_up type) (Web_texts type) options = true ->
  exists out, Web.buildPrompt type options = Ok out.
Proof.
  intros Htype Hf.
  destruct (followed_parts _ _ options Hf) as (Hk & Hv & Ht).
  destruct (Web_known_template type Htype) as (template & HT & HR & _).
  unfold Web.buildPrompt. rewrite HR.
  assert (Hco : forall k, In k (Web_looked_up type) ->
            plain_read (get (Web_complete options) k) = true).
  { intros k Hin. destruct (get (Web_complete options) k) as [v|] eqn:G; [ | reflexivity ].
    cbn [plain_read].
    destruct (Web_complete_get options k v G) as [G'|[G'|[-> G']]].
    - now apply (all_values_get plain_value Web.fallbackValues k v).
    - now apply (Hv k v).
    - now destruct (proj1 (looked_up_framework type)). }
  assert (Hto : forall k, In k (Web_texts type) -> texty (get options k) = true).
  { intros k Hin. destruct (get options k) as [v|] eqn:G; [ | reflexivity ].
    apply (Ht k v); [ now apply get_in | exact Hin ]. }
  assert (Hkco : forallb option_name (keys (Web_complete options)) = true).
  { unfold Web_complete, Web.custom_framework.
    assert (K0 : forallb option_name (keys (spread Web.fallbackValues options)) = true)
      by (apply spread_keys; [ reflexivity | exact Hk ]).
    destruct (get (spread Web.fallbackValues options) "customFramework"); [ | exact K0 ].
    destruct (_ && _); [ | exact K0 ]. apply keys_set; [ reflexivity | exact K0 ]. }
  assert (Hcm : forall k,
            In k ["outputFormat"; "complexity"; "codeStyle"; "fileStructure"; "dependencies"] ->
            plain_read (get (Web_complete options) k) = true)
    by (intros k Hin; now apply Hco, looked_up_common).
  change (returns (pc <- Web.parts template type options ;; Ok (finish (fst pc) (snd pc)))).
  apply returns_bind; [ | intros ?; apply returns_Ok ].
  unfold Web.parts. cbv zeta.
  change (Web.custom_framework (spread Web.fallbackValues options))
    with (Web_complete options).
  pose proof (Web_enhance_returns type template options (Web_complete options)) as He.
  returns_chain. apply He; assumption.
Qed.

(** The command line builder returns a prompt on a followed option set. *)
Lemma Node_buildPrompt_returns (type : string) (options : object) :
  In type known_types ->
  followed (Node_looked_up type) (Node_texts type) options = true ->
  exists out, fst (Node.buildPrompt type options) = Ok out.
Proof.
  intros Htype Hf.
  destruct (followed_parts _ _ options Hf) as (Hk & Hv & Ht).
  destruct (looked_up_framework type) as (_ & F1 & F2).
  destruct (Node_known_template type Htype) as (template & HT & HR & _).
  unfold Node.buildPrompt. rewrite HR. cbn [fst].
  set (options' := Node.custom_framework options).
  assert (Hco : forall k, In k (Node_looked_up type) -> plain_read (get options' k) = true).
  { intros k Hin. destruct (get options' k) as [v|] eqn:G; [ | reflexivity ].
    cbn [plain_read].
    destruct (Node_custom_framework_get options k v G) as [G'|[-> G']].
    - now apply (Hv k v).
    - apply (Hv "customFramework" v G'). now apply F1. }
  assert (Hto : forall k, In k (Node_texts type) -> texty (get options' k) = true).
  { intros k Hin. destruct (get options' k) as [v|] eqn:G; [ | reflexivity ].
    destruct (Node_custom_framework_get options k v G) as [G'|[-> G']].
    - now apply (Ht k v).
    - now elim F2. }
  assert (Hk' : forallb option_name (keys options') = true).
  { unfold options', Node.custom_framework.
    destruct (get options "customFramework"); [ | exact Hk ].
    destruct (_ && _); [ | exact Hk ]. apply keys_set; [ reflexivity | exact Hk ]. }
  assert (Hcm : forall k,
            In k ["outputFormat"; "complexity"; "codeStyle"; "fileStructure"; "dependencies"] ->
            plain_read (get options' k) = true)
    by (intros k Hin; now apply Hco, looked_up_common).
  change (returns (pc <- Node.parts template type options' ;; Ok (finish (fst pc) (snd pc)))).
  apply returns_bind; [ | intros ?; apply returns_Ok ].
  unfold Node.parts. cbv zeta.
  pose proof (Node_enhance_returns type template options') as He.
  assert (Hfw : String.eqb type "init" = true ->
            plain_read (get options' "framework") = true).
  { intros E. apply Hco. unfold Node_looked_up. rewrite E, in_app_iff. simpl. tauto. }
  destruct (String.eqb type "init"); [ specialize (Hfw eq_refl) | clear Hfw ]; cbv iota;
    returns_chain; apply He; assumption.
Qed.



(** *** The last two steps *)




Lemma concat_fine_nonempty (strict : bool) (cs : list string) :
  cs <> [] -> forallb (clause_fine strict) cs = true -> String.concat ", " cs <> EmptyString.
Proof.
  destruct cs as [|c cs]; [ now intros H | ]. intros _ H.
  simpl in H. apply andb_true_iff in H as [Hc _].
  unfold clause_fine in Hc. apply andb_true_iff in Hc as [Hc _].
  destruct c as [|x c]; [ discriminate Hc | ].
  destruct cs; simpl; discriminate.
Qed.

(** The shape of the result, and when it names its constraints. *)
Lemma finish_constraints (phrase : string) (cs : list string) :
  forallb (clause_fine false) cs = true ->
  constraints_segment phrase cs (finish phrase cs).
Proof.
  intros Hcs. split; [ now intros -> | split ].
  - intros Hne. split; [ now apply (concat_fine_nonempty false) | ].
    unfold finish. destruct cs as [|c cs]; [ now elim Hne | ].
    now rewrite !append_append.
  - intros Hp.
    assert (Hnone : includes (phrase ++ " Ask user to clarify if necessary.") "Constraints:"
                    = false)
      by (apply (includes_boundary "Constraints:" phrase _ " "); [ reflexivity | exact Hp | reflexivity ]).
    split; [ split | ].
    + intros H ->. unfold finish in H. rewrite Hnone in H. discriminate.
    + intros Hne. unfold finish. destruct cs as [|c cs]; [ now elim Hne | ].
      rewrite !append_append.
      change (". Constraints: " ++ String.concat ", " (c :: cs) ++ "." ++ " Ask user to clarify if necessary.")
        with (". " ++ "Constraints:" ++ " " ++ String.concat ", " (c :: cs) ++ "." ++ " Ask user to clarify if necessary.").
      rewrite <- (append_append phrase ". ").
      apply includes_append.
    + intros ->. unfold finish.
      apply (includes_prefix "Constraints:" " ." _ Hnone).
Qed.

(** *** What a returned prompt is made of *)

Lemma Web_buildPrompt_parts (type : string) (options : object) (out : string) :
  In type known_types -> Web.buildPrompt type options = Ok out ->
  exists template phrase cs,
    assoc Web.PROMPT_TEMPLATES type = Some template
    /\ read Web.PROMPT_TEMPLATES type = Own template
    /\ Web.parts template type options = Ok (phrase, cs)
    /\ out = finish phrase cs.
Proof.
  intros Htype H.
  destruct (Web_known_template type Htype) as (template & HT & HR & _).
  unfold Web.buildPrompt in H. rewrite HR in H.
  destruct (Web.parts template type options) as [[phrase cs]| |] eqn:E;
    cbn [bind fst snd] in H; try discriminate H.
  injection H as <-. now exists template, phrase, cs.
Qed.

Lemma Node_buildPrompt_parts (type : string) (options : object) (out : string) :
  In type known_types -> fst (Node.buildPrompt type options) = Ok out ->
  exists template phrase cs,
    assoc Node.PROMPT_TEMPLATES type = Some template
    /\ read Node.PROMPT_TEMPLATES type = Own template
    /\ Node.parts template type (Node.custom_framework options) = Ok (phrase, cs)
    /\ out = finish phrase cs.
Proof.
  intros Htype H.
  destruct (Node_known_template type Htype) as (template & HT & HR & _).
  unfold Node.buildPrompt in H. rewrite HR in H. cbn [fst] in H.
  destruct (Node.parts template type (Node.custom_framework options)) as [[phrase cs]| |] eqn:E;
    cbn [bind fst snd] in H; try discriminate H.
  injection H as <-. now exists template, phrase, cs.
Qed.


(** *** What a substitution leaves in place *)





























(** *** Replacement patterns in values without braces *)


















(** ** The claims about the builders *)


(** A replacement pattern in a value copies text of the phrase: with the
    text after the match behind a value that ends with an opening brace, two
    braces meet that the cleanup does not take for a placeholder. *)
Example replacement_pattern_scenario :
  Web.buildPrompt "init" [("framework", VStr "x{"); ("projectName", VStr "$'{")]
  = Ok "Create node project called '' with x{{' with x{ Ask user to clarify if necessary."
  /\ includes "x{" "{{" = false /\ includes "$'{" "{{" = false.
Proof. repeat split. Qed.



(** The option set of the witness: a dollar that starts no pattern and
    single braces in the substituted values, a pattern in a quoted value and
    two braces in a value that is not copied; every hypothesis of the
    theorem holds, and the option set is not well-formed.  A component named
    after a member of Object.prototype is as good. *)
Example verbatim_scenario :
  let options :=
    [("issue", VStr "a $5 fee"); ("component", VStr "{"); ("approach", VStr "patch");
     ("errorMessage", VStr "$& at {"); ("notes", VStr "{{")] in
  copies (Web_substituted "fix") (quoted_keys "fix") options = true
  /\ copies (Node_substituted "fix") (quoted_keys "fix") options = true
  /\ followed (Web_looked_up "fix") (Web_texts "fix") options = true
  /\ followed (Node_looked_up "fix") (Node_texts "fix") options = true
  /\ well_formed options = false
  /\ Web.buildPrompt "fix" options
     = Ok ("Fix a $5 fee in { using patch. Constraints: Error: " ++ dquote ++ "$& at {"
           ++ dquote ++ ". Ask user to clarify if necessary.")
  /\ fst (Node.buildPrompt "fix" options)
     = Ok ("Fix a $5 fee in { using patch. Constraints: Error context: " ++ dquote
           ++ "$& at {" ++ dquote ++ ". Ask user to clarify if necessary.")
  /\ followed (Web_looked_up "fix") (Web_texts "fix") [("component", VStr "constructor")] = true
  /\ Web.buildPrompt "fix" [("component", VStr "constructor")]
     = Ok "Fix bug in constructor using debug Ask user to clarify if necessary.".
Proof. cbv zeta. repeat split. Qed.

(** Values with replacement patterns and no brace: the browser builder
    closes what the patterns copy, the command line builder keeps the
    placeholder that the pattern for the match writes back. *)
Example pattern_values_scenario :
  let options :=
    [("issue", VStr "the `$` sign"); ("component", VStr "$&"); ("approach", VStr "$'")] in
  expands (Web_substituted "fix") (quoted_keys "fix") options = true
  /\ copies (Web_substituted "fix") (quoted_keys "fix") options = false
  /\ Web.buildPrompt "fix" options
     = Ok "Fix the `Fix  sign in component using  Ask user to clarify if necessary."
  /\ fst (Node.buildPrompt "fix" options)
     = Ok "Fix the `Fix  sign in {{component}} using  Ask user to clarify if necessary.".
Proof. cbv zeta. repeat split. Qed.










(** The prompt of the witness: the blank library reads Jest, the word of
    the fallback table, and the prompt is the filled phrase.  Behind a
    module whose replacement pattern copies the rest of the phrase and whose
    braces stay, the library reads Jest as well. *)
Example fallback_scenario :
  Web.buildPrompt "testing" [("module", VStr "a $5 {cart}"); ("library", VStr EmptyString)]
  = Ok "Write unit tests for a $5 {cart} using Jest Ask user to clarify if necessary."
  /\ copies (Web_substituted "testing") []
       [("module", VStr "a $5 {cart}"); ("library", VStr EmptyString)] = true
  /\ render
       (fill_with
          (Web_filler "testing"
             (Web_complete [("module", VStr "a $5 {cart}"); ("library", VStr EmptyString)]))
          (Web_tokens "testing" [("module", VStr "a $5 {cart}"); ("library", VStr EmptyString)]))
     = "Write unit tests for a $5 {cart} using Jest"
  /\ Web.buildPrompt "testing" [("module", VStr "a $' {{cart"); ("library", VStr EmptyString)]
     = Ok ("Write unit tests for a  using Jest {{cart using Jest"
           ++ " Ask user to clarify if necessary.").
Proof. repeat split. Qed.

(** Option text is copied into the phrase as it is: a feature named after
    the segment puts its words into the prompt though no clause was
    collected. *)
Example constraints_text_scenario :
  In "feature" known_types
  /\ (exists template,
        read Web.PROMPT_TEMPLATES "feature" = Own template
        /\ Web.parts template "feature" [("feature", VStr "Constraints: .")]
           = Ok ("Implement Constraints: . as function", []))
  /\ Web.buildPrompt "feature" [("feature", VStr "Constraints: .")]
     = Ok "Implement Constraints: . as function Ask user to clarify if necessary."
  /\ includes "Implement Constraints: . as function Ask user to clarify if necessary."
       "Constraints:" = true
  /\ includes "Implement Constraints: . as function Ask user to clarify if necessary."
       "Constraints: ." = true.
Proof.
  split; [ simpl; auto | ]. split; [ eexists; split; reflexivity | ].
  repeat split.
Qed.

(** C5. For a known task type, a prompt that a builder returns is the
    phrase, then the segment '. Constraints: ' with the clauses joined by
    ', ' and a full stop when a clause was collected and nothing otherwise,
    then the clarification request; the joined clauses are never empty.
    When the phrase itself does not contain 'Constraints:', the prompt
    contains 'Constraints:' exactly when a clause was collected, and
    without a clause it does not contain 'Constraints: .'.  A builder
    returns a prompt on every option set with plain option names for keys in
    which the values it looks up in a table name no member of
    Object.prototype and the values it calls a method of texts on are false
    or text. *)
Theorem buildPrompt_constraints_segment (type : string) (options : object) :
  In type known_types ->
  (forall out,
     Web.buildPrompt type options = Ok out ->
     exists template phrase cs,
       read Web.PROMPT_TEMPLATES type = Own template
       /\ Web.parts template type options = Ok (phrase, cs)
       /\ out = finish phrase cs
       /\ constraints_segment phrase cs out)
  /\ (forall out,
        fst (Node.buildPrompt type options) = Ok out ->
        exists template phrase cs,
          read Node.PROMPT_TEMPLATES type = Own template
          /\ Node.parts template type (Node.custom_framework options) = Ok (phrase, cs)
          /\ out = finish phrase cs
          /\ constraints_segment phrase cs out)
  /\ (followed (Web_looked_up type) (Web_texts type) options = true ->
      exists out, Web.buildPrompt type options = Ok out)
  /\ (followed (Node_looked_up type) (Node_texts type) options = true ->
      exists out, fst (Node.buildPrompt type options) = Ok out).
Proof.
  intros Htype. split; [ | split; [ | split ] ].
  - intros out H.
    destruct (Web_buildPrompt_parts type options out Htype H)
      as (template & phrase & cs & HT & HR & E & ->).
    exists template, phrase, cs.
    split; [ exact HR | split; [ exact E | split; [ reflexivity | ] ] ].
    apply finish_constraints.
    exact (Web_parts_fine false type template options _ cs Htype HT
             (fun k _ => read_fine_lenient _) E).
  - intros out H.
    destruct (Node_buildPrompt_parts type options out Htype H)
      as (template & phrase & cs & HT & HR & E & ->).
    exists template, phrase, cs.
    split; [ exact HR | split; [ exact E | split; [ reflexivity | ] ] ].
    apply finish_constraints.
    exact (Node_parts_fine false type template _ _ cs Htype HT
             (fun k _ => read_fine_lenient _) E).
  - now apply Web_buildPrompt_returns.
  - now apply Node_buildPrompt_returns.
Qed.

Lemma buildPrompt_constraints_segment_witness :
  (forall out,
     Web.buildPrompt "fix" [("issue", VStr "Constraints: ."); ("priority", VStr "high")]
     = Ok out ->
     exists template phrase cs,
       read Web.PROMPT_TEMPLATES "fix" = Own template
       /\ Web.parts template "fix" [("issue", VStr "Constraints: ."); ("priority", VStr "high")]
          = Ok (phrase, cs)
       /\ out = finish phrase cs
       /\ constraints_segment phrase cs out)
  /\ (forall out,
        fst (Node.buildPrompt "fix" [("issue", VStr "Constraints: ."); ("priority", VStr "high")])
        = Ok out ->
        exists template phrase cs,
          read Node.PROMPT_TEMPLATES "fix" = Own template
          /\ Node.parts template "fix"
               (Node.custom_framework
                  [("issue", VStr "Constraints: ."); ("priority", VStr "high")])
             = Ok (phrase, cs)
          /\ out = finish phrase cs
          /\ constraints_segment phrase cs out)
  /\ (followed (Web_looked_up "fix") (Web_texts "fix")
        [("issue", VStr "Constraints: ."); ("priority", VStr "high")] = true ->
      exists out,
        Web.buildPrompt "fix" [("issue", VStr "Constraints: ."); ("priority", VStr "high")]
        = Ok out)
  /\ (followed (Node_looked_up "fix") (Node_texts "fix")
        [("issue", VStr "Constraints: ."); ("priority", VStr "high")] = true ->
      exists out,
        fst (Node.buildPrompt "fix"
               [("issue", VStr "Constraints: ."); ("priority", VStr "high")])
        = Ok out).
Proof.
  apply (buildPrompt_constraints_segment "fix"
           [("issue", VStr "Constraints: ."); ("priority", VStr "high")]).
  simpl. auto 10.
Defined.

(** * Further properties *)

(** ** The analyzer in characters *)

Lemma split_length_count (c : ascii) (s : string) :
  split_length c s = S (count_char c s).
Proof.
  induction s as [|d t IH]; [ reflexivity | ].
  cbn [split_length count_char]. destruct (Ascii.eqb d c); now rewrite IH.
Qed.

Lemma count_char_append (c : ascii) (a b : string) :
  count_char c (a ++ b) = (count_char c a + count_char c b)%nat.
Proof.
  induction a as [|d a IH]; [ reflexivity | ].
  simpl. destruct (Ascii.eqb d c); simpl; now rewrite IH.
Qed.

(** X1. The rating of analyzeTokenEfficiency in characters: a prompt is
    excellent up to 476 characters, good from 477 to 876, fair from 877 to
    1276 and verbose from 1277 on. *)
Theorem analyzeTokenEfficiency_length_bands (prompt : string) :
  let n := String.length prompt in
  let a := analyzeTokenEfficiency prompt in
  (efficiency a = "excellent" <-> (n <= 476)%nat)
  /\ (efficiency a = "good" <-> (477 <= n <= 876)%nat)
  /\ (efficiency a = "fair" <-> (877 <= n <= 1276)%nat)
  /\ (efficiency a = "verbose" <-> (1277 <= n)%nat).
Proof.
  cbv zeta. unfold analyzeTokenEfficiency. cbn [efficiency].
  pose proof (ceil_quarter_least (String.length prompt)) as H.
  set (t := ceil_quarter (String.length prompt)) in *.
  destruct (Z.ltb_spec t 120);
    [ | destruct (Z.ltb_spec t 220); [ | destruct (Z.ltb_spec t 320) ] ];
    repeat split; intros; try discriminate; try reflexivity; lia.
Qed.

(** X2. The recommendations of analyzeTokenEfficiency are three independent
    checks, reported in a fixed order: more than 800 characters, one of the
    words comprehensive and detailed, and five commas or more. *)
Theorem analyzeTokenEfficiency_recommendations (prompt : string) :
  recommendations (analyzeTokenEfficiency prompt)
  = ((if (800 <? String.length prompt)%nat
      then ["Consider more specific constraints"] else [])
     ++ (if includes prompt "comprehensive" || includes prompt "detailed"
         then ["Remove verbose qualifiers"] else [])
     ++ (if (5 <=? count_char "," prompt)%nat
         then ["Simplify constraint list"] else []))%list.
Proof.
  unfold analyzeTokenEfficiency. cbn [recommendations].
  pose proof (ceil_quarter_least (String.length prompt)) as H.
  set (t := ceil_quarter (String.length prompt)) in *.
  rewrite split_length_count.
  change (5 <? S (count_char "," prompt))%nat with (5 <=? count_char "," prompt)%nat.
  assert (E : (200 <? t)%Z = (800 <? String.length prompt)%nat).
  { destruct (Z.ltb_spec 200 t), (Nat.ltb_spec 800 (String.length prompt));
      try reflexivity; lia. }
  rewrite E. unfold push.
  destruct (800 <? _)%nat, (_ || _), (5 <=? _)%nat; reflexivity.
Qed.

(** ** The optimizer as a whole *)

Lemma append_fixed (b s : string) : b ++ s = b -> s = EmptyString.
Proof.
  intros H. apply (f_equal String.length) in H. rewrite length_append in H.
  destruct s; [ reflexivity | simpl in H; lia ].
Qed.

Lemma is_str_true (v : option value) (lit : string) :
  is_str v lit = true <-> v = Some (VStr lit).
Proof.
  destruct v as [[s| |]|]; simpl; split; try discriminate.
  - intros H. apply String.eqb_eq in H. now subst.
  - intros H. injection H as ->. apply String.eqb_refl.
Qed.

(** The two segments optimizePrompt appends: the first comes from the
    context and the base prompt, the second from the options alone. *)
Lemma optimizePrompt_shape (basePrompt : string) (options : object)
    (context : option object) :
  exists optimizations tokenSavers,
    optimizePrompt basePrompt options context
    = basePrompt ++ segment ". Context: " optimizations ++ segment ". Output: " tokenSavers
    /\ optimizePrompt basePrompt [] context
       = basePrompt ++ segment ". Context: " optimizations
    /\ (forall b, optimizePrompt b options None = b ++ segment ". Output: " tokenSavers).
Proof.
  unfold optimizePrompt.
  set (c := match context with Some c => c | None => [] end).
  set (opts := if truthy (get c "packageManager") && _ then _ else _).
  set (savers := if is_str (get options "complexity") "simple" then _ else _).
  exists opts, savers.
  split; [ | split ].
  - destruct opts, savers; cbn [segment]; rewrite ?append_empty, ?append_append; reflexivity.
  - cbn [get is_str]. destruct opts; cbn [segment]; rewrite ?append_empty; reflexivity.
  - intros b. cbn [get truthy andb].
    destruct savers; cbn [segment]; rewrite ?append_empty; reflexivity.
Qed.

(** X3. optimizePrompt only appends: the result is the base prompt followed
    by nothing, or by a text that starts with '. Context: ' or with
    '. Output: '. *)
Theorem optimizePrompt_extends (basePrompt : string) (options : object)
    (context : option object) :
  exists directives,
    optimizePrompt basePrompt options context = basePrompt ++ directives
    /\ (directives = EmptyString
        \/ strip ". Context: " directives <> None
        \/ strip ". Output: " directives <> None).
Proof.
  destruct (optimizePrompt_shape basePrompt options context)
    as (opts & savers & E & _ & _).
  exists (segment ". Context: " opts ++ segment ". Output: " savers).
  split; [ exact E | ].
  destruct opts as [|x opts]; [ destruct savers as [|y savers] | ].
  - now left.
  - right; right. cbn [segment]. simpl. discriminate.
  - right; left. cbn [segment]. simpl. discriminate.
Qed.

(** X4. optimizePrompt returns the base prompt unchanged exactly when no
    directive applies: a TypeScript or React context only with the word
    already in the base prompt, a package manager that is absent, falsy or
    'npm', an output format other than code, commented and guided, and a
    complexity other than simple and medium. *)
Theorem optimizePrompt_fixed_point (basePrompt : string) (options context : object) :
  optimizePrompt basePrompt options (Some context) = basePrompt
  <-> (truthy (get context "hasTypeScript") = true -> includes basePrompt "TypeScript" = true)
      /\ (truthy (get context "hasReact") = true -> includes basePrompt "React" = true)
      /\ (truthy (get context "packageManager") = true ->
          get context "packageManager" = Some (VStr "npm"))
      /\ ~ In (get options "outputFormat")
             [Some (VStr "code"); Some (VStr "commented"); Some (VStr "guided")]
      /\ ~ In (get options "complexity") [Some (VStr "simple"); Some (VStr "medium")].
Proof.
  split.
  - intros H. unfold optimizePrompt in H.
    destruct (truthy (get context "hasTypeScript")
              && negb (includes basePrompt "TypeScript")) eqn:Ets;
    destruct (truthy (get context "hasReact") && negb (includes basePrompt "React")) eqn:Ere;
    destruct (truthy (get context "packageManager")
              && negb (is_str (get context "packageManager") "npm")) eqn:Epm;
    destruct (is_str (get options "outputFormat") "code") eqn:Ec;
    destruct (is_str (get options "outputFormat") "commented") eqn:Em;
    destruct (is_str (get options "outputFormat") "guided") eqn:Eg;
    destruct (is_str (get options "complexity") "simple") eqn:Es;
    destruct (is_str (get options "complexity") "medium") eqn:Ed;
    try (exfalso;
         try (apply andb_prop in Epm; destruct Epm as [Epm _];
              unfold push_text in H; rewrite Epm in H;
              destruct (get context "packageManager"); [ | discriminate Epm ]);
         cbn [push app String.concat] in H;
         rewrite ?append_append in H; apply append_fixed in H; discriminate H).
    repeat split.
    + intros T. rewrite T in Ets.
      destruct (includes basePrompt "TypeScript"); [ reflexivity | discriminate Ets ].
    + intros T. rewrite T in Ere.
      destruct (includes basePrompt "React"); [ reflexivity | discriminate Ere ].
    + intros T. rewrite T in Epm. apply is_str_true.
      destruct (is_str (get context "packageManager") "npm");
        [ reflexivity | discriminate Epm ].
    + intros [E|[E|[E|[]]]]; symmetry in E; apply is_str_true in E; congruence.
    + intros [E|[E|[]]]; symmetry in E; apply is_str_true in E; congruence.
  - intros (Hts & Hre & Hpm & Hf & Hc).
    unfold optimizePrompt.
    assert (Ets : truthy (get context "hasTypeScript")
                  && negb (includes basePrompt "TypeScript") = false)
      by (destruct (truthy (get context "hasTypeScript"));
          [ now rewrite Hts | reflexivity ]).
    assert (Ere : truthy (get context "hasReact")
                  && negb (includes basePrompt "React") = false)
      by (destruct (truthy (get context "hasReact"));
          [ now rewrite Hre | reflexivity ]).
    assert (Epm : truthy (get context "packageManager")
                  && negb (is_str (get context "packageManager") "npm") = false)
      by (destruct (truthy (get context "packageManager"));
          [ now rewrite Hpm | reflexivity ]).
    rewrite Ets, Ere, Epm.
    rewrite !is_str_false; [ reflexivity | | | | | ];
      intros E; rewrite E in *; simpl in *; tauto.
Qed.

(** X5. The context and the options act one after the other: optimizing
    with both is optimizing with the context alone and then, without a
    context, with the options. *)
Theorem optimizePrompt_context_then_options (basePrompt : string) (options : object)
    (context : option object) :
  optimizePrompt basePrompt options context
  = optimizePrompt (optimizePrompt basePrompt [] context) options None.
Proof.
  destruct (optimizePrompt_shape basePrompt options context)
    as (opts & savers & E & Ec & Eo).
  now rewrite Ec, Eo, E, append_append.
Qed.

(** X6. A package manager of the context that is a text other than 'npm' is
    always named in the result, whatever the base prompt and the options
    say, and the result is never the base prompt. *)
Theorem optimizePrompt_names_package_manager (basePrompt packageManager : string)
    (options context : object) :
  get context "packageManager" = Some (VStr packageManager) ->
  packageManager <> EmptyString -> packageManager <> "npm" ->
  includes (optimizePrompt basePrompt options (Some context)) ("Use " ++ packageManager) = true
  /\ optimizePrompt basePrompt options (Some context) <> basePrompt.
Proof.
  intros Hget Hne Hnpm.
  assert (H : exists before after,
             optimizePrompt basePrompt options (Some context)
             = (basePrompt ++ ". Context: " ++ before) ++ ("Use " ++ packageManager) ++ after).
  { unfold optimizePrompt. rewrite Hget. cbn [truthy is_str].
    apply String.eqb_neq in Hne, Hnpm. rewrite Hne, Hnpm. cbn [negb andb].
    unfold push_text. cbn [truthy]. rewrite Hne. cbn [negb to_string].
    rewrite append_empty.
    set (savers := if is_str (get options "complexity") "simple" then _ else _).
    exists (match truthy (get context "hasTypeScript")
                  && negb (includes basePrompt "TypeScript"),
                  truthy (get context "hasReact") && negb (includes basePrompt "React") with
            | true, true => "Use TypeScript, Follow React patterns, "
            | true, false => "Use TypeScript, "
            | false, true => "Follow React patterns, "
            | false, false => EmptyString
            end), (segment ". Output: " savers).
    destruct (truthy (get context "hasTypeScript") && negb (includes basePrompt "TypeScript"));
      destruct (truthy (get context "hasReact") && negb (includes basePrompt "React"));
      destruct savers; cbn [push app String.concat segment];
      rewrite ?append_append, ?append_empty; reflexivity. }
  destruct H as (before & after & E). rewrite E. split.
  - apply includes_append.
  - rewrite !append_append. intros F. apply append_fixed in F. discriminate F.
Qed.

Lemma optimizePrompt_names_package_manager_witness :
  includes
    (optimizePrompt "Create node project with express using pnpm"
       [("outputFormat", VStr "code")] (Some [("packageManager", VStr "pnpm")]))
    ("Use " ++ "pnpm") = true
  /\ optimizePrompt "Create node project with express using pnpm"
       [("outputFormat", VStr "code")] (Some [("packageManager", VStr "pnpm")])
     <> "Create node project with express using pnpm".
Proof.
  apply (optimizePrompt_names_package_manager
           "Create node project with express using pnpm" "pnpm"
           [("outputFormat", VStr "code")] [("packageManager", VStr "pnpm")]);
    [ reflexivity | discriminate | discriminate ].
Defined.

(** X7. The TypeScript and React directives look at the base prompt: with
    the word already there, the flag of the context counts for nothing. *)
Theorem optimizePrompt_keyword_guard (basePrompt : string) (options context : object) :
  (includes basePrompt "TypeScript" = true ->
   optimizePrompt basePrompt options (Some context)
   = optimizePrompt basePrompt options (Some (set context "hasTypeScript" (VBool false))))
  /\ (includes basePrompt "React" = true ->
      optimizePrompt basePrompt options (Some context)
      = optimizePrompt basePrompt options (Some (set context "hasReact" (VBool false)))).
Proof.
  split; intros H; unfold optimizePrompt;
    rewrite get_set_same, !get_set_other by discriminate;
    rewrite H; cbn [negb truthy]; now rewrite andb_false_r.
Qed.

Lemma optimizePrompt_keyword_guard_witness :
  optimizePrompt "Create node project with vue. Constraints: TypeScript support." []
    (Some [("hasTypeScript", VBool true)])
  = optimizePrompt "Create node project with vue. Constraints: TypeScript support." []
      (Some (set [("hasTypeScript", VBool true)] "hasTypeScript" (VBool false))).
Proof.
  apply (proj1 (optimizePrompt_keyword_guard
                  "Create node project with vue. Constraints: TypeScript support." []
                  [("hasTypeScript", VBool true)])).
  reflexivity.
Defined.

(** ** The variations in detail *)

Lemma ceil_quarter_gap (n m : nat) (k : Z) :
  (Z.of_nat n + 4 * k <= Z.of_nat m)%Z -> (ceil_quarter n + k <= ceil_quarter m)%Z.
Proof.
  intros H. pose proof (ceil_quarter_least n). pose proof (ceil_quarter_least m). lia.
Qed.

Ltac length_gap :=
  apply ceil_quarter_gap;
  repeat (rewrite length_append; cbn [String.length]);
  repeat match goal with
         | |- context [String.length ?s] =>
             let n := fresh "n" in
             generalize (String.length s); intros n
         end;
  lia.

(** X8. The tokens field of a variation counts fewer characters than its
    prompt has: for every variation it is at least four tokens below the
    estimate analyzeTokenEfficiency gives for the prompt of the variation. *)
Theorem generatePromptVariations_tokens_low (basePrompt : string) (options : object)
    (v : variation) (p : string) (t : Z) :
  In v (generatePromptVariations basePrompt options) ->
  prompt v = Ok p -> tokens v = Ok t ->
  (t + 4 <= estimatedTokens (analyzeTokenEfficiency p))%Z.
Proof.
  intros Hin Hp Ht. unfold analyzeTokenEfficiency. cbn [estimatedTokens].
  unfold generatePromptVariations in Hin.
  destruct Hin as [<-|[<-|[<-|[<-|[]]]]]; cbn [prompt tokens] in Hp, Ht.
  - injection Hp as <-. injection Ht as <-. length_gap.
  - destruct (getFrameworkHints (get options "framework")) as [h| |];
      cbn [bind] in Hp, Ht; try discriminate.
    injection Hp as <-. injection Ht as <-. length_gap.
  - destruct (getTypeHints (get options "type")) as [h| |];
      cbn [bind] in Hp, Ht; try discriminate.
    injection Hp as <-. injection Ht as <-. length_gap.
  - injection Hp as <-. injection Ht as <-. length_gap.
Qed.

Lemma generatePromptVariations_tokens_low_witness :
  (ceil_quarter (String.length "Fix bug" + 35) + 4
   <= estimatedTokens
        (analyzeTokenEfficiency
           ("Fix bug" ++ ". Code only, no explanations, no markdown formatting.")))%Z.
Proof.
  apply (generatePromptVariations_tokens_low
           "Fix bug. Ask user to clarify if necessary." []
           {| name := "Ultra Minimal";
              prompt := Ok ("Fix bug" ++ ". Code only, no explanations, no markdown formatting.");
              description := "Absolute minimum tokens for quick prototyping (~8-12 tokens)";
              category := "speed";
              tokens := Ok (ceil_quarter (String.length "Fix bug" + 35)) |});
    [ left; reflexivity | reflexivity | reflexivity ].
Defined.

Lemma before_first_lacks (c : ascii) (s : string) : lacks c (before_first c s) = true.
Proof.
  induction s as [|d t IH]; [ reflexivity | ].
  cbn [before_first]. destruct (Ascii.eqb d c) eqn:E; [ reflexivity | ].
  rewrite lacks_cons, IH, Ascii.eqb_sym, E. reflexivity.
Qed.

Lemma before_first_split (c : ascii) (s : string) :
  s = before_first c s
  \/ exists rest, s = before_first c s ++ String c rest.
Proof.
  induction s as [|d t IH]; [ now left | ].
  cbn [before_first]. destruct (Ascii.eqb_spec d c) as [->|Hne].
  - right. now exists t.
  - destruct IH as [IH|(rest & IH)].
    + left. simpl. now rewrite <- IH.
    + right. exists rest. simpl. now rewrite <- IH.
Qed.

Lemma before_first_append (c : ascii) (a b : string) :
  lacks c a = true -> before_first c (a ++ String c b) = a.
Proof.
  induction a as [|d a IH]; intros H.
  - simpl. now rewrite Ascii.eqb_refl.
  - rewrite lacks_cons in H. apply andb_prop in H. destruct H as [Hd Ha].
    simpl. rewrite Ascii.eqb_sym. destruct (Ascii.eqb c d); [ discriminate Hd | ].
    now rewrite IH.
Qed.

Lemma before_first_inside (c : ascii) (a b : string) :
  lacks c a = false -> before_first c (a ++ b) = before_first c a.
Proof.
  induction a as [|d a IH]; intros H; [ discriminate H | ].
  rewrite lacks_cons in H. simpl. rewrite Ascii.eqb_sym.
  destruct (Ascii.eqb c d); [ reflexivity | ].
  simpl in H. now rewrite IH.
Qed.

(** A text that ends with a character it holds nowhere else does not
    straddle: it starts [a ++ p] only when it starts [a], or [a] is empty. *)
Lemma strip_straddle (c : ascii) (q a : string) :
  lacks c q = true -> a <> EmptyString ->
  strip (q ++ String c EmptyString) (a ++ q ++ String c EmptyString) <> None ->
  strip (q ++ String c EmptyString) a <> None.
Proof.
  intros Hq Ha H.
  destruct (strip _ (a ++ _)) as [r|] eqn:E; [ clear H | now elim H ].
  apply strip_sound in E.
  assert (Eb : before_first c (a ++ q ++ String c EmptyString) = q).
  { rewrite E, append_append. now apply before_first_append. }
  destruct (lacks c a) eqn:La.
  - rewrite <- append_append in Eb. rewrite before_first_append in Eb.
    + apply (f_equal String.length) in Eb. rewrite length_append in Eb.
      destruct a; [ now elim Ha | simpl in Eb; lia ].
    + now rewrite lacks_append, La, Hq.
  - rewrite before_first_inside in Eb by exact La.
    destruct (before_first_split c a) as [F|(rest & F)].
    + rewrite <- F in Eb. subst a. congruence.
    + rewrite Eb in F. rewrite F.
      change (String c rest) with (String c EmptyString ++ rest).
      rewrite <- append_append, strip_append. discriminate.
Qed.

Lemma find_at_end (c : ascii) (q p : string) :
  lacks c q = true -> includes p (q ++ String c EmptyString) = false ->
  find (q ++ String c EmptyString) (p ++ q ++ String c EmptyString)
  = Some (p, EmptyString).
Proof.
  intros Hq. induction p as [|d p IH]; intros H.
  - rewrite find_unfold. change (EmptyString ++ ?x) with x.
    rewrite <- (append_empty (q ++ String c EmptyString)) at 2.
    now rewrite strip_append.
  - rewrite includes_unfold in H.
    destruct (strip (q ++ String c EmptyString) (String d p)) eqn:E; [ discriminate H | ].
    rewrite find_unfold.
    destruct (strip (q ++ String c EmptyString)
                (String d p ++ q ++ String c EmptyString)) eqn:E2.
    + exfalso. apply (strip_straddle c q (String d p) Hq); [ discriminate | | exact E ].
      rewrite E2. discriminate.
    + cbn [append]. now rewrite (IH H).
Qed.

Lemma find_clarification (p : string) :
  includes p " Ask user to clarify if necessary." = false ->
  find " Ask user to clarify if necessary." (p ++ " Ask user to clarify if necessary.")
  = Some (p, EmptyString).
Proof. exact (find_at_end "." " Ask user to clarify if necessary" p eq_refl). Qed.

Lemma replace_absent (s p r : string) : includes s p = false -> replace s p r = s.
Proof.
  unfold includes, replace. destruct (find p s) as [[a b]|]; [ discriminate | reflexivity ].
Qed.

(** X9. Every variation opens with the core action, the text of the cleaned
    base prompt before its first period: the core action holds no period,
    the cleaned prompt is the core action or goes on with a period, and
    every prompt of a variation is the core action, a period and more. *)
Theorem generatePromptVariations_core_action (basePrompt : string) (options : object) :
  let cleanBasePrompt :=
    replace basePrompt " Ask user to clarify if necessary." EmptyString in
  exists coreAction,
    lacks "." coreAction = true
    /\ (cleanBasePrompt = coreAction
        \/ exists rest, cleanBasePrompt = coreAction ++ "." ++ rest)
    /\ (forall v p,
          In v (generatePromptVariations basePrompt options) -> prompt v = Ok p ->
          exists rest, p = coreAction ++ "." ++ rest).
Proof.
  cbv zeta.
  set (clean := replace basePrompt " Ask user to clarify if necessary." EmptyString).
  exists (before_first "." clean). split; [ | split ].
  - apply before_first_lacks.
  - apply before_first_split.
  - intros v p Hin Hp. unfold generatePromptVariations in Hin. fold clean in Hin.
    destruct Hin as [<-|[<-|[<-|[<-|[]]]]]; cbn [prompt] in Hp.
    + injection Hp as <-. eexists. reflexivity.
    + destruct (getFrameworkHints _); cbn [bind] in Hp; try discriminate.
      injection Hp as <-. eexists. reflexivity.
    + destruct (getTypeHints _); cbn [bind] in Hp; try discriminate.
      injection Hp as <-. eexists. reflexivity.
    + injection Hp as <-.
      destruct (before_first_split "." clean) as [E|(rest & E)].
      * rewrite <- E. eexists. reflexivity.
      * match goal with |- context [clean ++ ?l] => set (lit := l) end.
        exists (rest ++ lit).
        transitivity ((before_first "." clean ++ String "." rest) ++ lit);
          [ now rewrite <- E | now rewrite append_append ].
Qed.

(** X10. The clarification request at the end of a prompt is dropped before
    the variations are made: a phrase that does not hold the request gives
    the same variations with the request behind it as without. *)
Theorem generatePromptVariations_drops_clarification (phrase : string) (options : object) :
  includes phrase " Ask user to clarify if necessary." = false ->
  generatePromptVariations (phrase ++ " Ask user to clarify if necessary.") options
  = generatePromptVariations phrase options.
Proof.
  intros H. unfold generatePromptVariations.
  rewrite (replace_absent phrase _ _ H).
  unfold replace.
  rewrite (find_clarification phrase H).
  cbn [GetSubstitution]. rewrite !append_empty. reflexivity.
Qed.

Lemma generatePromptVariations_drops_clarification_witness :
  generatePromptVariations
    ("Fix crash in parser using debug" ++ " Ask user to clarify if necessary.")
    [("framework", VStr "react")]
  = generatePromptVariations "Fix crash in parser using debug" [("framework", VStr "react")].
Proof.
  apply (generatePromptVariations_drops_clarification
           "Fix crash in parser using debug" [("framework", VStr "react")]).
  reflexivity.
Defined.

(** X11. The hints of the variations fall back exactly outside their
    tables: for a key that names no member of Object.prototype,
    getFrameworkHints gives the general hint if and only if the key is none
    of the eight frameworks, and getTypeHints gives the general hint if and
    only if the key is none of the six task types; an argument left out
    reads as the key 'undefined'. *)
Theorem hints_fallback (v : option value) :
  let key := match v with Some x => to_string x | None => "undefined" end in
  inherited key = false ->
  (getFrameworkHints v = Ok "Use modern JavaScript/TypeScript patterns"
   <-> ~ In key ["react"; "vue"; "angular"; "svelte"; "next"; "express"; "fastify"; "nest"])
  /\ (getTypeHints v = Ok "Focus on code quality and maintainability"
      <-> ~ In key known_types).
Proof.
  cbv zeta. intros Hi. split; split.
  - intros H Hin. unfold getFrameworkHints, hint_or in H.
    simpl in Hin.
    repeat (destruct Hin as [Hin|Hin]; [ rewrite <- Hin in H; discriminate H | ]).
    exact Hin.
  - intros Hk. unfold getFrameworkHints, hint_or. now rewrite read_missing.
  - intros H Hin. unfold getTypeHints, hint_or in H.
    simpl in Hin.
    repeat (destruct Hin as [Hin|Hin]; [ rewrite <- Hin in H; discriminate H | ]).
    exact Hin.
  - intros Hk. unfold getTypeHints, hint_or. now rewrite read_missing.
Qed.

Lemma hints_fallback_witness :
  (getFrameworkHints None = Ok "Use modern JavaScript/TypeScript patterns"
   <-> ~ In "undefined"
          ["react"; "vue"; "angular"; "svelte"; "next"; "express"; "fastify"; "nest"])
  /\ (getTypeHints None = Ok "Focus on code quality and maintainability"
      <-> ~ In "undefined" known_types).
Proof. apply (hints_fallback None). reflexivity. Defined.

(** ** What the command line builder writes *)

Lemma set_not_nil (o : object) (k : string) (v : value) : set o k v <> [].
Proof.
  destruct o as [|[k' v'] o]; simpl; [ discriminate | destruct (String.eqb k k'); discriminate ].
Qed.

Lemma keys_set_present (o : object) (k : string) (v v0 : value) :
  get o k = Some v0 -> keys (set o k v) = keys o.
Proof.
  induction o as [|[k' v'] o IH]; simpl; [ discriminate | ].
  destruct (String.eqb k k'); simpl; [ reflexivity | ].
  intros H. now rewrite (IH H).
Qed.

Lemma Node_custom_framework_frame (options : object) :
  keys (Node.custom_framework options) = keys options
  /\ (forall k, k <> "framework" -> get (Node.custom_framework options) k = get options k)
  /\ (Node.custom_framework options <> options ->
      get options "framework" = Some (VStr "other")
      /\ truthy (get options "customFramework") = true
      /\ get (Node.custom_framework options) "framework" = get options "customFramework").
Proof.
  unfold Node.custom_framework.
  destruct (get options "customFramework") as [custom|] eqn:Ec;
    [ | repeat split; intros; solve [ reflexivity | exfalso; auto ] ].
  destruct (is_str (get options "framework") "other") eqn:E;
    [ | repeat split; intros; solve [ reflexivity | exfalso; auto ] ].
  destruct (truthy (Some custom)) eqn:T;
    [ | repeat split; intros; solve [ reflexivity | exfalso; auto ] ].
  cbn [andb]. apply is_str_true in E. repeat split.
  - now apply keys_set_present with (v0 := VStr "other").
  - intros k Hk. now apply get_set_other.
  - exact E.
  - now rewrite get_set_same.
Qed.

(** X12. The command line builder writes to the caller's options in one
    place only: the keys stay as they were, every key other than framework
    keeps its value, and the object changes only when the type has a
    template or names a member of Object.prototype, the framework is
    'other' and customFramework is truthy; framework then holds the custom
    framework. *)
Theorem Node_buildPrompt_frame (type : string) (options : object) :
  let options' := snd (Node.buildPrompt type options) in
  keys options' = keys options
  /\ (forall k, k <> "framework" -> get options' k = get options k)
  /\ (options' <> options ->
      (In type (map fst Node.PROMPT_TEMPLATES) \/ inherited type = true)
      /\ get options "framework" = Some (VStr "other")
      /\ truthy (get options "customFramework") = true
      /\ get options' "framework" = get options "customFramework").
Proof.
  cbv zeta. destruct (Node_custom_framework_frame options) as (H1 & H2 & H3).
  unfold Node.buildPrompt.
  destruct (read Node.PROMPT_TEMPLATES type) as [template| |] eqn:R; cbn [snd].
  - split; [ exact H1 | split; [ exact H2 | ] ].
    intros Hne. split; [ | now apply H3 ].
    left. unfold read in R.
    destruct (assoc Node.PROMPT_TEMPLATES type) eqn:A.
    + clear R. revert A. generalize Node.PROMPT_TEMPLATES.
      induction l as [|[k a] l IH]; simpl; [ discriminate | ].
      destruct (String.eqb_spec type k) as [->|_]; [ now left | right; now apply IH ].
    + destruct (inherited type); discriminate R.
  - split; [ exact H1 | split; [ exact H2 | ] ].
    intros Hne. split; [ | now apply H3 ].
    right. unfold read in R.
    destruct (assoc Node.PROMPT_TEMPLATES type); [ discriminate R | ].
    destruct (inherited type); [ reflexivity | discriminate R ].
  - split; [ reflexivity | split; [ reflexivity | ] ].
    intros Hne. now elim Hne.
Qed.

(** ** The raw tags of the browser builder *)

Lemma Web_replacement_text (k tag : string) (options : object) :
  well_formed options = true -> k <> "framework" -> tag <> EmptyString ->
  get options k = Some (VStr tag) ->
  Web.replacement (Web_complete options) k = tag.
Proof.
  intros Hwf Hk Hne Hget.
  rewrite (Web_replacement_supplied k (VStr tag) options Hwf Hk Hget); [ reflexivity | ].
  simpl. apply String.eqb_neq in Hne. now rewrite Hne.
Qed.

Ltac raw_tag key tag options Hwf :=
  do 2 f_equal;
  cbn [base_tokens String.eqb Ascii.eqb Bool.eqb fill_all map render render_token];
  simpl (String.eqb _ _); cbv iota; cbn [map render render_token];
  rewrite (Web_replacement_text key tag options Hwf) by (discriminate || assumption);
  now rewrite append_empty.

(** X14. In the browser builder the dictionaries of the switch never reach
    the phrase of a feature, an architecture, a testing or a fix prompt: for
    every well-formed option set, a pattern, a test type or an approach that
    is given as a non-empty text stands in the phrase as the raw tag. *)
Theorem Web_buildPrompt_raw_tags (options : object) (tag : string) :
  well_formed options = true -> tag <> EmptyString ->
  (get options "pattern" = Some (VStr tag) ->
   (exists feature cs,
      Web.buildPrompt "feature" options
      = Ok (finish ("Implement " ++ feature ++ " as " ++ tag) cs))
   /\ (exists feature cs,
         Web.buildPrompt "architecture" options
         = Ok (finish ("Design " ++ feature ++ " using " ++ tag ++ " pattern") cs)))
  /\ (get options "testType" = Some (VStr tag) ->
      exists module library cs,
        Web.buildPrompt "testing" options
        = Ok (finish ("Write " ++ tag ++ " tests for " ++ module ++ " using " ++ library) cs))
  /\ (get options "approach" = Some (VStr tag) ->
      exists issue component cs,
        Web.buildPrompt "fix" options
        = Ok (finish ("Fix " ++ issue ++ " in " ++ component ++ " using " ++ tag) cs)).
Proof.
  intros Hwf Hne. split; [ | split ]; intros Hget.
  - split.
    + destruct (Web_buildPrompt_first_pass "feature" options) as (cs & E);
        [ simpl; auto | exact Hwf | ].
      exists (Web.replacement (Web_complete options) "feature"), cs.
      rewrite E. raw_tag "pattern" tag options Hwf.
    + destruct (Web_buildPrompt_first_pass "architecture" options) as (cs & E);
        [ simpl; auto | exact Hwf | ].
      exists (Web.replacement (Web_complete options) "feature"), cs.
      rewrite E. raw_tag "pattern" tag options Hwf.
  - destruct (Web_buildPrompt_first_pass "testing" options) as (cs & E);
      [ simpl; auto | exact Hwf | ].
    exists (Web.replacement (Web_complete options) "module"),
      (Web.replacement (Web_complete options) "library"), cs.
    rewrite E. raw_tag "testType" tag options Hwf.
  - destruct (Web_buildPrompt_first_pass "fix" options) as (cs & E);
      [ simpl; auto 6 | exact Hwf | ].
    exists (Web.replacement (Web_complete options) "issue"),
      (Web.replacement (Web_complete options) "component"), cs.
    rewrite E. raw_tag "approach" tag options Hwf.
Qed.

Lemma Web_buildPrompt_raw_tags_witness :
  exists issue component cs,
    Web.buildPrompt "fix" [("issue", VStr "crash"); ("approach", VStr "patch")]
    = Ok (finish ("Fix " ++ issue ++ " in " ++ component ++ " using " ++ "patch") cs).
Proof.
  apply (Web_buildPrompt_raw_tags [("issue", VStr "crash"); ("approach", VStr "patch")] "patch");
    [ reflexivity | discriminate | reflexivity ].
Defined.

(** ** Clauses are only added *)

Lemma push_text_extends (cs : list string) (pre : string) (v : option value) (post : string) :
  exists more, push_text cs pre v post = (cs ++ more)%list.
Proof.
  unfold push_text, push. destruct v as [x|]; [ destruct (truthy _) | ];
    eexists; try reflexivity; now rewrite app_nil_r.
Qed.

Lemma push_flag_extends (cs : list string) (flag : option value) (c : string) :
  exists more, push_flag cs flag c = (cs ++ more)%list.
Proof.
  unfold push_flag, push. destruct (_ && _); eexists; try reflexivity; now rewrite app_nil_r.
Qed.

Lemma push_packageManager_extends (cs : list string) (v : option value) :
  exists more, push_packageManager cs v = (cs ++ more)%list.
Proof.
  unfold push_packageManager, push.
  destruct (truthy v); [ destruct (is_str v "none") | ].
  - eexists; reflexivity.
  - apply push_text_extends.
  - exists []. now rewrite app_nil_r.
Qed.

Lemma push_phrase_extends (cs cs' : list string) (pre : string) (v : option value) (d : dict) :
  push_phrase cs pre v d = Ok cs' -> exists more, cs' = (cs ++ more)%list.
Proof.
  unfold push_phrase, push. intros H.
  destruct (truthy v); [ destruct v as [x|]; [ destruct (read d (to_string x)) | ] | ];
    try discriminate H; injection H as <-; eexists; try reflexivity; now rewrite app_nil_r.
Qed.

Lemma push_member_extends (cs cs' : list string) (pre : string) (v : option value)
    (d : option dict) :
  push_member cs pre v d = Ok cs' -> exists more, cs' = (cs ++ more)%list.
Proof.
  unfold push_member. intros H.
  destruct (truthy v);
    [ destruct d as [d|]; [ now apply push_phrase_extends in H | discriminate H ] | ].
  injection H as <-. exists []. now rewrite app_nil_r.
Qed.

Lemma push_guarded_extends (cs cs' : list string) (pre : string) (v : option value)
    (d : option dict) :
  push_guarded cs pre v d = Ok cs' -> exists more, cs' = (cs ++ more)%list.
Proof.
  unfold push_guarded. intros H.
  destruct d as [d|]; [ now apply push_phrase_extends in H | ].
  injection H as <-. exists []. now rewrite app_nil_r.
Qed.

Lemma push_library_extends (cs cs' : list string) (library customLibrary : option value)
    (libraries : option dict) :
  push_library cs library customLibrary libraries = Ok cs' ->
  exists more, cs' = (cs ++ more)%list.
Proof.
  unfold push_library, push. intros H. cbv zeta in H.
  match type of H with context [truthy ?t] => set (testingLibrary := t) in H end.
  destruct (truthy testingLibrary).
  - destruct libraries as [d|].
    + destruct testingLibrary as [[s| |]|]; try discriminate H.
      destruct (read d (toLowerCase s)); try discriminate H;
        injection H as <-; eexists; reflexivity.
    + injection H as <-. apply push_text_extends.
  - injection H as <-. exists []. now rewrite app_nil_r.
Qed.

Lemma push_diagrams_extends (cs cs' : list string) (tool custom : option value)
    (types : list value) :
  push_diagrams cs tool custom types = Ok cs' -> exists more, cs' = (cs ++ more)%list.
Proof.
  unfold push_diagrams, push. intros H.
  destruct (diagram_names types); cbn [bind] in H; try discriminate H.
  injection H as <-. eexists; reflexivity.
Qed.

Ltac extends_inv :=
  repeat match goal with
         | E : (if ?b then _ else _) = Ok _ |- _ => destruct b
         | E : push_phrase _ _ _ _ = Ok _ |- _ =>
             apply push_phrase_extends in E; destruct E as [? ->]
         | E : push_member _ _ _ _ = Ok _ |- _ =>
             apply push_member_extends in E; destruct E as [? ->]
         | E : push_guarded _ _ _ _ = Ok _ |- _ =>
             apply push_guarded_extends in E; destruct E as [? ->]
         | E : push_library _ _ _ _ = Ok _ |- _ =>
             apply push_library_extends in E; destruct E as [? ->]
         | E : push_diagrams _ _ _ _ = Ok _ |- _ =>
             apply push_diagrams_extends in E; destruct E as [? ->]
         | E : Ok _ = Ok _ |- _ => injection E as <-
         | |- context [push_text ?cs ?pre ?v ?post] =>
             let m := fresh "m" in
             let Em := fresh "Em" in
             destruct (push_text_extends cs pre v post) as [m Em]; rewrite Em; clear Em
         | |- context [push_flag ?cs ?f ?c] =>
             let m := fresh "m" in
             let Em := fresh "Em" in
             destruct (push_flag_extends cs f c) as [m Em]; rewrite Em; clear Em
         | |- context [push_packageManager ?cs ?v] =>
             let m := fresh "m" in
             let Em := fresh "Em" in
             destruct (push_packageManager_extends cs v) as [m Em]; rewrite Em; clear Em
         end;
  rewrite <- ?app_assoc;
  first [ solve [ eexists; reflexivity ] | exists []; now rewrite app_nil_r ].

Lemma Web_enhance_extends (template : template) (type : string) (options co : object)
    (prompt prompt' : string) (cs cs' : list string) :
  Web.enhance template type options co prompt cs = Ok (prompt', cs') ->
  exists more, cs' = (cs ++ more)%list.
Proof.
  intros H. unfold Web.enhance in H.
  repeat match type of H with
         | (if ?b then _ else _) = _ => destruct b
         end;
    repeat bind_inv H; injection H as <- <-; extends_inv.
Qed.

Lemma Node_enhance_extends (template : template) (type : string) (options : object)
    (prompt prompt' : string) (cs cs' : list string) :
  Node.enhance template type options prompt cs = Ok (prompt', cs') ->
  exists more, cs' = (cs ++ more)%list.
Proof.
  intros H. unfold Node.enhance in H.
  repeat match type of H with
         | (if ?b then _ else _) = _ => destruct b
         end;
    repeat bind_inv H; injection H as <- <-; extends_inv.
Qed.

(** ** From the builder to the optimizer *)

Lemma Web_complete_supplied (k : string) (v : value) (options : object) :
  well_formed options = true -> k <> "framework" ->
  get options k = Some v -> get (Web_complete options) k = Some v.
Proof.
  intros Hwf Hne Hget.
  destruct (well_formed_parts options Hwf) as (_ & Hd & _).
  assert (H0 : get (spread Web.fallbackValues options) k = Some v)
    by (now rewrite (spread_get _ _ _ Hd), Hget).
  unfold Web_complete, Web.custom_framework.
  destruct (get (spread Web.fallbackValues options) "customFramework"); [ | exact H0 ].
  destruct (_ && _); [ | exact H0 ].
  now rewrite get_set_other.
Qed.

Lemma Web_parts_outputFormat (template : template) (type : string) (options : object)
    (phrase : string) (cs : list string) :
  get (Web_complete options) "outputFormat" = Some (VStr "code") ->
  Web.parts template type options = Ok (phrase, cs) ->
  exists more, cs = "Code only, no explanations, no markdown" :: more.
Proof.
  intros Hget H. unfold Web.parts in H. cbv zeta in H.
  change (Web.custom_framework (spread Web.fallbackValues options))
    with (Web_complete options) in H.
  rewrite Hget in H.
  bind_inv H.
  change (push_phrase [] EmptyString (Some (VStr "code")) Web.OUTPUT_FORMATS)
    with (Ok (A := list string) ["Code only, no explanations, no markdown"]) in H.
  cbn [bind] in H.
  repeat bind_inv H. injection H as _ <-.
  destruct a4 as [p' cs']. cbn [snd].
  apply Web_enhance_extends in E4. destruct E4 as [m4 ->].
  apply push_phrase_extends in E0, E1, E2, E3.
  destruct E0 as [m0 ->], E1 as [m1 ->], E2 as [m2 ->], E3 as [m3 ->].
  rewrite <- !app_assoc. cbn [app]. eexists. reflexivity.
Qed.

Lemma Node_parts_outputFormat (template : template) (type : string) (options : object)
    (phrase : string) (cs : list string) :
  get options "outputFormat" = Some (VStr "code") ->
  Node.parts template type options = Ok (phrase, cs) ->
  exists before more, cs = (before ++ "Code only, no explanations" :: more)%list.
Proof.
  intros Hget H. unfold Node.parts in H. cbv zeta in H.
  rewrite Hget in H.
  bind_inv H. bind_inv H.
  change (push_phrase a0 EmptyString (Some (VStr "code")) Node.OUTPUT_FORMATS)
    with (Ok (A := list string) (push a0 "Code only, no explanations")) in H.
  cbn [bind] in H. unfold push in H.
  repeat bind_inv H.
  apply Node_enhance_extends in H. destruct H as [m4 ->].
  apply push_phrase_extends in E1, E2, E3, E4.
  destruct E1 as [m0 ->], E2 as [m1 ->], E3 as [m2 ->], E4 as [m3 ->].
  rewrite <- !app_assoc. cbn [app]. eexists _, _. reflexivity.
Qed.

Lemma optimizePrompt_code_only (basePrompt : string) (options : object)
    (context : option object) :
  get options "outputFormat" = Some (VStr "code") ->
  exists directives savers,
    optimizePrompt basePrompt options context
    = basePrompt ++ directives
        ++ ". Output: Code only, no explanations, no markdown" ++ savers
    /\ In savers [EmptyString; ", Essential features only";
                  ", Standard implementation, no edge case handling"]
    /\ (context = Some [] -> directives = EmptyString).
Proof.
  intros Hget. unfold optimizePrompt. rewrite Hget.
  cbn [is_str String.eqb Ascii.eqb Bool.eqb].
  set (c := match context with Some c => c | None => [] end).
  set (opts := if truthy (get c "packageManager") && _ then _ else _).
  exists (segment ". Context: " opts),
    (if is_str (get options "complexity") "simple" then ", Essential features only"
     else if is_str (get options "complexity") "medium"
          then ", Standard implementation, no edge case handling" else EmptyString).
  split; [ | split ].
  - destruct opts; cbn [segment];
      destruct (is_str (get options "complexity") "simple");
      [ | destruct (is_str (get options "complexity") "medium")
        | | destruct (is_str (get options "complexity") "medium") ];
      cbn [push app String.concat]; rewrite ?append_append, ?append_empty; reflexivity.
  - destruct (is_str (get options "complexity") "simple");
      [ | destruct (is_str (get options "complexity") "medium") ]; simpl; tauto.
  - intros ->. reflexivity.
Qed.

(** X15. The page says 'Code only' twice: for every task type and every
    well-formed option set with the output format code, the prompt that
    updatePrompt shows is the built prompt, whose first constraint is 'Code
    only, no explanations, no markdown', followed after the clarification
    request by '. Output: ' and the same directive, and then by at most the
    directive of the complexity. *)
Theorem App_updatePrompt_repeats_code_only (type : string) (options : object) :
  In type known_types -> well_formed options = true ->
  get options "outputFormat" = Some (VStr "code") ->
  exists phrase more savers shown,
    App.updatePrompt type options = Ok shown
    /\ App.promptContent shown
       = finish phrase ("Code only, no explanations, no markdown" :: more)
           ++ ". Output: Code only, no explanations, no markdown" ++ savers
    /\ In savers [EmptyString; ", Essential features only";
                  ", Standard implementation, no edge case handling"].
Proof.
  intros Hknown Hwf Hget.
  destruct (Web_parts_ok type options Hknown Hwf)
    as (template & ts & cs & HR & E & _).
  destruct (Web_parts_outputFormat template type options (render ts) cs) as [more ->];
    [ apply Web_complete_supplied; [ exact Hwf | discriminate | exact Hget ] | exact E | ].
  destruct (optimizePrompt_code_only
              (finish (render ts) ("Code only, no explanations, no markdown" :: more))
              options (Some []) Hget)
    as (directives & savers & Eo & Hs & Hd).
  rewrite (Hd eq_refl) in Eo.
  exists (render ts), more, savers. eexists.
  unfold App.updatePrompt, Web.buildPrompt. rewrite HR, E. cbn [bind fst snd].
  split; [ reflexivity | ]. cbn [App.promptContent]. split; [ exact Eo | exact Hs ].
Qed.

Lemma App_updatePrompt_repeats_code_only_witness :
  exists phrase more savers shown,
    App.updatePrompt "fix" [("issue", VStr "crash"); ("outputFormat", VStr "code")]
    = Ok shown
    /\ App.promptContent shown
       = finish phrase ("Code only, no explanations, no markdown" :: more)
           ++ ". Output: Code only, no explanations, no markdown" ++ savers
    /\ In savers [EmptyString; ", Essential features only";
                  ", Standard implementation, no edge case handling"].
Proof.
  apply (App_updatePrompt_repeats_code_only "fix"
           [("issue", VStr "crash"); ("outputFormat", VStr "code")]);
    [ simpl; tauto | reflexivity | reflexivity ].
Defined.

(** X16. So does the command line: for every task type and every
    well-formed option set with the output format code, the prompt main
    prints is the built prompt, which has the constraint 'Code only, no
    explanations', followed after the clarification request by the
    directives of the context and by '. Output: Code only, no explanations,
    no markdown'. *)
Theorem Cli_main_repeats_code_only (showVariations : bool) (type : string)
    (options projectContext : object) :
  In type known_types -> well_formed options = true ->
  get options "outputFormat" = Some (VStr "code") ->
  exists phrase before more directives savers run,
    Cli.main showVariations type options projectContext = Ok run
    /\ Cli.prompt run
       = finish phrase (before ++ "Code only, no explanations" :: more)%list
           ++ directives
           ++ ". Output: Code only, no explanations, no markdown" ++ savers.
Proof.
  intros Hknown Hwf Hget.
  destruct (Node_parts_ok type options Hknown Hwf)
    as (template & ts & cs & HR & E & _).
  assert (Hget' : get (Node.custom_framework options) "outputFormat" = Some (VStr "code")).
  { rewrite (proj1 (proj2 (Node_custom_framework_frame options)));
      [ exact Hget | discriminate ]. }
  destruct (Node_parts_outputFormat template type (Node.custom_framework options)
              (render ts) cs Hget' E) as (before & more & ->).
  destruct (optimizePrompt_code_only
              (finish (render ts) (before ++ "Code only, no explanations" :: more)%list)
              (Node.custom_framework options) (Some projectContext) Hget')
    as (directives & savers & Eo & _ & _).
  exists (render ts), before, more, directives, savers. eexists.
  unfold Cli.main, Node.buildPrompt. rewrite HR, E. cbn [bind fst snd].
  split; [ reflexivity | ]. cbn [Cli.prompt]. exact Eo.
Qed.

Lemma Cli_main_repeats_code_only_witness :
  exists phrase before more directives savers run,
    Cli.main false "init"
      [("projectType", VStr "node"); ("framework", VStr "express");
       ("outputFormat", VStr "code")]
      [("packageManager", VStr "pnpm")]
    = Ok run
    /\ Cli.prompt run
       = finish phrase (before ++ "Code only, no explanations" :: more)%list
           ++ directives
           ++ ". Output: Code only, no explanations, no markdown" ++ savers.
Proof.
  apply (Cli_main_repeats_code_only false "init"
           [("projectType", VStr "node"); ("framework", VStr "express");
            ("outputFormat", VStr "code")]
           [("packageManager", VStr "pnpm")]);
    [ simpl; tauto | reflexivity | reflexivity ].
Defined.

(** X17. On the command line the answers object is shared: once buildPrompt
    has written the custom framework into it, the optimizer and the
    variations read the overwritten object, so the Production Ready
    variation carries the hint of the custom framework and not of
    'other'. *)
Theorem Cli_main_custom_framework (type : string) (options projectContext : object)
    (custom : value) :
  In type known_types -> well_formed options = true ->
  get options "framework" = Some (VStr "other") ->
  get options "customFramework" = Some custom -> truthy (Some custom) = true ->
  exists run,
    Cli.main true type options projectContext = Ok run
    /\ Cli.options run = set options "framework" custom
    /\ Cli.variations run
       = Some (generatePromptVariations (Cli.basePrompt run)
                 (set options "framework" custom))
    /\ Cli.prompt run
       = optimizePrompt (Cli.basePrompt run) (set options "framework" custom)
           (Some projectContext)
    /\ getFrameworkHints (get (Cli.options run) "framework")
       = getFrameworkHints (Some custom).
Proof.
  intros Hknown Hwf Hf Hc Ht.
  destruct (Node_parts_ok type options Hknown Hwf)
    as (template & ts & cs & HR & E & _).
  assert (Ec : Node.custom_framework options = set options "framework" custom).
  { unfold Node.custom_framework. rewrite Hc, Hf, Ht. reflexivity. }
  rewrite Ec in E.
  eexists. unfold Cli.main, Node.buildPrompt. rewrite HR, Ec, E. cbn [bind fst snd].
  split; [ reflexivity | ].
  cbn [Cli.options Cli.variations Cli.prompt Cli.basePrompt].
  rewrite get_set_same. repeat split.
Qed.

Lemma Cli_main_custom_framework_witness :
  exists run,
    Cli.main true "init"
      [("projectType", VStr "web"); ("framework", VStr "other");
       ("customFramework", VStr "vue")] [] = Ok run
    /\ Cli.options run
       = set [("projectType", VStr "web"); ("framework", VStr "other");
              ("customFramework", VStr "vue")] "framework" (VStr "vue")
    /\ Cli.variations run
       = Some (generatePromptVariations (Cli.basePrompt run)
                 (set [("projectType", VStr "web"); ("framework", VStr "other");
                       ("customFramework", VStr "vue")] "framework" (VStr "vue")))
    /\ Cli.prompt run
       = optimizePrompt (Cli.basePrompt run)
           (set [("projectType", VStr "web"); ("framework", VStr "other");
                 ("customFramework", VStr "vue")] "framework" (VStr "vue"))
           (Some [])
    /\ getFrameworkHints (get (Cli.options run) "framework")
       = getFrameworkHints (Some (VStr "vue")).
Proof.
  apply (Cli_main_custom_framework "init"
           [("projectType", VStr "web"); ("framework", VStr "other");
            ("customFramework", VStr "vue")] [] (VStr "vue"));
    [ simpl; tauto | reflexivity | reflexivity | reflexivity | reflexivity ].
Defined.

(** ** The flags of the command line *)

(** X18. The format is the argument behind the first --format: a later
    --format is not looked at, a --format in the last place leaves the
    format undefined, no --format gives txt; and the file extension is md
    only for the format md, txt for everything else. *)
Theorem Cli_format_after_first_flag (before after : list string) (value : string) :
  ~ In "--format" before ->
  Cli.format (before ++ "--format" :: value :: after) = Some value
  /\ Cli.format (before ++ ["--format"]) = None
  /\ Cli.format before = Some "txt"
  /\ (Cli.ext (Cli.format (before ++ "--format" :: value :: after)) = "md"
      <-> value = "md")
  /\ Cli.ext None = "txt".
Proof.
  intros H.
  assert (Hx : forall rest,
             nth_error (before ++ "--format" :: rest)
               (Cli.indexOf (before ++ "--format" :: rest) "--format" + 1)
             = nth_error rest 0).
  { intros rest. induction before as [|a before IH]; [ reflexivity | ].
    simpl. destruct (String.eqb_spec a "--format") as [->|_].
    - elim H. now left.
    - apply IH. intros Hin. apply H. now right. }
  assert (Hi : forall rest, Cli.includes (before ++ "--format" :: rest) "--format" = true).
  { intros rest. unfold Cli.includes. rewrite existsb_app. simpl. now rewrite orb_true_r. }
  assert (Hn : Cli.includes before "--format" = false).
  { unfold Cli.includes. destruct (existsb _ before) eqn:E; [ | reflexivity ].
    apply existsb_exists in E. destruct E as (x & Hx' & Ex).
    apply String.eqb_eq in Ex. subst x. now elim H. }
  unfold Cli.format. rewrite !Hi, !Hx, Hn. cbn [nth_error Cli.ext].
  repeat split.
  - intros E. destruct (String.eqb_spec value "md"); [ assumption | discriminate E ].
  - intros ->. reflexivity.
Qed.

Lemma Cli_format_after_first_flag_witness :
  Cli.format (["--save"] ++ "--format" :: "md" :: ["--format"; "txt"]) = Some "md"
  /\ Cli.format (["--save"] ++ ["--format"]) = None
  /\ Cli.format ["--save"] = Some "txt"
  /\ (Cli.ext (Cli.format (["--save"] ++ "--format" :: "md" :: ["--format"; "txt"])) = "md"
      <-> "md" = "md")
  /\ Cli.ext None = "txt".
Proof.
  apply (Cli_format_after_first_flag ["--save"] ["--format"; "txt"] "md").
  simpl. intros [H|[]]. discriminate H.
Defined.

(** ** The input fields of the page *)

Lemma trimStart_all (P : ascii -> bool) (s : string) :
  Dom.all_chars P s = true -> Dom.all_chars P (Dom.trimStart s) = true.
Proof.
  induction s as [|c t IH]; [ reflexivity | ].
  intros H. cbn [Dom.trimStart]. destruct (is_space c); [ | exact H ].
  simpl in H. apply andb_prop in H. now apply IH.
Qed.

Lemma trimEnd_all (P : ascii -> bool) (s : string) :
  Dom.all_chars P s = true -> Dom.all_chars P (Dom.trimEnd s) = true.
Proof.
  induction s as [|c t IH]; [ reflexivity | ].
  intros H. simpl in H. apply andb_prop in H. destruct H as [Hc Ht].
  cbn [Dom.trimEnd]. specialize (IH Ht). destruct (Dom.trimEnd t).
  - destruct (is_space c); [ reflexivity | simpl; now rewrite Hc ].
  - cbn [Dom.all_chars] in *. now rewrite Hc, IH.
Qed.

Lemma trimStart_length (s : string) :
  (String.length (Dom.trimStart s) <= String.length s)%nat.
Proof.
  induction s as [|c t IH]; [ simpl; lia | ].
  cbn [Dom.trimStart]. destruct (is_space c); simpl in *; lia.
Qed.

Lemma trimEnd_length (s : string) :
  (String.length (Dom.trimEnd s) <= String.length s)%nat.
Proof.
  induction s as [|c t IH]; [ simpl; lia | ].
  cbn [Dom.trimEnd]. destruct (Dom.trimEnd t); [ destruct (is_space c) | ]; simpl in *; lia.
Qed.

Lemma trim_length (s : string) : (String.length (Dom.trim s) <= String.length s)%nat.
Proof.
  unfold Dom.trim. pose proof (trimEnd_length (Dom.trimStart s)).
  pose proof (trimStart_length s). lia.
Qed.

Lemma substring_length (n : nat) (s : string) :
  (String.length (Dom.substring n s) <= n)%nat
  /\ (String.length (Dom.substring n s) <= String.length s)%nat.
Proof.
  revert s. induction n as [|n IH]; intros [|c t]; simpl; try lia.
  specialize (IH t). lia.
Qed.

Lemma substring_whole (n : nat) (s : string) :
  (String.length s <= n)%nat -> Dom.substring n s = s.
Proof.
  revert s. induction n as [|n IH]; intros [|c t] H; simpl in *; try reflexivity; try lia.
  rewrite IH; [ reflexivity | lia ].
Qed.

Lemma substring_append (a b : string) : Dom.substring (String.length a) (a ++ b) = a.
Proof. induction a as [|c a IH]; simpl; [ now destruct b | now rewrite IH ]. Qed.

Lemma remove_all (class : ascii -> bool) (s : string) :
  Dom.all_chars (fun c => negb (class c)) (Dom.remove class s) = true.
Proof.
  induction s as [|c t IH]; [ reflexivity | ].
  cbn [Dom.remove]. destruct (class c) eqn:E; [ exact IH | ].
  simpl. now rewrite E, IH.
Qed.

Lemma remove_length (class : ascii -> bool) (s : string) :
  (String.length (Dom.remove class s) <= String.length s)%nat.
Proof.
  induction s as [|c t IH]; [ simpl; lia | ].
  cbn [Dom.remove]. destruct (class c); simpl; lia.
Qed.

Lemma remove_none (class : ascii -> bool) (s : string) :
  Dom.all_chars (fun c => negb (class c)) s = true -> Dom.remove class s = s.
Proof.
  induction s as [|c t IH]; [ reflexivity | ].
  intros H. simpl in H. apply andb_prop in H. destruct H as [Hc Ht].
  cbn [Dom.remove]. destruct (class c); [ discriminate Hc | ]. now rewrite IH.
Qed.

Lemma remove_append (class : ascii -> bool) (a b : string) :
  Dom.remove class (a ++ b) = Dom.remove class a ++ Dom.remove class b.
Proof.
  induction a as [|c a IH]; [ reflexivity | ].
  simpl. destruct (class c); now rewrite IH.
Qed.

Lemma remove_keeps (P class : ascii -> bool) (s : string) :
  Dom.all_chars P s = true -> Dom.all_chars P (Dom.remove class s) = true.
Proof.
  induction s as [|c t IH]; [ reflexivity | ].
  cbn [Dom.all_chars]. intros H. apply andb_prop in H. destruct H as [Hc Ht].
  cbn [Dom.remove]. destruct (class c); [ now apply IH | ].
  cbn [Dom.all_chars]. now rewrite Hc, IH.
Qed.

Lemma all_chars_append (P : ascii -> bool) (a b : string) :
  Dom.all_chars P (a ++ b) = Dom.all_chars P a && Dom.all_chars P b.
Proof.
  induction a as [|c a IH]; [ reflexivity | ].
  simpl. now rewrite IH, andb_assoc.
Qed.

Lemma all_chars_weaken (P Q : ascii -> bool) (s : string) :
  (forall c, P c = true -> Q c = true) ->
  Dom.all_chars P s = true -> Dom.all_chars Q s = true.
Proof.
  intros H. induction s as [|c t IH]; [ reflexivity | ].
  simpl. intros E. apply andb_prop in E. destruct E as [E1 E2].
  now rewrite (H c E1), IH.
Qed.

(** A text within the limit and without a character of the class is only
    trimmed: braces and dollar signs pass. *)
Lemma sanitizeInput_clean (s : string) (maxLength : option nat) :
  Dom.all_chars (fun c => negb (App.dangerous c)) s = true ->
  (String.length s <= match maxLength with Some n => n | None => 1000 end)%nat ->
  App.sanitizeInput (Some (VStr s)) maxLength = Dom.trim s.
Proof.
  intros Hall Hlen. unfold App.sanitizeInput. cbv zeta.
  destruct (String.eqb_spec s EmptyString) as [->|_]; [ reflexivity | ].
  rewrite substring_whole by (pose proof (trim_length s); lia).
  apply remove_none. unfold Dom.trim. now apply trimEnd_all, trimStart_all.
Qed.

Lemma sanitizeInput_bounds (input : option value) (maxLength : option nat) :
  Dom.all_chars (fun c => negb (App.dangerous c)) (App.sanitizeInput input maxLength) = true
  /\ (String.length (App.sanitizeInput input maxLength)
      <= match maxLength with Some n => n | None => 1000 end)%nat.
Proof.
  unfold App.sanitizeInput.
  destruct input as [[s| |]|]; try (split; [ reflexivity | simpl; lia ]).
  destruct (String.eqb s EmptyString); [ split; [ reflexivity | simpl; lia ] | ].
  set (n := match maxLength with Some n => n | None => 1000%nat end).
  pose proof (remove_length App.dangerous (Dom.substring n (Dom.trim s))).
  pose proof (substring_length n (Dom.trim s)).
  split; [ apply remove_all | lia ].
Qed.

(** X19. Whatever it is given, sanitizeInput returns a text without
    less-than, greater-than, double quote, single quote and backquote, no
    longer than maxLength (1000 when left out) and no longer than a text it
    was given; anything that is not a text gives the empty text. *)
Theorem sanitizeInput_safe (input : option value) (maxLength : option nat) :
  let sanitized := App.sanitizeInput input maxLength in
  Dom.all_chars (fun c => negb (App.dangerous c)) sanitized = true
  /\ (String.length sanitized <= match maxLength with Some n => n | None => 1000 end)%nat
  /\ (forall s, input = Some (VStr s) ->
      (String.length sanitized <= String.length s)%nat)
  /\ ((forall s, input <> Some (VStr s)) -> sanitized = EmptyString).
Proof.
  cbv zeta. destruct (sanitizeInput_bounds input maxLength) as (Hall & Hlen).
  split; [ exact Hall | split; [ exact Hlen | split ] ].
  - intros s ->. unfold App.sanitizeInput.
    destruct (String.eqb s EmptyString); [ simpl; lia | ].
    set (n := match maxLength with Some n => n | None => 1000%nat end).
    pose proof (remove_length App.dangerous (Dom.substring n (Dom.trim s))).
    pose proof (substring_length n (Dom.trim s)). pose proof (trim_length s). lia.
  - intros H. destruct input as [[s| |]|]; try reflexivity. now elim (H s).
Qed.

(** X20. sanitizeInput trims before it cuts and removes, so its result can
    start or end with white space: a second pass gives the first result
    trimmed, and that is the only thing it changes. *)
Theorem sanitizeInput_twice (input : option value) (maxLength : option nat) :
  App.sanitizeInput (Some (VStr (App.sanitizeInput input maxLength))) maxLength
  = Dom.trim (App.sanitizeInput input maxLength).
Proof.
  destruct (sanitizeInput_bounds input maxLength) as (Hall & Hlen).
  now apply sanitizeInput_clean.
Qed.

(** A text whose second pass differs from the first. *)
Example sanitizeInput_not_idempotent :
  App.sanitizeInput (Some (VStr "<b> bold")) None = "b bold"
  /\ App.sanitizeInput (Some (VStr "< b")) None = " b"
  /\ App.sanitizeInput (Some (VStr " b")) None = "b".
Proof. repeat split. Qed.

(** X21. escapeHtml writes no angle bracket, keeps every double quote as it
    is, and puts one backslash before each single quote without doubling
    the backslashes of the text. *)
Theorem escapeHtml_keeps_double_quotes (text : string) :
  let escaped := App.escapeHtml (Some (VStr text)) in
  lacks "<" escaped = true /\ lacks ">" escaped = true
  /\ count_char (ascii_of_nat 34) escaped = count_char (ascii_of_nat 34) text
  /\ count_char "\" escaped = (count_char "\" text + count_char "'" text)%nat.
Proof.
  cbv zeta. unfold App.escapeHtml.
  destruct (String.eqb_spec text EmptyString) as [->|_]; [ repeat split | ].
  induction text as [|c t (IH1 & IH2 & IH3 & IH4)]; [ repeat split | ].
  cbn [Dom.innerHTML].
  destruct (Ascii.eqb_spec c "&") as [->|H1];
    [ | destruct (Ascii.eqb_spec c (ascii_of_nat 160)) as [->|H2];
        [ | destruct (Ascii.eqb_spec c "<") as [->|H3];
            [ | destruct (Ascii.eqb_spec c ">") as [->|H4] ] ] ].
  1-4: cbn [append App.escape_quotes Ascii.eqb Bool.eqb lacks count_char negb andb ascii_of_nat];
       simpl; rewrite ?IH1, ?IH2, ?IH3, ?IH4; repeat split; reflexivity.
  cbn [append App.escape_quotes].
  destruct (Ascii.eqb_spec c "'") as [->|H5].
  - simpl. rewrite ?IH1, ?IH2, ?IH3, ?IH4. repeat split; lia.
  - cbn [lacks count_char].
    rewrite IH1, IH2, IH3, IH4.
    rewrite (Ascii.eqb_sym "<" c), (Ascii.eqb_sym ">" c).
    apply Ascii.eqb_neq in H3, H4, H5. rewrite H3, H4, H5.
    repeat split. destruct (Ascii.eqb c "\"); lia.
Qed.

(** ** The shared address *)

Lemma string_ind3 (P : string -> Prop) :
  P EmptyString ->
  (forall a, P (String a EmptyString)) ->
  (forall a b, P (String a (String b EmptyString))) ->
  (forall a b c t, P t -> P (String a (String b (String c t)))) ->
  forall s, P s.
Proof.
  intros H0 H1 H2 H3.
  fix IH 1. intros [|a [|b [|c t]]]; [ exact H0 | apply H1 | apply H2 | ].
  apply H3. apply IH.
Qed.

Lemma list_ind4 {A : Type} (P : list A -> Prop) :
  P [] -> (forall a, P [a]) -> (forall a b, P [a; b]) -> (forall a b c, P [a; b; c]) ->
  (forall a b c d r, P r -> P (a :: b :: c :: d :: r)) ->
  forall l, P l.
Proof.
  intros H0 H1 H2 H3 H4.
  fix IH 1. intros [|a [|b [|c [|d r]]]]; [ exact H0 | apply H1 | apply H2 | apply H3 | ].
  apply H4. apply IH.
Qed.

Lemma below_64 (n : N) :
  (n < 64)%N -> In n (map N.of_nat (seq 0 64)).
Proof.
  intros H. apply in_map_iff. exists (N.to_nat n). split; [ apply N2Nat.id | ].
  apply in_seq. lia.
Qed.

Lemma digit_facts (n : N) :
  (n < 64)%N ->
  Dom.sextet (Dom.digit n) = Some n
  /\ Dom.is_ascii_whitespace (Dom.digit n) = false
  /\ Ascii.eqb (Dom.digit n) "=" = false
  /\ Ascii.eqb (Dom.digit n) "&" = false
  /\ Dom.literal (Dom.digit n) = true.
Proof.
  intros H. apply below_64 in H.
  assert (F : forallb
                (fun n =>
                   match Dom.sextet (Dom.digit n) with
                   | Some m => N.eqb m n
                   | None => false
                   end
                   && negb (Dom.is_ascii_whitespace (Dom.digit n))
                   && negb (Ascii.eqb (Dom.digit n) "=")
                   && negb (Ascii.eqb (Dom.digit n) "&")
                   && Dom.literal (Dom.digit n))
                (map N.of_nat (seq 0 64)) = true) by (vm_compute; reflexivity).
  rewrite forallb_forall in F. specialize (F n H).
  repeat (apply andb_prop in F; destruct F as [F ?]).
  destruct (Dom.sextet (Dom.digit n)) as [m|]; [ | discriminate F ].
  apply N.eqb_eq in F. subst m.
  repeat split; try reflexivity;
    match goal with
    | E : negb ?b = true |- ?b = false => now destruct b
    | _ => assumption
    end.
Qed.

Ltac div_mod_lia := zify; Z.to_euclidean_division_equations; lia.

Lemma N_of_ascii_bound (a : ascii) : (N_of_ascii a < 256)%N.
Proof. apply N_ascii_bounded. Qed.

Lemma group3 (a b c : N) :
  (a < 256)%N -> (b < 256)%N -> (c < 256)%N ->
  let n := (a * 65536 + b * 256 + c)%N in
  let s1 := (n / 262144)%N in
  let s2 := ((n / 4096) mod 64)%N in
  let s3 := ((n / 64) mod 64)%N in
  let s4 := (n mod 64)%N in
  (s1 < 64)%N /\ (s2 < 64)%N /\ (s3 < 64)%N /\ (s4 < 64)%N
  /\ (s1 * 262144 + s2 * 4096 + s3 * 64 + s4 = n)%N
  /\ (n / 65536 = a)%N /\ ((n / 256) mod 256 = b)%N /\ (n mod 256 = c)%N.
Proof. intros Ha Hb Hc. cbv zeta. repeat split; div_mod_lia. Qed.

Lemma group2 (a b : N) :
  (a < 256)%N -> (b < 256)%N ->
  let n := ((a * 256 + b) * 4)%N in
  let s1 := (n / 4096)%N in
  let s2 := ((n / 64) mod 64)%N in
  let s3 := (n mod 64)%N in
  (s1 < 64)%N /\ (s2 < 64)%N /\ (s3 < 64)%N
  /\ (((s1 * 4096 + s2 * 64 + s3) / 4) / 256 = a)%N
  /\ (((s1 * 4096 + s2 * 64 + s3) / 4) mod 256 = b)%N.
Proof. intros Ha Hb. cbv zeta. repeat split; div_mod_lia. Qed.

Lemma group1 (a : N) :
  (a < 256)%N ->
  let n := (a * 16)%N in
  let s1 := (n / 64)%N in
  let s2 := (n mod 64)%N in
  (s1 < 64)%N /\ (s2 < 64)%N /\ ((s1 * 64 + s2) / 16 = a)%N.
Proof. intros Ha. cbv zeta. repeat split; div_mod_lia. Qed.

Lemma digit_good (n : N) : (n < 64)%N -> good (Dom.digit n) = true.
Proof.
  intros H. destruct (digit_facts n H) as (H1 & H2 & H3 & H4 & H5).
  unfold good, is_digit64. now rewrite H1, H2, H3, H4, H5.
Qed.

Lemma good_parts (c : ascii) :
  good c = true ->
  is_digit64 c = true /\ negb (Dom.is_ascii_whitespace c) = true
  /\ negb (Ascii.eqb c "=") = true /\ negb (Ascii.eqb c "&") = true
  /\ Dom.literal c = true.
Proof.
  unfold good. intros H. repeat (apply andb_prop in H; destruct H as [H ?]). auto.
Qed.

Lemma btoa_split (s : string) : Dom.btoa s = btoa_body s ++ btoa_padding s.
Proof.
  induction s as [| | |a b c t IH] using string_ind3; try reflexivity.
  cbn [Dom.btoa btoa_body btoa_padding append]. now rewrite IH.
Qed.

Lemma btoa_body_good (s : string) : Dom.all_chars good (btoa_body s) = true.
Proof.
  induction s as [|a|a b|a b c t IH] using string_ind3; [ reflexivity | | | ].
  - destruct (group1 (N_of_ascii a) (N_of_ascii_bound a)) as (H1 & H2 & _).
    cbn [btoa_body Dom.all_chars]. now rewrite !digit_good.
  - destruct (group2 (N_of_ascii a) (N_of_ascii b) (N_of_ascii_bound a) (N_of_ascii_bound b))
      as (H1 & H2 & H3 & _).
    cbn [btoa_body Dom.all_chars]. now rewrite !digit_good.
  - destruct (group3 (N_of_ascii a) (N_of_ascii b) (N_of_ascii c)
                (N_of_ascii_bound a) (N_of_ascii_bound b) (N_of_ascii_bound c))
      as (H1 & H2 & H3 & H4 & _).
    cbn [btoa_body Dom.all_chars]. now rewrite !digit_good, IH.
Qed.

Lemma sextets_body (s : string) :
  exists l, Dom.sextets (btoa_body s) = Some l /\ Dom.bytes l = s.
Proof.
  induction s as [|a|a b|a b c t (l & IH1 & IH2)] using string_ind3.
  - exists []. split; reflexivity.
  - destruct (group1 (N_of_ascii a) (N_of_ascii_bound a)) as (H1 & H2 & H3).
    eexists. cbn [btoa_body Dom.sextets].
    rewrite (proj1 (digit_facts _ H1)), (proj1 (digit_facts _ H2)).
    split; [ reflexivity | ].
    cbn [Dom.bytes]. rewrite H3. now rewrite ascii_N_embedding.
  - destruct (group2 (N_of_ascii a) (N_of_ascii b) (N_of_ascii_bound a) (N_of_ascii_bound b))
      as (H1 & H2 & H3 & H4 & H5).
    eexists. cbn [btoa_body Dom.sextets].
    rewrite (proj1 (digit_facts _ H1)), (proj1 (digit_facts _ H2)), (proj1 (digit_facts _ H3)).
    split; [ reflexivity | ].
    cbn [Dom.bytes]. rewrite H4, H5. now rewrite !ascii_N_embedding.
  - destruct (group3 (N_of_ascii a) (N_of_ascii b) (N_of_ascii c)
                (N_of_ascii_bound a) (N_of_ascii_bound b) (N_of_ascii_bound c))
      as (H1 & H2 & H3 & H4 & H5 & H6 & H7 & H8).
    eexists. cbn [btoa_body Dom.sextets].
    rewrite (proj1 (digit_facts _ H1)), (proj1 (digit_facts _ H2)),
      (proj1 (digit_facts _ H3)), (proj1 (digit_facts _ H4)), IH1.
    split; [ reflexivity | ].
    cbn [Dom.bytes]. rewrite H5, H6, H7, H8, IH2. now rewrite !ascii_N_embedding.
Qed.

Lemma mod4_step (n : nat) : (S (S (S (S n))) mod 4 = n mod 4)%nat.
Proof.
  replace (S (S (S (S n)))) with (n + 1 * 4)%nat by lia. apply Nat.Div0.mod_add.
Qed.

Lemma btoa_body_length (s : string) :
  (String.length (btoa_body s) mod 4 =? 1)%nat = false.
Proof.
  induction s as [|a|a b|a b c t IH] using string_ind3; try reflexivity.
  cbn [btoa_body String.length]. now rewrite mod4_step.
Qed.

Lemma btoa_length (s : string) : (String.length (Dom.btoa s) mod 4 =? 0)%nat = true.
Proof.
  induction s as [|a|a b|a b c t IH] using string_ind3; try reflexivity.
  cbn [Dom.btoa String.length]. now rewrite mod4_step.
Qed.

Lemma btoa_length_formula (s : string) :
  String.length (Dom.btoa s) = (4 * ((String.length s + 2) / 3))%nat.
Proof.
  induction s as [|a|a b|a b c t IH] using string_ind3; try reflexivity.
  cbn [Dom.btoa String.length]. rewrite IH.
  replace (S (S (S (String.length t))) + 2)%nat with (String.length t + 2 + 1 * 3)%nat by lia.
  rewrite Nat.div_add by lia. lia.
Qed.

Lemma btoa_padding_cases (s : string) :
  btoa_padding s = EmptyString \/ btoa_padding s = "=" \/ btoa_padding s = "==".
Proof.
  induction s as [|a|a b|a b c t IH] using string_ind3; simpl; auto.
Qed.

Lemma ends_with_equals (s : string) :
  Dom.all_chars (fun c => negb (Ascii.eqb c "=")) s = true -> ends_with s "=" = false.
Proof.
  induction s as [|c t IH]; [ reflexivity | ].
  intros H. simpl in H. apply andb_prop in H. destruct H as [Hc Ht].
  cbn [ends_with]. rewrite (IH Ht), orb_false_r.
  destruct t; simpl.
  - destruct (Ascii.eqb c "="); [ discriminate Hc | reflexivity ].
  - destruct (Ascii.eqb c "="); reflexivity.
Qed.

Lemma drop_padding_none (n : nat) (body : string) :
  Dom.all_chars (fun c => negb (Ascii.eqb c "=")) body = true ->
  Dom.drop_padding n body = body.
Proof.
  intros H. destruct n; [ reflexivity | ].
  cbn [Dom.drop_padding]. now rewrite ends_with_equals.
Qed.

Lemma drop_padding_body (body pad : string) :
  Dom.all_chars (fun c => negb (Ascii.eqb c "=")) body = true ->
  pad = EmptyString \/ pad = "=" \/ pad = "==" ->
  Dom.drop_padding 2 (body ++ pad) = body.
Proof.
  intros Hb Hp.
  assert (H1 : forall n, Dom.drop_padding (S n) (body ++ "=") = body).
  { intros n. cbn [Dom.drop_padding]. rewrite ends_with_append.
    rewrite length_append. cbn [String.length].
    replace (String.length body + 1 - 1)%nat with (String.length body) by lia.
    rewrite substring_append. now apply drop_padding_none. }
  destruct Hp as [->|[->| ->]].
  - rewrite append_empty. now apply drop_padding_none.
  - apply H1.
  - cbn [Dom.drop_padding].
    change (body ++ "==") with (body ++ "=" ++ "=").
    rewrite <- append_append, ends_with_append.
    rewrite length_append. cbn [String.length].
    replace (String.length (body ++ "=") + 1 - 1)%nat
      with (String.length (body ++ "=")) by lia.
    rewrite substring_append. exact (H1 0%nat).
Qed.

Lemma atob_inverts_btoa (s : string) : Dom.atob (Dom.btoa s) = Some s.
Proof.
  pose proof (btoa_body_good s) as Hg.
  assert (Hws : Dom.remove Dom.is_ascii_whitespace (Dom.btoa s) = Dom.btoa s).
  { apply remove_none. rewrite btoa_split, all_chars_append.
    rewrite (all_chars_weaken good (fun c => negb (Dom.is_ascii_whitespace c)) _
               (fun c H => proj1 (proj2 (good_parts c H))) Hg).
    destruct (btoa_padding_cases s) as [->|[->| ->]]; reflexivity. }
  unfold Dom.atob. rewrite Hws, btoa_length.
  rewrite btoa_split, drop_padding_body.
  - rewrite btoa_body_length.
    destruct (sextets_body s) as (l & -> & ->). reflexivity.
  - exact (all_chars_weaken good _ _
             (fun c H => proj1 (proj2 (proj2 (good_parts c H)))) Hg).
  - apply btoa_padding_cases.
Qed.

(** X22. atob undoes btoa: every text of code units below 256 comes back
    from its base64 text, which is four characters for every three of the
    text, the last group rounded up, and holds nothing but the alphabet and
    at most two equals signs of padding. *)
Theorem atob_btoa (s : string) :
  Dom.atob (Dom.btoa s) = Some s
  /\ String.length (Dom.btoa s) = (4 * ((String.length s + 2) / 3))%nat
  /\ exists body padding,
       Dom.btoa s = body ++ padding
       /\ Dom.all_chars is_digit64 body = true
       /\ (padding = EmptyString \/ padding = "=" \/ padding = "==").
Proof.
  split; [ apply atob_inverts_btoa | split; [ apply btoa_length_formula | ] ].
  exists (btoa_body s), (btoa_padding s).
  split; [ apply btoa_split | split; [ | apply btoa_padding_cases ] ].
  exact (all_chars_weaken good _ _ (fun c H => proj1 (good_parts c H)) (btoa_body_good s)).
Qed.

Lemma split_lacks (sep : ascii) (s : string) : lacks sep s = true -> Dom.split sep s = [s].
Proof.
  induction s as [|c t IH]; [ reflexivity | ].
  rewrite lacks_cons. intros H. apply andb_prop in H. destruct H as [Hc Ht].
  cbn [Dom.split]. rewrite Ascii.eqb_sym.
  destruct (Ascii.eqb sep c); [ discriminate Hc | ]. now rewrite (IH Ht).
Qed.

Lemma after_first_append (c : ascii) (a b : string) :
  lacks c a = true -> Dom.after_first c (a ++ String c b) = b.
Proof.
  induction a as [|d a IH]; intros H.
  - simpl. now rewrite Ascii.eqb_refl.
  - rewrite lacks_cons in H. apply andb_prop in H. destruct H as [Hd Ha].
    simpl. rewrite Ascii.eqb_sym. destruct (Ascii.eqb c d); [ discriminate Hd | ].
    now apply IH.
Qed.

Lemma plus_to_space_lacks (s : string) : lacks "+" s = true -> Dom.plus_to_space s = s.
Proof.
  induction s as [|c t IH]; [ reflexivity | ].
  rewrite lacks_cons. intros H. apply andb_prop in H. destruct H as [Hc Ht].
  cbn [Dom.plus_to_space]. rewrite Ascii.eqb_sym.
  destruct (Ascii.eqb "+" c); [ discriminate Hc | ]. now rewrite (IH Ht).
Qed.

Lemma plus_to_space_append (a b : string) :
  Dom.plus_to_space (a ++ b) = Dom.plus_to_space a ++ Dom.plus_to_space b.
Proof. induction a as [|c a IH]; [ reflexivity | ]. simpl. now rewrite IH. Qed.

(** The characters of [btoa s]: the alphabet and the equals sign. *)
Lemma btoa_chars (s : string) :
  Dom.all_chars Dom.literal (Dom.btoa s) = true /\ lacks "&" (Dom.btoa s) = true.
Proof.
  pose proof (btoa_body_good s) as Hg. rewrite btoa_split. split.
  - rewrite all_chars_append.
    rewrite (all_chars_weaken good Dom.literal _
               (fun c H => proj2 (proj2 (proj2 (proj2 (good_parts c H))))) Hg).
    destruct (btoa_padding_cases s) as [->|[->| ->]]; reflexivity.
  - rewrite lacks_append.
    assert (H : lacks "&" (btoa_body s) = true).
    { revert Hg. generalize (btoa_body s). intros b.
      induction b as [|c t IH]; [ reflexivity | ].
      cbn [Dom.all_chars]. intros H. apply andb_prop in H. destruct H as [Hc Ht].
      apply good_parts in Hc. destruct Hc as (_ & _ & _ & Hc & _).
      rewrite Ascii.eqb_sym in Hc. rewrite lacks_cons, Hc. now apply IH. }
    rewrite H. destruct (btoa_padding_cases s) as [->|[->| ->]]; reflexivity.
Qed.

Lemma URLSearchParams_get_config (encoded : string) :
  Dom.all_chars Dom.literal encoded = true -> lacks "&" encoded = true ->
  Dom.URLSearchParams_get ("?config=" ++ encoded) "config"
  = Ok (Some (Dom.plus_to_space encoded)).
Proof.
  intros Hl Ha. unfold Dom.URLSearchParams_get.
  rewrite all_chars_append, Hl. change (Dom.all_chars Dom.literal "?config=") with true.
  cbn [andb]. change ("?config=" ++ encoded) with (String "?" ("config=" ++ encoded)).
  cbv iota. rewrite Ascii.eqb_refl.
  rewrite split_lacks by (rewrite lacks_append, Ha; reflexivity).
  cbn [filter]. change (String.eqb ("config=" ++ encoded) EmptyString) with false.
  cbn [negb map filter]. unfold Dom.pair_of.
  change ("config=" ++ encoded) with ("config" ++ String "=" encoded).
  rewrite before_first_append, after_first_append by reflexivity.
  cbn [fst snd]. change (String.eqb (Dom.plus_to_space "config") "config") with true.
  reflexivity.
Qed.

Lemma btoa_nonempty (s : string) : s <> EmptyString -> Dom.btoa s <> EmptyString.
Proof. destruct s as [|a [|b [|c t]]]; [ now intros H | | | ]; discriminate. Qed.

(** X23. A shared configuration comes back when its base64 text has no plus
    sign: opened at the address that shareConfiguration copies, whose search
    part is '?config=' and the base64 text, handleUrlParams decodes the JSON
    text that was encoded. *)
Theorem share_round_trip (jsonString : string) :
  jsonString <> EmptyString ->
  lacks "+" (Dom.btoa jsonString) = true ->
  App.handleUrlParams ("?config=" ++ Dom.btoa jsonString) = Ok (App.Decoded jsonString).
Proof.
  intros Hne Hplus. unfold App.handleUrlParams.
  destruct (btoa_chars jsonString) as (Hl & Ha).
  rewrite (URLSearchParams_get_config _ Hl Ha), (plus_to_space_lacks _ Hplus).
  cbn [bind]. apply btoa_nonempty in Hne. apply String.eqb_neq in Hne. rewrite Hne.
  now rewrite atob_inverts_btoa.
Qed.

Lemma share_round_trip_witness :
  App.handleUrlParams ("?config=" ++ Dom.btoa json_init) = Ok (App.Decoded json_init).
Proof.
  apply (share_round_trip json_init); [ discriminate | reflexivity ].
Defined.

Lemma bytes_length (l : list N) :
  String.length (Dom.bytes l) = (3 * List.length l / 4)%nat.
Proof.
  induction l as [|a|a b|a b c|a b c d r IH] using list_ind4; try reflexivity.
  cbn [Dom.bytes String.length List.length]. rewrite IH.
  replace (3 * S (S (S (S (List.length r)))))%nat
    with (3 * List.length r + 3 * 4)%nat by lia.
  rewrite Nat.div_add by lia. lia.
Qed.

Lemma sextets_length (data : string) (l : list N) :
  Dom.sextets data = Some l -> List.length l = String.length data.
Proof.
  revert l. induction data as [|c t IH]; intros l H.
  - injection H as <-. reflexivity.
  - cbn [Dom.sextets] in H. destruct (Dom.sextet c); [ | discriminate H ].
    destruct (Dom.sextets t) as [l'|]; [ | discriminate H ].
    injection H as <-. simpl. now rewrite (IH l').
Qed.

Lemma sextets_good (data : string) :
  Dom.all_chars good data = true -> exists l, Dom.sextets data = Some l.
Proof.
  induction data as [|c t IH]; [ now exists [] | ].
  cbn [Dom.all_chars]. intros H. apply andb_prop in H. destruct H as [Hc Ht].
  destruct (IH Ht) as [l El]. apply good_parts in Hc. destruct Hc as (Hc & _).
  unfold is_digit64 in Hc. cbn [Dom.sextets].
  destruct (Dom.sextet c) as [n|]; [ | discriminate Hc ].
  rewrite El. now eexists.
Qed.

Lemma sextets_padded (body rest : string) :
  Dom.sextets (body ++ String "=" rest) = None.
Proof.
  induction body as [|c t IH]; [ reflexivity | ].
  cbn [append Dom.sextets]. rewrite IH. now destruct (Dom.sextet c).
Qed.

(** On its way through the address a plus sign becomes a space, and atob
    drops the space. *)
Lemma plus_dropped (body : string) :
  Dom.all_chars good body = true ->
  Dom.remove Dom.is_ascii_whitespace (Dom.plus_to_space body)
  = Dom.remove (fun c => Ascii.eqb c "+") body.
Proof.
  induction body as [|c t IH]; [ reflexivity | ].
  cbn [Dom.all_chars]. intros H. apply andb_prop in H. destruct H as [Hc Ht].
  cbn [Dom.plus_to_space Dom.remove]. rewrite (IH Ht).
  destruct (Ascii.eqb c "+"); [ reflexivity | ].
  apply good_parts in Hc. destruct Hc as (_ & Hc & _).
  now destruct (Dom.is_ascii_whitespace c).
Qed.

Lemma remove_plus_shorter (body : string) :
  lacks "+" body = false ->
  (String.length (Dom.remove (fun c => Ascii.eqb c "+") body) < String.length body)%nat.
Proof.
  induction body as [|c t IH]; [ discriminate | ].
  rewrite lacks_cons, Ascii.eqb_sym. cbn [Dom.remove String.length].
  pose proof (remove_length (fun c => Ascii.eqb c "+") t).
  destruct (Ascii.eqb c "+"); cbn [negb andb String.length]; [ lia | ].
  intros H0. specialize (IH H0). lia.
Qed.

Lemma quarter_strict (m' m : nat) :
  (m' < m)%nat -> (m mod 4 <> 1)%nat -> (3 * m' / 4 < 3 * m / 4)%nat.
Proof.
  intros H1 H2.
  assert (C : (m mod 4 = 0 \/ m mod 4 = 2 \/ m mod 4 = 3)%nat).
  { assert (B : (m mod 4 < 4)%nat) by (apply Nat.mod_upper_bound; lia). lia. }
  clear H2. zify. Z.to_euclidean_division_equations. lia.
Qed.

(** X24. A plus sign in the base64 text spoils the shared address: the
    query reads it as a space and atob drops the space, so handleUrlParams
    either finds the format invalid or decodes a text shorter than the JSON
    text that was encoded. *)
Theorem share_plus_sign_lost (jsonString : string) :
  lacks "+" (Dom.btoa jsonString) = false ->
  App.handleUrlParams ("?config=" ++ Dom.btoa jsonString) = Ok App.InvalidFormat
  \/ exists decodedString,
       App.handleUrlParams ("?config=" ++ Dom.btoa jsonString)
       = Ok (App.Decoded decodedString)
       /\ (String.length decodedString < String.length jsonString)%nat.
Proof.
  intros Hplus. unfold App.handleUrlParams.
  destruct (btoa_chars jsonString) as (Hl & Ha).
  rewrite (URLSearchParams_get_config _ Hl Ha). cbn [bind].
  assert (Hne : String.eqb (Dom.plus_to_space (Dom.btoa jsonString)) EmptyString = false).
  { destruct (Dom.btoa jsonString); [ discriminate Hplus | reflexivity ]. }
  rewrite Hne. clear Hne Hl Ha.
  pose proof (btoa_body_good jsonString) as Hg.
  pose proof (btoa_body_length jsonString) as Hm.
  destruct (sextets_body jsonString) as (l & El & Eb).
  apply sextets_length in El.
  assert (Hs : String.length jsonString = (3 * String.length (btoa_body jsonString) / 4)%nat)
    by (now rewrite <- Eb at 1; rewrite bytes_length, El).
  rewrite btoa_split in *.
  set (body := btoa_body jsonString) in *. set (pad := btoa_padding jsonString) in *.
  assert (Hp : pad = EmptyString \/ pad = "=" \/ pad = "==") by apply btoa_padding_cases.
  assert (Hb : lacks "+" body = false).
  { rewrite lacks_append in Hplus.
    destruct (lacks "+" body); [ | reflexivity ].
    destruct Hp as [->|[->| ->]]; discriminate Hplus. }
  set (body' := Dom.remove (fun c => Ascii.eqb c "+") body).
  assert (Hg' : Dom.all_chars good body' = true) by now apply remove_keeps.
  assert (Hlt : (String.length body' < String.length body)%nat)
    by now apply remove_plus_shorter.
  assert (He : Dom.all_chars (fun c => negb (Ascii.eqb c "=")) body' = true)
    by exact (all_chars_weaken good _ _
                (fun c H => proj1 (proj2 (proj2 (good_parts c H)))) Hg').
  destruct (sextets_good body' Hg') as (l' & El').
  assert (Hd : (String.length (Dom.bytes l') < String.length jsonString)%nat).
  { rewrite bytes_length, (sextets_length _ _ El'), Hs.
    apply Nat.eqb_neq in Hm. now apply quarter_strict. }
  assert (Hdata : Dom.remove Dom.is_ascii_whitespace (Dom.plus_to_space (body ++ pad))
                  = body' ++ pad).
  { rewrite plus_to_space_append, remove_append, (plus_dropped body Hg).
    destruct Hp as [->|[->| ->]]; reflexivity. }
  unfold Dom.atob. rewrite Hdata.
  assert (Hbody : match (if (String.length body' mod 4 =? 1)%nat then None
                         else match Dom.sextets body' with
                              | Some l => Some (Dom.bytes l)
                              | None => None
                              end) with
                  | Some decodedString => Ok (App.Decoded decodedString)
                  | None => Ok App.InvalidFormat
                  end = Ok App.InvalidFormat
                  \/ exists decodedString,
                       match (if (String.length body' mod 4 =? 1)%nat then None
                              else match Dom.sextets body' with
                                   | Some l => Some (Dom.bytes l)
                                   | None => None
                                   end) with
                       | Some decodedString => Ok (App.Decoded decodedString)
                       | None => Ok App.InvalidFormat
                       end = Ok (App.Decoded decodedString)
                       /\ (String.length decodedString < String.length jsonString)%nat).
  { destruct (String.length body' mod 4 =? 1)%nat; [ now left | ].
    rewrite El'. right. now exists (Dom.bytes l'). }
  destruct (String.length (body' ++ pad) mod 4 =? 0)%nat eqn:E0.
  - rewrite drop_padding_body by assumption. exact Hbody.
  - destruct Hp as [->|[->| ->]].
    + rewrite append_empty. exact Hbody.
    + rewrite sextets_padded.
      match goal with |- context [if ?b then None else None] => destruct b end; now left.
    + rewrite sextets_padded.
      match goal with |- context [if ?b then None else None] => destruct b end; now left.
Qed.

Lemma share_plus_sign_lost_witness :
  App.handleUrlParams ("?config=" ++ Dom.btoa json_fix) = Ok App.InvalidFormat
  \/ exists decodedString,
       App.handleUrlParams ("?config=" ++ Dom.btoa json_fix)
       = Ok (App.Decoded decodedString)
       /\ (String.length decodedString < String.length json_fix)%nat.
Proof. apply (share_plus_sign_lost json_fix). reflexivity. Defined.

Lemma binary_spec (data : list N) :
  (forallb (fun u => (u <? 256)%N) data = true ->
   exists s, Dom.binary data = Some s /\ String.length s = List.length data)
  /\ (forallb (fun u => (u <? 256)%N) data = false -> Dom.binary data = None).
Proof.
  induction data as [|u r [IH1 IH2]]; cbn [forallb Dom.binary].
  - split; [ intros _; now exists EmptyString | discriminate ].
  - destruct (u <? 256)%N; cbn [andb].
    + split.
      * intros H. destruct (IH1 H) as (s & -> & L). eexists. split; [ reflexivity | ].
        cbn [String.length List.length]. now rewrite L.
      * intros H. now rewrite (IH2 H).
    + split; [ discriminate | reflexivity ].
Qed.

(** X25. shareConfiguration hands an address to the clipboard exactly when
    every code unit of the JSON text is below 256 and the origin, the path,
    the eight characters of '?config=' and four characters for every three
    of the JSON text, the last group rounded up, come to 2000 characters at
    most.  With a wider code unit btoa throws and nothing is copied,
    whatever the length; above 2000 characters the notice says too large. *)
Theorem shareConfiguration_limit (origin pathname : string) (jsonString : list N) :
  let narrow := forallb (fun u => (u <? 256)%N) jsonString in
  let total :=
    (String.length origin + String.length pathname + 8
     + 4 * ((List.length jsonString + 2) / 3))%nat in
  (narrow = false -> App.shareConfiguration origin pathname jsonString = App.Failed)
  /\ (narrow = true -> (2000 < total)%nat ->
      App.shareConfiguration origin pathname jsonString = App.TooLarge)
  /\ (narrow = true -> (total <= 2000)%nat ->
      exists data,
        Dom.binary jsonString = Some data
        /\ App.shareConfiguration origin pathname jsonString
           = App.Copied (origin ++ pathname ++ "?config=" ++ Dom.btoa data))
  /\ ((exists shareUrl,
         App.shareConfiguration origin pathname jsonString = App.Copied shareUrl)
      <-> narrow = true /\ (total <= 2000)%nat).
Proof.
  cbv zeta. destruct (binary_spec jsonString) as [B1 B2].
  assert (L : forall data, Dom.binary jsonString = Some data ->
            String.length (origin ++ pathname ++ "?config=" ++ Dom.btoa data)
            = (String.length origin + String.length pathname + 8
               + 4 * ((List.length jsonString + 2) / 3))%nat).
  { intros data E.
    destruct (forallb (fun u => (u <? 256)%N) jsonString) eqn:F.
    - destruct (B1 eq_refl) as (s & E' & Ls). rewrite E in E'. injection E' as <-.
      rewrite !length_append, btoa_length_formula, Ls. cbn [String.length]. lia.
    - rewrite (B2 eq_refl) in E. discriminate E. }
  unfold App.shareConfiguration, Dom.btoa_text.
  destruct (forallb (fun u => (u <? 256)%N) jsonString) eqn:F.
  - destruct (B1 eq_refl) as (data & E & _). rewrite E. specialize (L data E).
    cbv zeta. rewrite L.
    split; [ discriminate | ].
    split; [ intros _ H; destruct (Nat.ltb_spec 2000
               (String.length origin + String.length pathname + 8
                + 4 * ((List.length jsonString + 2) / 3))); [ reflexivity | lia ] | ].
    split.
    + intros _ H. exists data. split; [ reflexivity | ].
      destruct (Nat.ltb_spec 2000
                  (String.length origin + String.length pathname + 8
                   + 4 * ((List.length jsonString + 2) / 3))); [ lia | reflexivity ].
    + destruct (Nat.ltb_spec 2000
                  (String.length origin + String.length pathname + 8
                   + 4 * ((List.length jsonString + 2) / 3))).
      * split; [ intros [u Hu]; discriminate Hu | intros [_ H']; lia ].
      * split; [ intros _; split; [ reflexivity | lia ] | intros _; eexists; reflexivity ].
  - rewrite (B2 eq_refl).
    split; [ reflexivity | ].
    split; [ discriminate | ].
    split; [ discriminate | ].
    split; [ intros [u Hu]; discriminate Hu | intros [H' _]; discriminate H' ].
Qed.

(** ** The answers in the command line prompt *)

Lemma fill_first_nodup (k v : string) (ts : list token) :
  NoDup (holes ts) -> fill_first k v ts = fill k v ts.
Proof.
  induction ts as [|[s|n] ts IH]; cbn [holes fill_first fill map fill_token]; intros H.
  - reflexivity.
  - f_equal. now apply IH.
  - inversion H as [|? ? Hn Hnd]; subst.
    destruct (String.eqb_spec n k) as [->|Hne].
    + f_equal. clear IH H Hnd. induction ts as [|[s|m] ts IH]; cbn [map fill_token].
      * reflexivity.
      * f_equal. apply IH. exact Hn.
      * cbn [holes] in Hn. destruct (String.eqb_spec m k) as [->|_].
        -- elim Hn. now left.
        -- f_equal. apply IH. intros Hin. apply Hn. now right.
    + f_equal. now apply IH.
Qed.

Lemma Node_resolve_map (options : object) (ts : list token) :
  NoDup (holes ts) ->
  Node_resolve options ts =
  map (fun t => match t with
                | Text s => Text s
                | Hole n =>
                    if existsb (String.eqb n) (keys options)
                    then Text (Node_answer options n) else Hole n
                end) ts.
Proof.
  unfold Node_resolve. revert ts. induction (keys options) as [|k ks IH]; intros ts Hnd.
  - cbn [fold_left existsb]. rewrite <- (map_id ts) at 1.
    apply map_ext. now intros [s|n].
  - cbn [fold_left]. rewrite IH by now apply holes_fill_first_nodup.
    rewrite (fill_first_nodup _ _ _ Hnd). unfold fill. rewrite map_map.
    apply map_ext. intros [s|n]; [ reflexivity | ].
    cbn [fill_token existsb]. destruct (String.eqb_spec n k) as [->|_]; reflexivity.
Qed.

Lemma Node_resolve_fill_all (options : object) (ts : list token) :
  NoDup (holes ts) -> (forall n, In n (holes ts) -> In n (keys options)) ->
  Node_resolve options ts = Node_fill_all options ts.
Proof.
  intros Hnd H. rewrite (Node_resolve_map _ _ Hnd). unfold Node_fill_all.
  apply map_ext_in. intros [s|n] Hin; [ reflexivity | ].
  assert (E : existsb (String.eqb n) (keys options) = true).
  { apply existsb_exists. exists n. split; [ | apply String.eqb_refl ].
    apply H. now apply hole_in_holes. }
  now rewrite E.
Qed.

Lemma Node_fill_all_holes (options : object) (ts : list token) :
  holes (Node_fill_all options ts) = [].
Proof. induction ts as [|[s|n] ts IH]; cbn [Node_fill_all map holes]; auto. Qed.

(** With every placeholder answered, the switch of the command line builder
    leaves the phrase of a feature, an architecture, a testing and a fix
    prompt as it is. *)
Lemma Node_enhance_same (type : string) (template : template) (options : object)
    (ts : list token) (cs : list string) :
  In type ["feature"; "architecture"; "testing"; "fix"] ->
  assoc Node.PROMPT_TEMPLATES type = Some template ->
  texty (get options "library") = true -> texty (get options "customLibrary") = true ->
  forallb option_name (keys options) = true -> all_sound options = true ->
  wf_tokens ts -> holes ts = [] -> forallb clause_ok cs = true ->
  exists cs', Node.enhance template type options (render ts) cs = Ok (render ts, cs').
Proof.
  intros Htype HT Hlib Hcustom Hk Hs Hwf Hholes Hcs.
  simpl in Htype.
  destruct Htype as [<-|[<-|[<-|[<-|[]]]]];
    vm_compute in HT; inversion HT; subst template; clear HT;
    unfold Node.enhance; simpl (String.eqb _ _); cbv iota;
    unfold member; simpl (assoc _ _); cbn [withProjectName].
  - phrase_step replace_token_subst "pattern" Hs.
    collect_step.
    destruct K as (_ & _ & _ & Ksame). rewrite (Ksame Hholes). now eexists.
  - phrase_step replace_token_subst "pattern" Hs.
    destruct K as (_ & _ & _ & Ksame). rewrite (Ksame Hholes). now eexists.
  - phrase_step replace_token_subst "testType" Hs.
    match goal with
    | |- context [push_library cs ?l ?c ?libraries] =>
        destruct (push_library_collects cs l c libraries Hcs
                    ltac:(auto with clauses) ltac:(auto with clauses) Hlib Hcustom)
          as (cs0 & E0 & Hcs0)
    end.
    { intros d' [= <-]. reflexivity. }
    rewrite E0. cbn [bind].
    destruct K as (_ & _ & _ & Ksame). rewrite (Ksame Hholes). now eexists.
  - phrase_step replace_token_subst "approach" Hs.
    collect_step.
    match goal with
    | |- context [push_guarded ?c ?pre ?v ?categories] =>
        destruct (push_guarded_collects c pre v categories
                    ltac:(auto with clauses) ltac:(auto with clauses))
          as (cs1 & E1 & Hcs1)
    end.
    { intros d' [= <-]. reflexivity. }
    rewrite E1. cbn [bind].
    destruct K as (_ & _ & _ & Ksame). rewrite (Ksame Hholes). now eexists.
Qed.

(** X26. For a feature, an architecture, a testing or a fix prompt whose
    answers name every placeholder of the base phrase, the command line
    builder returns the base phrase with each placeholder replaced by its
    answer, or by the word default where the answer is falsy (blank), then
    the constraints and the closing sentence: the switch on the type changes
    nothing in the phrase. *)
Theorem Node_buildPrompt_answers (type : string) (options : object) :
  In type ["feature"; "architecture"; "testing"; "fix"] ->
  well_formed options = true ->
  (forall n, In n (placeholders type) -> In n (keys options)) ->
  exists cs,
    fst (Node.buildPrompt type options)
    = Ok (finish (render (Node_fill_all options (base_tokens type))) cs).
Proof.
  intros Htype Hwf Hkeys.
  assert (Hknown : In type known_types) by (simpl in *; intuition).
  destruct (Node_known_template type Hknown) as (template & HT & HR & Hbase).
  destruct (well_formed_parts options Hwf) as (_ & _ & _ & _ & Hlib & Hcustom).
  destruct (Node_custom_framework_facts options Hwf) as (Hk & Hs & Hin & Hget).
  set (options' := Node.custom_framework options) in *.
  assert (Hfill : Node_resolve options' (base_tokens type)
                  = Node_fill_all options (base_tokens type)).
  { rewrite Node_resolve_fill_all;
      [ | apply base_holes_nodup | intros n Hn; apply Hin; now apply Hkeys ].
    unfold Node_fill_all. apply map_ext_in. intros [s|n] Hn; [ reflexivity | ].
    unfold Node_answer. rewrite Hget; [ reflexivity | ].
    intros ->. apply hole_in_holes in Hn.
    simpl in Htype. destruct Htype as [<-|[<-|[<-|[<-|[]]]]];
      simpl in Hn; intuition discriminate. }
  unfold Node.buildPrompt. rewrite HR. fold options'. cbn [fst].
  unfold Node.parts. rewrite Hbase.
  destruct (Node_substitute_render options' (base_tokens type) Hk Hs (base_tokens_wf type))
    as [E K].
  rewrite E, Hfill. cbn [bind].
  assert (E0 : (if String.eqb type "init"
                then push_guarded [] EmptyString (get options' "framework")
                       (member template "frameworks")
                else Ok []) = Ok []).
  { simpl in Htype. destruct Htype as [<-|[<-|[<-|[<-|[]]]]]; reflexivity. }
  rewrite E0. cbn [bind].
  do 5 collect_step.
  match goal with
  | |- context [Node.enhance _ _ _ (render ?t) ?c] =>
      destruct (Node_enhance_same type template options' t c Htype HT) as (cs' & E'); auto
  end.
  - rewrite Hget; [ exact Hlib | discriminate ].
  - rewrite Hget; [ exact Hcustom | discriminate ].
  - rewrite <- Hfill. now destruct K.
  - apply Node_fill_all_holes.
  - rewrite E'. cbn [bind fst snd]. now exists cs'.
Qed.

Lemma Node_buildPrompt_answers_witness :
  exists cs,
    fst (Node.buildPrompt "feature" [("feature", VStr EmptyString); ("pattern", VStr "hook")])
    = Ok (finish
            (render (Node_fill_all [("feature", VStr EmptyString); ("pattern", VStr "hook")]
                       (base_tokens "feature"))) cs).
Proof.
  apply (Node_buildPrompt_answers "feature"
           [("feature", VStr EmptyString); ("pattern", VStr "hook")]);
    [ simpl; tauto | reflexivity | ].
  simpl. intros n [<-|[<-|[]]]; tauto.
Defined.

(** A blank feature name is written as the word default. *)
Example blank_answer_scenario :
  render (Node_fill_all [("feature", VStr EmptyString); ("pattern", VStr "hook")]
            (base_tokens "feature"))
  = "Implement default as hook"
  /\ fst (Node.buildPrompt "feature" [("feature", VStr EmptyString); ("pattern", VStr "hook")])
     = Ok "Implement default as hook Ask user to clarify if necessary.".
Proof. split; reflexivity. Qed.
